(** * Lead enrichment crawler: the FastPeopleSearch scrapers

    A shallow embedding of [src/scraping/fps_scraper_edge.py] and
    [src/scraping/fps_scraper_chrome.py]: the target builder
    ([build_fps_url]), the gate classifiers, the detail-page heuristics and
    parsers, phone normalisation, candidate ranking, the per-record loop of
    [main] and the checkpoint writer [save_atomic].

    Python strings are modelled as lists of characters whose code points lie
    in U+0000..U+00FF (the type [ascii] read as Latin-1).  Every character
    table below ([py_isspace], [py_lower], ...) is the restriction of the
    Python 3 table to that range. *)

From Stdlib Require Import Ascii String List Bool Arith ZArith NArith Lia DecimalString.
From Stdlib Require DecimalNat.
From stdpp Require Import base gmap list strings.
Import ListNotations.

Open Scope char_scope.
Open Scope nat_scope.
Open Scope list_scope.

(** ** Characters and strings *)

Module PyStr.

Definition str := list ascii.

(** A string literal of the source. *)
Definition lit (x : string) : str := list_ascii_of_string x.

Definition code (c : ascii) : N := N_of_ascii c.

Definition in_range (lo hi : N) (c : ascii) : bool :=
  (lo <=? code c)%N && (code c <=? hi)%N.

Definition is_digit (c : ascii) : bool := in_range 48 57 c.
Definition is_upper_az (c : ascii) : bool := in_range 65 90 c.
Definition is_lower_az (c : ascii) : bool := in_range 97 122 c.
Definition is_letter (c : ascii) : bool := is_upper_az c || is_lower_az c.
Definition is_hex (c : ascii) : bool :=
  is_digit c || in_range 65 70 c || in_range 97 102 c.

Definition chr_eqb (a b : ascii) : bool := Ascii.eqb a b.

(** [str.isspace] and the regex class [\s]: TAB..CR, FS..US, space, NEL, NBSP. *)
Definition py_isspace (c : ascii) : bool :=
  in_range 9 13 c || in_range 28 31 c || (code c =? 32)%N
  || (code c =? 133)%N || (code c =? 160)%N.

(** [str.lower] on one character: A-Z and the Latin-1 capitals
    U+00C0..U+00DE (without the multiplication sign U+00D7) move up by 32. *)
Definition py_lower_chr (c : ascii) : ascii :=
  if is_upper_az c || (in_range 192 222 c && negb (code c =? 215)%N)
  then ascii_of_N (code c + 32) else c.

Definition py_lower (s : str) : str := map py_lower_chr s.

(** [str.upper], used by the source only on text matched by [[A-Z]] under
    [re.I], i.e. on ASCII letters. *)
Definition py_upper_chr (c : ascii) : ascii :=
  if is_lower_az c then ascii_of_N (code c - 32) else c.

Definition py_upper (s : str) : str := map py_upper_chr s.

Fixpoint lstrip (s : str) : str :=
  match s with
  | c :: t => if py_isspace c then lstrip t else s
  | [] => []
  end.

Definition rstrip (s : str) : str := rev (lstrip (rev s)).

(** [s.strip()] *)
Definition py_strip (s : str) : str := rstrip (lstrip s).

Fixpoint starts_with (p s : str) : bool :=
  match p, s with
  | [], _ => true
  | a :: p', b :: s' => chr_eqb a b && starts_with p' s'
  | _ :: _, [] => false
  end.

(** [p in s] for strings. *)
Fixpoint contains (p s : str) : bool :=
  starts_with p s ||
  match s with
  | [] => false
  | _ :: t => contains p t
  end.

Definition str_eqb (a b : str) : bool :=
  if decide (a = b) then true else false.

(** [s.replace(old, new)] for a one-character [old]. *)
Definition replace_chr (old : ascii) (new : str) (s : str) : str :=
  flat_map (fun c => if chr_eqb c old then new else [c]) s.

(** [s[:n]] *)
Definition slice_to (n : nat) (s : str) : str := firstn n s.

(** [sep.join(items)] *)
Fixpoint join (sep : str) (items : list str) : str :=
  match items with
  | [] => []
  | [x] => x
  | x :: rest => x ++ sep ++ join sep rest
  end.

(** Truthiness of a string or of a list: non-empty. *)
Definition truthy {A : Type} (s : list A) : bool :=
  match s with [] => false | _ => true end.

End PyStr.
Export PyStr.

(** ** Regular expressions of the [re] module

    A backtracking matcher: [matches r prev s] lists, in the order in which
    the backtracking engine tries them, every way in which [r] matches a
    prefix of [s]; [prev] is the character before [s] (for [\b]).  The head
    of the list is the match that [re] reports. *)

Module Re.

Inductive regex : Type :=
| Eps
| Cls (p : ascii -> bool)          (* one character of a class *)
| Seq (a b : regex)
| Alt (a b : regex)
| Star (greedy : bool) (a : regex)
| Grp (i : nat) (a : regex)        (* capturing group number [i] *)
| Eos                              (* [$] *)
| Wordb.                           (* [\b] *)

(** matched text, captures, remaining input *)
Definition res : Type := str * list (nat * str) * str.

Definition last_chr (m : str) (prev : option ascii) : option ascii :=
  match rev m with
  | c :: _ => Some c
  | [] => prev
  end.

(** [\w] on U+0000..U+00FF. *)
Definition is_word (c : ascii) : bool :=
  is_letter c || is_digit c || (code c =? 95)%N
  || (code c =? 170)%N || (code c =? 178)%N || (code c =? 179)%N
  || (code c =? 181)%N || (code c =? 185)%N || (code c =? 186)%N
  || in_range 188 190 c || in_range 192 214 c || in_range 216 246 c
  || in_range 248 255 c.

Definition is_word_opt (o : option ascii) : bool :=
  match o with
  | Some c => is_word c
  | None => false
  end.

Definition extend (m1 : str) (c1 : list (nat * str)) (r2 : res) : res :=
  match r2 with
  | (m2, c2, t2) => (m1 ++ m2, c1 ++ c2, t2)
  end.

(** Iterations of a starred body; an iteration that consumes nothing is
    not repeated. *)
Fixpoint star_iter (body : option ascii -> str -> list res) (greedy : bool)
    (fuel : nat) (prev : option ascii) (s : str) : list res :=
  match fuel with
  | 0 => [([], [], s)]
  | S k =>
    let more :=
      flat_map (fun r1 : res =>
        match r1 with
        | ([], _, _) => []
        | (m1, c1, t1) =>
            map (extend m1 c1) (star_iter body greedy k (last_chr m1 prev) t1)
        end) (body prev s) in
    if greedy then more ++ [([], [], s)] else ([], [], s) :: more
  end.

Fixpoint matches (r : regex) (prev : option ascii) (s : str) : list res :=
  match r with
  | Eps => [([], [], s)]
  | Cls p =>
      match s with
      | c :: t => if p c then [([c], [], t)] else []
      | [] => []
      end
  | Seq a b =>
      flat_map (fun r1 : res =>
        match r1 with
        | (m1, c1, t1) => map (extend m1 c1) (matches b (last_chr m1 prev) t1)
        end) (matches a prev s)
  | Alt a b => matches a prev s ++ matches b prev s
  | Star g a => star_iter (matches a) g (S (length s)) prev s
  | Grp i a =>
      map (fun r1 : res =>
        match r1 with
        | (m, c, t) => (m, c ++ [(i, m)], t)
        end) (matches a prev s)
  | Eos =>
      match s with
      | [] => [([], [], s)]
      | [c] => if chr_eqb c "010" then [([], [], s)] else []
      | _ => []
      end
  | Wordb =>
      if xorb (is_word_opt prev) (is_word_opt (head s))
      then [([], [], s)] else []
  end.

(** [m.group(i)]: the last text captured by group [i]. *)
Fixpoint group (i : nat) (caps : list (nat * str)) : option str :=
  match caps with
  | [] => None
  | (j, m) :: rest =>
      match group i rest with
      | Some m' => Some m'
      | None => if Nat.eqb i j then Some m else None
      end
  end.

(** [re.search]: the first start position with a match. *)
Fixpoint search_from (r : regex) (prev : option ascii) (s : str) : option res :=
  match matches r prev s with
  | x :: _ => Some x
  | [] =>
      match s with
      | [] => None
      | c :: t => search_from r (Some c) t
      end
  end.

Definition search (r : regex) (s : str) : option res := search_from r None s.

Definition found (r : regex) (s : str) : bool :=
  match search r s with Some _ => true | None => false end.

(** [re.findall] for a pattern without capturing groups: the successive
    non-overlapping matches.  None of the patterns used with it matches
    the empty string; an empty match is reported and skipped. *)
Fixpoint findall_from (fuel : nat) (r : regex) (prev : option ascii) (s : str)
    : list str :=
  match fuel with
  | 0 => []
  | S k =>
    match matches r prev s with
    | (c :: m, _, t) :: _ => (c :: m) :: findall_from k r (last_chr (c :: m) prev) t
    | ([], _, _) :: _ =>
        [] :: match s with
              | [] => []
              | c :: t => findall_from k r (Some c) t
              end
    | [] =>
        match s with
        | [] => []
        | c :: t => findall_from k r (Some c) t
        end
    end
  end.

Definition findall (r : regex) (s : str) : list str :=
  findall_from (S (length s)) r None s.

(** [re.sub(r, repl, s)] with a literal replacement, for patterns that do
    not match the empty string (all patterns substituted in the source). *)
Fixpoint sub_from (fuel : nat) (r : regex) (repl : str) (prev : option ascii)
    (s : str) : str :=
  match fuel with
  | 0 => s
  | S k =>
    match matches r prev s with
    | (c :: m, _, t) :: _ => repl ++ sub_from k r repl (last_chr (c :: m) prev) t
    | _ =>
        match s with
        | [] => []
        | c :: t => c :: sub_from k r repl (Some c) t
        end
    end
  end.

Definition sub (r : regex) (repl : str) (s : str) : str :=
  sub_from (S (length s)) r repl None s.

(** Derived forms. *)
Definition Opt (a : regex) : regex := Alt a Eps.            (* a? *)
Definition Plus (a : regex) : regex := Seq a (Star true a). (* a+ *)
Definition PlusLazy (a : regex) : regex := Seq a (Star false a). (* a+? *)

Fixpoint Rep (n : nat) (a : regex) : regex :=               (* a{n} *)
  match n with
  | 0 => Eps
  | 1 => a
  | S k => Seq a (Rep k a)
  end.

Definition Chr (c : ascii) : regex := Cls (chr_eqb c).

(** A literal under [re.I]. *)
Definition ChrI (c : ascii) : regex :=
  Cls (fun x => chr_eqb (py_lower_chr x) (py_lower_chr c)).

Fixpoint Lit (s : str) : regex :=
  match s with
  | [] => Eps
  | [c] => Chr c
  | c :: t => Seq (Chr c) (Lit t)
  end.

Fixpoint LitI (s : str) : regex :=
  match s with
  | [] => Eps
  | [c] => ChrI c
  | c :: t => Seq (ChrI c) (LitI t)
  end.

Definition ws : regex := Cls py_isspace.       (* \s *)
Definition digit : regex := Cls is_digit.      (* \d *)
Definition AnyNoNl : regex := Cls (fun c => negb (chr_eqb c "010")). (* . *)
Definition AnyChr : regex := Cls (fun _ => true).                 (* . under re.S *)

End Re.
Export Re.

(** ** Python values at the boundary of the scraper

    [address] and [zip_code] reach [build_fps_url] as a string, as [None],
    or as what pandas puts in an empty cell (a float NaN) or in a numeric
    one; the source guards both with [isinstance(_, str)]. *)

Inductive pyval : Type :=
| PyNone
| PyStr (s : str)
| PyNum (n : Z)
| PyNaN.

(** Truth value of [x] in [x or y]. *)
Definition py_truth (v : pyval) : bool :=
  match v with
  | PyNone => false
  | PyStr s => truthy s
  | PyNum n => negb (n =? 0)%Z
  | PyNaN => true
  end.

(** [v or d] *)
Definition py_or (v d : pyval) : pyval := if py_truth v then v else d.

(** [(x or "")] for [x : str | None]. *)
Definition or_empty (x : option str) : str :=
  match x with
  | Some s => s
  | None => []
  end.

(** ** Target builder *)

Module Target.

(** [urllib.parse.quote_plus]: unreserved characters stay, a space becomes
    [+], every other character is percent-encoded from its UTF-8 bytes. *)
Definition always_safe (c : ascii) : bool :=
  is_letter c || is_digit c
  || chr_eqb c "_" || chr_eqb c "." || chr_eqb c "-" || chr_eqb c "~".

Definition hex_digit (n : N) : ascii :=
  nth (N.to_nat n) (lit "0123456789ABCDEF") "0".

Definition pct_byte (b : N) : str :=
  ["%"; hex_digit (b / 16); hex_digit (b mod 16)].

Definition utf8 (c : ascii) : list N :=
  if (code c <? 128)%N then [code c]
  else [(192 + code c / 64)%N; (128 + code c mod 64)%N].

Definition quote_plus_chr (c : ascii) : str :=
  if always_safe c then [c]
  else if chr_eqb c " " then ["+"]
  else flat_map pct_byte (utf8 c).

Definition quote_plus (s : str) : str := flat_map quote_plus_chr s.

(** [r",\s*([^,]+),\s*([A-Z]{2})(?:,\s*\d{5})?$"] with [re.I] *)
Definition CITY_STATE_RE : regex :=
  Seq (Chr ",")
  (Seq (Star true ws)
  (Seq (Grp 1 (Plus (Cls (fun c => negb (chr_eqb c ",")))))
  (Seq (Chr ",")
  (Seq (Star true ws)
  (Seq (Grp 2 (Rep 2 (Cls is_letter)))
  (Seq (Opt (Seq (Chr ",") (Seq (Star true ws) (Rep 5 digit))))
       Eos)))))).

Definition to_city_state_slug (addr : pyval) : option str :=
  match addr with
  | PyStr a =>
      match search CITY_STATE_RE (py_strip a) with
      | None => None
      | Some (_, caps, _) =>
          let city := sub (Plus ws) (lit "-") (py_strip (or_empty (group 1 caps))) in
          let st := py_upper (or_empty (group 2 caps)) in
          Some (city ++ lit "-" ++ st)
      end
  | _ => None
  end.

(** [r"[^A-Za-z\- ]"] *)
Definition NOT_NAME_CHR : regex :=
  Cls (fun c => negb (is_letter c || chr_eqb c "-" || chr_eqb c " ")).

Definition name_token (x : option str) : str :=
  replace_chr " " (lit "-") (py_strip (sub NOT_NAME_CHR [] (or_empty x))).

Definition BASE_URL : str := lit "https://www.fastpeoplesearch.com/name/".

Definition build_fps_url (first last : option str) (address zip_code : pyval)
    : str :=
  let fn := name_token first in
  let ln := name_token last in
  let where0 : option str := None in
  let where1 :=
    match zip_code with
    | PyStr z =>
        if truthy (py_strip z) then Some (slice_to 5 (py_strip z)) else where0
    | _ => where0
    end in
  let where2 :=
    if negb (truthy (or_empty where1))
    then to_city_state_slug (py_or address (PyStr []))
    else where1 in
  BASE_URL ++ quote_plus fn ++ lit "-" ++ quote_plus ln ++ lit "_"
    ++ quote_plus (or_empty where2).

End Target.
Export Target.


(** ** Parsed pages

    The tree that [BeautifulSoup(html, "html.parser")] builds, with the
    queries the scrapers run on it.  The parser itself is a library the
    repository only calls: the scrapers below take it as a parameter. *)

Module Dom.

#[local] Set Warnings "-register-all".

Inductive node : Type :=
| Text (s : str)
| Elem (tag : str) (attrs : list (str * str)) (kids : list node).

Definition soup : Type := list node.

Definition tag_of (n : node) : str :=
  match n with
  | Elem t _ _ => t
  | Text _ => []
  end.

Definition kids_of (n : node) : list node :=
  match n with
  | Elem _ _ k => k
  | Text _ => []
  end.

(** [tag.get(key)] *)
Fixpoint lookup_attr (key : str) (attrs : list (str * str)) : option str :=
  match attrs with
  | [] => None
  | (k, v) :: rest => if str_eqb k key then Some v else lookup_attr key rest
  end.

Definition get (key : str) (n : node) : option str :=
  match n with
  | Elem _ a _ => lookup_attr key a
  | Text _ => None
  end.

(** The strings below a node, in document order. *)
Fixpoint all_strings (n : node) : list str :=
  match n with
  | Text s => [s]
  | Elem _ _ k => flat_map all_strings k
  end.

(** The elements at and below a node, in document order. *)
Fixpoint elements_of (n : node) : list node :=
  match n with
  | Text _ => []
  | Elem _ _ k => n :: flat_map elements_of k
  end.

Definition all_elements (s : soup) : list node := flat_map elements_of s.

Definition descendants (n : node) : list node := all_elements (kids_of n).

(** [x.get_text(sep, strip=True)]: the stripped, non-empty strings joined. *)
Definition get_text_strip (sep : str) (s : soup) : str :=
  join sep (List.filter truthy (map py_strip (flat_map all_strings s))).

(** [x.text] *)
Definition text (s : soup) : str := concat (flat_map all_strings s).

Definition node_text_strip (sep : str) (n : node) : str := get_text_strip sep [n].
Definition node_text (n : node) : str := text [n].

(** Tests on one attribute, as CSS attribute selectors and [find_first] filters
    state them. *)
Definition attr_test (key : str) (test : str -> bool) (n : node) : bool :=
  match get key n with
  | Some v => test v
  | None => false
  end.

Definition attr_prefix (key p : str) : node -> bool := attr_test key (starts_with p).
Definition attr_contains (key p : str) : node -> bool := attr_test key (contains p).
Definition attr_is (key v : str) : node -> bool := attr_test key (str_eqb v).
Definition is_tag (t : str) (n : node) : bool := str_eqb (tag_of n) t.

(** Blank-separated tokens of a [class] attribute. *)
Fixpoint tokens_from (cur : str) (s : str) : list str :=
  match s with
  | [] => if truthy cur then [rev cur] else []
  | c :: t =>
      if py_isspace c
      then (if truthy cur then [rev cur] else []) ++ tokens_from [] t
      else tokens_from (c :: cur) t
  end.

Definition has_class (cls : str) (n : node) : bool :=
  attr_test (lit "class") (fun v => existsb (str_eqb cls) (tokens_from [] v)) n.

(** [soup.select(sel)]: the matching elements in document order. *)
Definition select (p : node -> bool) (s : soup) : list node :=
  List.filter p (all_elements s).

(** [soup.select("anc desc")]: elements matching [p] below one matching [anc]. *)
Fixpoint select_under_node (anc p : node -> bool) (inside : bool) (n : node)
    : list node :=
  match n with
  | Text _ => []
  | Elem _ _ k =>
      (if inside && p n then [n] else [])
      ++ flat_map (select_under_node anc p (inside || anc n)) k
  end.

Definition select_under (anc p : node -> bool) (s : soup) : list node :=
  flat_map (select_under_node anc p false) s.

(** [soup.find(...)] *)
Definition find_first (p : node -> bool) (s : soup) : option node :=
  head (select p s).

(** [tag.find_all(...)]: below the tag. *)
Definition find_all_in (p : node -> bool) (n : node) : list node :=
  List.filter p (descendants n).

End Dom.
Export Dom.

(** A parser for the plainest pages: start tags with quoted attributes,
    end tags and text.  On such input it builds the tree that
    [html.parser] builds; it is used to run the scrapers on concrete pages. *)

Module HtmlLite.

Inductive token : Type :=
| TOpen (tag : str) (attrs : list (str * str))
| TClose (tag : str)
| TText (s : str).

Fixpoint span (p : ascii -> bool) (s : str) : str * str :=
  match s with
  | c :: t => if p c then let '(a, b) := span p t in (c :: a, b) else ([], s)
  | [] => ([], [])
  end.

Definition not_chr (x : ascii) (c : ascii) : bool := negb (chr_eqb c x).

(** Attributes [ k="v" k2="v2"] of a start tag. *)
Fixpoint lex_attrs (fuel : nat) (s : str) : list (str * str) :=
  match fuel with
  | 0 => []
  | S f =>
      let s1 := lstrip s in
      let '(k, r) := span (not_chr "=") s1 in
      match r with
      | "=" :: q :: r1 =>
          if chr_eqb q "'" || chr_eqb q "034" then
            let '(v, r2) := span (not_chr q) r1 in
            (py_lower k, v) :: lex_attrs f (tl r2)
          else []
      | _ => []
      end
  end.

Fixpoint lex (fuel : nat) (s : str) : list token :=
  match fuel with
  | 0 => []
  | S f =>
      match s with
      | [] => []
      | "<" :: "/" :: r =>
          let '(name, r1) := span (not_chr ">") r in
          TClose (py_lower name) :: lex f (tl r1)
      | "<" :: r =>
          let '(inside, r1) := span (not_chr ">") r in
          let '(name, rest) := span (fun c => negb (py_isspace c)) inside in
          TOpen (py_lower name) (lex_attrs (length rest) rest) :: lex f (tl r1)
      | _ =>
          let '(txt, r) := span (not_chr "<") s in
          TText txt :: lex f r
      end
  end.

(** Children up to the matching end tag. *)
Fixpoint build (fuel : nat) (ts : list token) : list node * list token :=
  match fuel with
  | 0 => ([], ts)
  | S f =>
      match ts with
      | [] => ([], [])
      | TClose _ :: rest => ([], rest)
      | TText s :: rest =>
          let '(sibs, rest') := build f rest in (Text s :: sibs, rest')
      | TOpen t a :: rest =>
          let '(kids, rest1) := build f rest in
          let '(sibs, rest2) := build f rest1 in
          (Elem t a kids :: sibs, rest2)
      end
  end.

Definition parse (html : str) : soup :=
  let ts := lex (S (length html)) html in
  fst (build (S (length ts)) ts).

End HtmlLite.

(** ** Gate classification (identical in both scrapers) *)

Module Gate.

Definition _CF_SIGNAL_STRINGS : list str :=
  map lit
    [ "checking your browser"; "please wait while we check your browser";
      "verifying you are human"; "just a moment";
      "cloudflare"; "cf-challenge"; "turnstile"; "captcha" ]%string.

(** [any(s in h for s in xs)] *)
Definition any_in (xs : list str) (h : str) : bool :=
  existsb (fun s => contains s h) xs.

(** [html] is a page source; the source reads [None] as the empty string. *)
Definition is_cloudflare_challenge (html : str) : bool :=
  let h := py_lower html in
  any_in _CF_SIGNAL_STRINGS h.

End Gate.
Export Gate.

(** ** Phone and e-mail helpers of [fps_scraper_edge.py] *)

Module Fields.

(** The separator class of [PHONE_RE]: [\s], [-], [.] and the four dashes
    U+2011..U+2014, which lie outside the modelled alphabet. *)
Definition phone_sep (c : ascii) : bool :=
  py_isspace c || chr_eqb c "-" || chr_eqb c ".".

(** [PHONE_RE] *)
Definition PHONE_RE : regex :=
  Seq (Opt (Seq (Chr "+") (Seq (Chr "1") (Opt (Cls phone_sep)))))
  (Seq (Seq (Opt (Chr "("))
       (Seq (Rep 3 digit) (Seq (Opt (Chr ")")) (Opt (Cls phone_sep)))))
  (Seq (Rep 3 digit)
  (Seq (Opt (Cls phone_sep))
       (Rep 4 digit)))).

Definition email_local (c : ascii) : bool :=
  is_letter c || is_digit c || chr_eqb c "." || chr_eqb c "_"
  || chr_eqb c "%" || chr_eqb c "+" || chr_eqb c "-".

Definition email_domain (c : ascii) : bool :=
  is_letter c || is_digit c || chr_eqb c "." || chr_eqb c "-".

(** [EMAIL_RE], compiled with [re.I] *)
Definition EMAIL_RE : regex :=
  Seq (Plus (Cls email_local))
  (Seq (Chr "@")
  (Seq (Plus (Cls email_domain))
  (Seq (Chr ".")
  (Seq (Cls is_letter) (Seq (Cls is_letter) (Star true (Cls is_letter))))))).

(** [s[a:b]] *)
Definition slice (a b : nat) (s : str) : str := firstn (b - a) (skipn a s).

Definition _normalize_phone (raw : str) : str :=
  let digits := sub (Cls (fun c => negb (is_digit c))) [] raw in
  let digits :=
    if Nat.eqb (length digits) 11 && starts_with (lit "1") digits
    then skipn 1 digits else digits in
  if Nat.eqb (length digits) 10
  then lit "(" ++ slice 0 3 digits ++ lit ") " ++ slice 3 6 digits
       ++ lit "-" ++ slice 6 10 digits
  else py_strip raw.

(** [int(s, 16)] on the chunks of at most two characters that
    [decode_cf_email] cuts: blanks around, an optional sign, hex digits. *)
Definition int_space (c : ascii) : bool :=
  in_range 9 13 c || (code c =? 32)%N || (code c =? 133)%N || (code c =? 160)%N.

Definition hex_value (c : ascii) : Z :=
  if is_digit c then Z.of_N (code c) - 48
  else if in_range 65 70 c then Z.of_N (code c) - 55
  else Z.of_N (code c) - 87.

Definition hex_number (s : str) : option Z :=
  if truthy s && forallb is_hex s
  then Some (fold_left (fun acc c => acc * 16 + hex_value c) s 0)%Z
  else None.

Definition int16 (s : str) : option Z :=
  let body := List.filter (fun c => negb (int_space c)) s in
  match body with
  | "+" :: d => hex_number d
  | "-" :: d => option_map Z.opp (hex_number d)
  | _ => hex_number body
  end.

(** [chr(v)]; a negative [v] raises [ValueError]. *)
Definition py_chr (v : Z) : option ascii :=
  if (0 <=? v)%Z && (v <? 256)%Z then Some (ascii_of_N (Z.to_N v)) else None.

(** The two-character chunks [cf_hex[i:i+2]] for [i] in [range(2, len, 2)]. *)
Fixpoint chunks2 (s : str) : list str :=
  match s with
  | a :: b :: t => [a; b] :: chunks2 t
  | [a] => [[a]]
  | [] => []
  end.

Fixpoint decode_chunks (key : Z) (cs : list str) : option str :=
  match cs with
  | [] => Some []
  | c :: rest =>
      match int16 c with
      | None => None
      | Some v =>
          match py_chr (Z.lxor v key) with
          | None => None
          | Some ch =>
              match decode_chunks key rest with
              | None => None
              | Some out => Some (ch :: out)
              end
          end
      end
  end.

(** Every exception inside is caught and turned into [None]. *)
Definition decode_cf_email (cf_hex : str) : option str :=
  match int16 (slice_to 2 cf_hex) with
  | None => None
  | Some key => decode_chunks key (chunks2 (skipn 2 cf_hex))
  end.

(** The loop of [_dedupe_preserve_order]: [seen] is the set, [out] the list. *)
Definition dedupe_step (st : gset str * list str) (it : str)
    : gset str * list str :=
  let '(seen, out) := st in
  let it := py_strip it in
  if truthy it && negb (bool_decide (it ∈ seen))
  then (seen ∪ {[ it ]}, out ++ [it])
  else (seen, out).

Definition _dedupe_preserve_order (items : list str) : list str :=
  snd (fold_left dedupe_step items (∅, [])).

End Fields.
Export Fields.

(** ** The result of a detail-page extraction (the dict [data]) *)

Record detail_data : Type := {
  home_address : option str;
  phones : list str;
  age : option str;
  relatives : list str;
  emails : list str;
  marital_status : option str;
  associates : list str;
  previous_addresses : list str;
  current_address_details : option str;
  background_report : option str;
  faqs : option str;
  page_url : str
}.

Definition empty_data (current_url : str) : detail_data :=
  {| home_address := None; phones := []; age := None; relatives := [];
     emails := []; marital_status := None; associates := [];
     previous_addresses := []; current_address_details := None;
     background_report := None; faqs := None; page_url := current_url |}.

(** [x or None] for a string. *)
Definition or_none (s : str) : option str := if truthy s then Some s else None.

(** ** Detail pages in [fps_scraper_edge.py] *)

Module Edge.

Definition looks_blocked (html : str) : bool :=
  let html := py_lower html in
  let triggers :=
    map lit
      [ "access denied"; "unusual traffic"; "are you a human";
        "verify you are human"; "security check"; "please enable cookies" ]%string in
  any_in triggers html || is_cloudflare_challenge html.

(** [a[href^='tel:'], a[href*='/phone/']] *)
Definition phone_link (n : node) : bool :=
  is_tag (lit "a") n
  && (attr_prefix (lit "href") (lit "tel:") n
      || attr_contains (lit "href") (lit "/phone/") n).

(** [a[href*='/address/']] *)
Definition address_link (n : node) : bool :=
  is_tag (lit "a") n && attr_contains (lit "href") (lit "/address/") n.

(** [a[href*='/name/'], a[href*='/person/'], a[href*='/people/']] *)
Definition person_link (n : node) : bool :=
  is_tag (lit "a") n
  && (attr_contains (lit "href") (lit "/name/") n
      || attr_contains (lit "href") (lit "/person/") n
      || attr_contains (lit "href") (lit "/people/") n).

(** [a.__cf_email__] and [a[href^='mailto:']] *)
Definition cf_email_link (n : node) : bool :=
  is_tag (lit "a") n && has_class (lit "__cf_email__") n.

Definition mailto_link (n : node) : bool :=
  is_tag (lit "a") n && attr_prefix (lit "href") (lit "mailto:") n.

Definition digits_1_3 : regex := Seq digit (Opt (Seq digit (Opt digit))).

(** [r'age\s*:?\s*\d{1,3}'] *)
Definition AGE_SIGNAL_RE : regex :=
  Seq (Lit (lit "age"))
  (Seq (Star true ws) (Seq (Opt (Chr ":")) (Seq (Star true ws) digits_1_3))).

(** [r'\bage\s*:?\s*(\d{1,3})\b'] with [re.I] *)
Definition AGE_RE : regex :=
  Seq Wordb
  (Seq (LitI (lit "age"))
  (Seq (Star true ws) (Seq (Opt (Chr ":")) (Seq (Star true ws)
  (Seq (Grp 1 digits_1_3) Wordb))))).

(** [r'current address\s*:?\s*(.+?)(?:\s{2,}|$)'] with [re.I] *)
Definition CURRENT_ADDRESS_RE : regex :=
  Seq (LitI (lit "current address"))
  (Seq (Star true ws) (Seq (Opt (Chr ":")) (Seq (Star true ws)
  (Seq (Grp 1 (PlusLazy AnyNoNl))
       (Alt (Seq ws (Seq ws (Star true ws))) Eos))))).

(** [rf'({label}.*?)\s{{5,}}'] with [re.I | re.S] *)
Definition BACKGROUND_RE (label : str) : regex :=
  Seq (Grp 1 (Seq (LitI label) (Star false AnyChr)))
      (Seq (Rep 5 ws) (Star true ws)).

(** [r'(faq[s]?:?.+)$'] with [re.I | re.S] *)
Definition FAQ_RE : regex :=
  Seq (Grp 1 (Seq (LitI (lit "faq"))
             (Seq (Opt (ChrI "s")) (Seq (Opt (Chr ":")) (Plus AnyChr)))))
      Eos.

(** [m.group(1)] of [re.search(r, s)], if it matches. *)
Definition search_group1 (r : regex) (s : str) : option str :=
  match search r s with
  | Some (_, caps, _) => Some (or_empty (group 1 caps))
  | None => None
  end.

(** [a.get_text(" ", strip=True) or a.get("href") or ""] *)
Definition link_text_or_href (a : node) : str :=
  let t := node_text_strip (lit " ") a in
  if truthy t then t
  else match get (lit "href") a with
       | Some h => if truthy h then h else []
       | None => []
       end.

(** [href.split(":", 1)[1]] for an [href] that holds a colon. *)
Fixpoint after_colon (s : str) : str :=
  match s with
  | [] => []
  | c :: t => if chr_eqb c ":" then t else after_colon t
  end.

Definition is_heading (n : node) : bool :=
  existsb (fun t => is_tag (lit t) n) ["h1"; "h2"; "h3"; "h4"; "h5"; "h6"]%string.

Definition is_container (n : node) : bool :=
  existsb (fun t => is_tag (lit t) n) ["div"; "section"; "ul"; "ol"]%string.

(** The names inside one container of [_extract_names_by_heading]. *)
Definition names_in (container : node) : list str :=
  flat_map (fun a =>
      let nm := node_text_strip (lit " ") a in
      if truthy nm && negb (contains (lit "detail") (py_lower nm))
      then [nm] else [])
    (List.filter person_link (descendants container)).

(** The loop over the headings: [following] is the rest of the document
    after the heading, which is where [h.find_next] looks. *)
Fixpoint names_after_headings (keywords : list str) (doc : list node)
    : list str :=
  match doc with
  | [] => []
  | h :: following =>
      (if is_heading h
          && any_in keywords (py_lower (node_text_strip (lit " ") h))
       then match List.find is_container following with
            | Some container => names_in container
            | None => []
            end
       else [])
      ++ names_after_headings keywords following
  end.

Section WithParser.

(** [BeautifulSoup(html, "html.parser")] *)
Variable html_parser : str -> soup.

Definition is_detail_page_html (html : str) : bool :=
  if negb (truthy html) then false
  else if is_cloudflare_challenge html || looks_blocked html then false
  else
    let soup := html_parser html in
    let body_text := py_lower (get_text_strip (lit " ") soup) in
    let signals := 0 in
    let signals :=
      if truthy (select phone_link soup) || found PHONE_RE body_text
      then signals + 1 else signals in
    let signals :=
      if truthy (select address_link soup)
         || contains (lit "current address") body_text
         || contains (lit "address history") body_text
      then signals + 1 else signals in
    let signals :=
      if found AGE_SIGNAL_RE body_text then signals + 1 else signals in
    let signals :=
      if any_in (map lit ["possible relatives"; "relatives";
                          "associated people"; "associates"]%string) body_text
      then signals + 1 else signals in
    Nat.leb 1 signals.

Definition _extract_names_by_heading (soup : soup) (keywords : list str)
    : list str :=
  _dedupe_preserve_order (names_after_headings keywords (all_elements soup)).

Definition _parse_detail_page_html_to_data (html current_url : str)
    : detail_data :=
  if negb (truthy html) then empty_data current_url
  else
    let soup := html_parser html in
    let body_text := get_text_strip (lit " ") soup in
    (* Address *)
    let home0 :=
      match find_first address_link soup with
      | Some addr_el => or_none (node_text_strip (lit " ") addr_el)
      | None => None
      end in
    let home :=
      match home0 with
      | Some a => Some a
      | None =>
          match search_group1 CURRENT_ADDRESS_RE body_text with
          | Some g => Some (py_strip g)
          | None => None
          end
      end in
    (* Phones *)
    let phones0 :=
      flat_map (fun a => findall PHONE_RE (link_text_or_href a))
               (select phone_link soup) in
    let phones1 :=
      if negb (truthy phones0) then phones0 ++ findall PHONE_RE body_text
      else phones0 in
    let phones2 := map _normalize_phone phones1 in
    (* Age *)
    let age_v := search_group1 AGE_RE body_text in
    (* Emails *)
    let emails0 :=
      flat_map (fun cf =>
          match get (lit "data-cfemail") cf with
          | Some cf_hex =>
              if truthy cf_hex
              then match decode_cf_email cf_hex with
                   | Some dec => if truthy dec then [dec] else []
                   | None => []
                   end
              else []
          | None => []
          end) (select cf_email_link soup) in
    let emails1 :=
      emails0 ++
      flat_map (fun a =>
          let href := or_empty (get (lit "href") a) in
          if starts_with (lit "mailto:") (py_lower href)
          then [after_colon href] else [])
        (select mailto_link soup) in
    let emails2 :=
      if negb (truthy emails1) then emails1 ++ findall EMAIL_RE body_text
      else emails1 in
    (* Previous addresses *)
    let addr_links :=
      _dedupe_preserve_order
        (map (node_text_strip (lit " ")) (select address_link soup)) in
    (* Background / FAQs *)
    let background :=
      match search_group1 (BACKGROUND_RE (lit "background report")) body_text with
      | Some g => Some (py_strip g)
      | None =>
          match search_group1 (BACKGROUND_RE (lit "background check")) body_text with
          | Some g => Some (py_strip g)
          | None => None
          end
      end in
    {| home_address := home;
       phones := firstn 5 (_dedupe_preserve_order phones2);
       age := age_v;
       relatives :=
         _extract_names_by_heading soup
           (map lit ["possible relatives"; "relatives"]%string);
       emails := _dedupe_preserve_order emails2;
       marital_status := None;
       associates :=
         _extract_names_by_heading soup
           (map lit ["associated people"; "associates"]%string);
       previous_addresses := skipn 1 addr_links;
       current_address_details := None;
       background_report := background;
       faqs := option_map py_strip (search_group1 FAQ_RE body_text);
       page_url := current_url |}.

End WithParser.

End Edge.

(** ** Detail pages in [fps_scraper_chrome.py] *)

Module Chrome.

Definition DETAIL_MIN_SIGNALS : nat := 2.

Definition looks_blocked (html : str) : bool :=
  let html := py_lower html in
  let triggers :=
    map lit
      [ "access denied"; "unusual traffic"; "are you a human";
        "verify you are human"; "security check"; "just a moment";
        "please enable cookies" ]%string in
  any_in triggers html || is_cloudflare_challenge html.

Definition has_id (v : str) (n : node) : bool := attr_is (lit "id") v n.

(** [title=lambda x: x and s in x] on an [a] element *)
Definition a_title_has (s : str) (n : node) : bool :=
  is_tag (lit "a") n
  && attr_test (lit "title") (fun x => truthy x && contains s x) n.

(** [a[title*='...']] *)
Definition a_title_sel (s : str) (n : node) : bool :=
  is_tag (lit "a") n && attr_contains (lit "title") s n.

(** [r"(\d{1,3})"] *)
Definition DIGITS_RE : regex := Grp 1 (Seq digit (Opt (Seq digit (Opt digit)))).

Definition search_group1 (r : regex) (s : str) : option str :=
  match search r s with
  | Some (_, caps, _) => Some (or_empty (group 1 caps))
  | None => None
  end.

Section WithParser.

Variable html_parser : str -> soup.

Definition is_detail_page_html (html : str) : bool :=
  if negb (truthy html) then false
  else
    let soup := html_parser html in
    let signals := 0 in
    let signals :=
      match find_first (has_id (lit "age-header")) soup with
      | Some _ => signals + 1
      | None => signals
      end in
    let signals :=
      if truthy (select_under (has_id (lit "relative-links"))
                              (a_title_sel (lit "Details for")) soup
                 ++ select_under (has_id (lit "associate-links"))
                                 (a_title_sel (lit "Details for")) soup)
      then signals + 1 else signals in
    let signals :=
      if truthy (select (a_title_sel (lit "phone number")) soup)
      then signals + 1 else signals in
    let signals :=
      if truthy (select (a_title_sel (lit "Search people living at")) soup)
      then signals + 1 else signals in
    let signals :=
      match find_first (has_id (lit "background-report")) soup,
            find_first (has_id (lit "faqs")) soup with
      | None, None => signals
      | _, _ => signals + 1
      end in
    Nat.leb DETAIL_MIN_SIGNALS signals.

(** [soup.find("div", id=v)] *)
Definition find_div (v : str) (s : soup) : option node :=
  find_first (fun n => is_tag (lit "div") n && has_id v n) s.

(** [[a.text.strip() for a in box.find_all("a", title=...)]] for an
    optional box. *)
Definition link_texts_in (box : option node) (title : str) : list str :=
  match box with
  | Some b => map (fun a => py_strip (node_text a)) (find_all_in (a_title_has title) b)
  | None => []
  end.

Definition _parse_detail_page_html_to_data (html current_url : str)
    : detail_data :=
  if negb (truthy html) then empty_data current_url
  else
    let soup := html_parser html in
    let phone_elements :=
      select (a_title_has (lit "Search people associated with the phone number")) soup in
    {| home_address :=
         option_map (fun a => py_strip (node_text a))
           (find_first (a_title_has (lit "Search people living at")) soup);
       phones := map (fun phone => py_strip (node_text phone)) (firstn 5 phone_elements);
       age :=
         match find_first (fun n => is_tag (lit "h2") n && has_id (lit "age-header") n) soup with
         | Some age_element =>
             search_group1 DIGITS_RE (node_text_strip (lit " ") age_element)
         | None => None
         end;
       relatives := link_texts_in (find_div (lit "relative-links") soup) (lit "Details for");
       emails :=
         flat_map (fun e =>
             let t := node_text_strip [] e in
             if truthy t then [t] else [])
           (select (fun n => is_tag (lit "a") n && has_class (lit "__cf_email__") n) soup);
       marital_status :=
         match find_div (lit "marital_status_section") soup with
         | Some sec =>
             option_map (node_text_strip (lit " "))
               (head (find_all_in (is_tag (lit "p")) sec))
         | None => None
         end;
       associates := link_texts_in (find_div (lit "associate-links") soup) (lit "Details for");
       previous_addresses :=
         link_texts_in (find_div (lit "previous-addresses") soup)
                       (lit "Search people who live at");
       current_address_details :=
         option_map (node_text_strip (lit " "))
           (find_div (lit "current-address-details") soup);
       background_report :=
         option_map (node_text_strip (lit " "))
           (find_div (lit "background-report") soup);
       faqs := option_map (node_text_strip ["010"]) (find_div (lit "faqs") soup);
       page_url := current_url |}.

(** The browser as [scrape_current_page] sees it: the page source, the
    current URL and the reaction to a click on a cookie banner. *)
Variable browser : Type.
Variable page_source : browser -> str.
Variable current_url : browser -> option str.
Variable _click_cookie_banner_if_any : browser -> browser.

Definition scrape_current_page (driver : browser)
    : (option detail_data * option str) * browser :=
  let html := page_source driver in
  if is_cloudflare_challenge html
  then ((None, Some (lit "Cloudflare challenge still visible")), driver)
  else if looks_blocked html
  then ((None, Some (lit "Blocked / access denied page")), driver)
  else if negb (is_detail_page_html html)
  then ((None, Some (lit "Not on a recognizable detail page (URL: "
                      ++ or_empty (current_url driver) ++ lit ")")), driver)
  else
    let driver := _click_cookie_banner_if_any driver in
    let html := page_source driver in
    let data := _parse_detail_page_html_to_data html (or_empty (current_url driver)) in
    ((Some data, None), driver).

End WithParser.

End Chrome.

(** ** Results pages: candidate links and their ranking *)

Module Candidates.

(** A Selenium [WebElement] as the scrapers read it. *)
Record web_element : Type := {
  we_text : str;                 (* e.text *)
  we_href : option str;          (* e.get_attribute("href") *)
  we_data_href : option str;     (* e.get_attribute("data-href") *)
  we_id : nat                    (* id(e) *)
}.

(** [a or b or ""] on attribute values. *)
Definition attr_or (a b : option str) : str :=
  if truthy (or_empty a) then or_empty a
  else if truthy (or_empty b) then or_empty b
  else [].

(** [str(n)] *)
Definition str_of_nat (n : nat) : str :=
  list_ascii_of_string (NilZero.string_of_uint (Nat.to_uint n)).

Definition _normalize_name (s : str) : str :=
  let s := py_lower s in
  let s := sub (Cls (fun c => negb (is_lower_az c || py_isspace c))) (lit " ") s in
  let s := sub (Plus ws) (lit " ") s in
  py_strip s.

(** [sorted(xs, key=key, reverse=True)]: a stable sort, largest key first;
    elements with equal keys keep their order. *)
Fixpoint insert_desc {A : Type} (key : A -> nat) (x : A) (l : list A) : list A :=
  match l with
  | [] => [x]
  | y :: t => if key x <? key y then y :: insert_desc key x t else x :: y :: t
  end.

Definition sorted_desc {A : Type} (key : A -> nat) (l : list A) : list A :=
  fold_right (insert_desc key) [] l.

(** The de-duplication loop shared by both [_candidate_detail_links]. *)
Definition uniq_step {K : Type} `{Countable K} (key : web_element -> K)
    (st : gset K * list web_element) (e : web_element)
    : gset K * list web_element :=
  let '(seen, uniq) := st in
  if bool_decide (key e ∈ seen) then (seen, uniq)
  else (seen ∪ {[ key e ]}, uniq ++ [e]).

Definition uniq_by {K : Type} `{Countable K} (key : web_element -> K)
    (elems : list web_element) : list web_element :=
  snd (fold_left (uniq_step key) elems (∅, [])).

(** [elems]: what the successive [driver.find_elements] calls return; a call
    that raises contributes nothing. *)
Definition collect (found : list (option (list web_element))) : list web_element :=
  flat_map (fun r => match r with Some l => l | None => [] end) found.

Definition with_base (href : str) : str :=
  if starts_with (lit "/") href
  then lit "https://www.fastpeoplesearch.com" ++ href else href.

Module Edge.

Definition href_of (e : web_element) : str :=
  py_strip (attr_or (we_href e) (we_data_href e)).

Definition link_key (e : web_element) : str :=
  let href := href_of e in
  if truthy href then href
  else py_strip (we_text e) ++ lit "_" ++ str_of_nat (we_id e).

Definition _candidate_detail_links (found : list (option (list web_element)))
    : list web_element :=
  uniq_by link_key (collect found).

Definition _score_anchor_for_name (a : web_element) (first last : str) : nat :=
  let txt := _normalize_name (we_text a) in
  let href := _normalize_name (attr_or (we_href a) (we_data_href a)) in
  let score := 0 in
  let score :=
    if contains first txt && contains last txt then score + 2
    else if contains first txt || contains last txt then score + 1
    else score in
  let score :=
    if contains first href && contains last href then score + 1 else score in
  score.

(** [scored[0][0]] in [_open_best_result] *)
Definition best_of (cands : list web_element) (first last : str)
    : option web_element :=
  let nf := _normalize_name first in
  let nl := _normalize_name last in
  let scored :=
    sorted_desc snd (map (fun a => (a, _score_anchor_for_name a nf nl)) cands) in
  option_map fst (head scored).

(** What [_open_best_result] asks of the browser. *)
Inductive navigation : Type :=
| Goto (href : str)              (* driver.get(href) *)
| Click (e : web_element)        (* _safe_click(driver, best) *)
| Stay.                          (* no candidate *)

Definition navigation_of (cands : list web_element) (first last : str)
    : navigation :=
  match best_of cands first last with
  | None => Stay
  | Some best =>
      let href := href_of best in
      if truthy href then Goto (with_base href) else Click best
  end.

End Edge.

Module Chrome.

Definition link_key (e : web_element) : str + nat :=
  let href := py_strip (or_empty (we_href e)) in
  if truthy href then inl href else inr (we_id e).

Definition _candidate_detail_links (found : list (option (list web_element)))
    : list web_element :=
  uniq_by link_key (collect found).

Definition _score_anchor_for_name (a : web_element) (first last : str) : nat :=
  let txt := _normalize_name (we_text a) in
  let href := _normalize_name (or_empty (we_href a)) in
  let score := 0 in
  let score :=
    if contains first txt && contains last txt then score + 2
    else if contains first txt || contains last txt then score + 1
    else score in
  let score :=
    if contains first href && contains last href then score + 1 else score in
  score.

Definition best_of (cands : list web_element) (first last : str)
    : option web_element :=
  let nf := _normalize_name first in
  let nl := _normalize_name last in
  let scored :=
    sorted_desc snd (map (fun a => (a, _score_anchor_for_name a nf nl)) cands) in
  option_map fst (head scored).

Definition _get_best_result_href (cands : list web_element) (first last : str)
    : option str :=
  match best_of cands first last with
  | None => None
  | Some best =>
      let href := py_strip (or_empty (we_href best)) in
      if negb (truthy href) then None else Some (with_base href)
  end.

End Chrome.

End Candidates.

(** ** The checkpoint file: [save_atomic]

    A file system maps a path to the bytes of the file.  [df.to_csv(tmp)]
    creates the file and then writes the text piece by piece; a crash can
    stop it after any piece.  [os.replace] is one step. *)

Module Checkpoint.

Definition filesystem : Type := gmap str str.

Inductive fs_op : Type :=
| Create (p : str)                (* open for writing: an empty file *)
| Append (p : str) (piece : str)  (* one write *)
| Replace (src dst : str).        (* os.replace(src, dst) *)

Definition apply_op (fs : filesystem) (op : fs_op) : filesystem :=
  match op with
  | Create p => <[ p := [] ]> fs
  | Append p piece =>
      match fs !! p with
      | Some old => <[ p := old ++ piece ]> fs
      | None => <[ p := piece ]> fs
      end
  | Replace src dst =>
      match fs !! src with
      | Some content => <[ dst := content ]> (delete src fs)
      | None => fs
      end
  end.

Definition run_ops (fs : filesystem) (ops : list fs_op) : filesystem :=
  fold_left apply_op ops fs.

(** Writing [text] to [p], one character per write: every coarser
    chunking passes through a subset of these states. *)
Definition write_file_ops (p : str) (text : str) : list fs_op :=
  Create p :: map (fun c => Append p [c]) text.

(** [save_atomic(df, path)], with [csv] the text of [df.to_csv]. *)
Definition save_atomic_ops (csv : str) (path : str) : list fs_op :=
  let tmp := path ++ lit ".tmp" in
  write_file_ops tmp csv ++ [Replace tmp path].

Definition save_atomic (csv : str) (path : str) (fs : filesystem) : filesystem :=
  run_ops fs (save_atomic_ops csv path).

(** The file systems a crash during [save_atomic] can leave behind. *)
Definition crash_states (csv : str) (path : str) (fs : filesystem)
    : list filesystem :=
  map (fun k => run_ops fs (firstn k (save_atomic_ops csv path)))
      (seq 0 (S (length (save_atomic_ops csv path)))).

(** An operation that writes into [p] and touches no other file. *)
Definition writes_only (p : str) (op : fs_op) : Prop :=
  op = Create p \/ exists piece, op = Append p piece.

End Checkpoint.
Export Checkpoint.

(** ** The per-record flows and [main] of [fps_scraper_edge.py] *)

Module Batch.

Import Candidates.

Definition RESULTS_SAVE_EVERY : nat := 10.
Definition CF_MANUAL_GATE_TIMEOUT : nat := 240.
Definition MAX_GATES_BEFORE_MANUAL : nat := 3.

Inductive nav_mode : Type := NavAuto | NavManual.
Definition NAV_MODE : nav_mode := NavAuto.

Inductive exn : Type :=
| TimeoutException (msg : str)
| WebDriverException (msg : str).

(** One row of the input table, after the conversions at the top of the
    loop body: [str(row.get("First Name", ""))], [str(row.get("Last Name", ""))],
    the ZIP cell as [zip_code] and the first address column found. *)
Record input_row : Type := {
  row_first : str;
  row_last : str;
  row_zip : pyval;
  row_address : pyval
}.

(** [output_df]: the cell at (row index, column name). *)
Definition table : Type := gmap (nat * str) (option str).

Inductive event : Type :=
| SkippedInvalidName (idx : nat)
| SkippedComposite (idx : nat)
| AutoReturned (idx : nat) (gate_counter : nat) (need_manual : bool)
| ManualCalled (idx : nat)
| RecordError (idx : nat) (e : exn)
| PeriodicSave (idx : nat)
| FinalSave.

Definition looks_like_composite_name (s : str) : bool :=
  let s := py_lower s in
  any_in (map lit [" & "; " and "; " revocable trust"; " trust of ";
                   " trustees"; " survivors"; " llc"; " inc"]%string) s.

(** [r"[^a-zA-Z\s-]"] *)
Definition NOT_NAME_CELL_CHR : regex :=
  Cls (fun c => negb (is_letter c || py_isspace c || chr_eqb c "-")).

Definition clean_name (cell : str) : str :=
  py_strip (sub NOT_NAME_CELL_CHR [] cell).

(** [", ".join(xs) if xs else None] *)
Definition joined (xs : list str) : option str :=
  if truthy xs then Some (join (lit ", ") xs) else None.

(** [x or y] on optional strings. *)
Definition opt_or (x y : option str) : option str :=
  if truthy (or_empty x) then x else y.

Fixpoint set_phones (idx : nat) (i : nat) (ps : list str) (df : table) : table :=
  match ps with
  | [] => df
  | phone :: rest =>
      set_phones idx (S i) rest
        (<[ (idx, lit "Phone" ++ str_of_nat (S i)) := Some phone ]> df)
  end.

(** The block [if data: ...] of [main], given that the column
    "Full Address" exists (the loop creates it before the first record). *)
Definition merge_data (idx : nat) (data : detail_data) (df : table) : table :=
  let df := if truthy (phones data)
            then set_phones idx 0 (firstn 5 (phones data)) df else df in
  let addr := opt_or (home_address data) (current_address_details data) in
  let df := <[ (idx, lit "Age") := age data ]> df in
  let df := <[ (idx, lit "Relatives") := joined (relatives data) ]> df in
  let df := <[ (idx, lit "Emails") := joined (emails data) ]> df in
  let df := <[ (idx, lit "Associates") := joined (associates data) ]> df in
  let df := <[ (idx, lit "Previous Addresses") := joined (previous_addresses data) ]> df in
  let df := <[ (idx, lit "Full Address") := addr ]> df in
  let df := <[ (idx, lit "Current Address Details") := addr ]> df in
  let df := <[ (idx, lit "Background Report Summary") := background_report data ]> df in
  let df := <[ (idx, lit "FAQs") := faqs data ]> df in
  <[ (idx, lit "Page URL") := Some (page_url data) ]> df.

Section Session.

(** The browser behind the Selenium driver, the operator at the console
    and the clock are the environment of the run. *)
Variable browser : Type.
Variable html_parser : str -> soup.

Record driver_ops : Type := {
  drv_get : str -> browser -> option exn * browser;   (* driver.get(url) *)
  drv_page_source : browser -> str;
  drv_current_url : browser -> option str;
  (* the condition polled by wait_for_normal_content *)
  drv_normal_content : browser -> bool;
  (* the condition polled for the results DOM in do_record_auto *)
  drv_results_dom : browser -> bool;
  (* driver.find_elements for the n-th XPath; None when it raises *)
  drv_find_elements : nat -> browser -> option (list web_element);
  drv_safe_click : web_element -> browser -> bool * browser;
  drv_pause : browser -> browser;                     (* time passes *)
  drv_scroll : browser -> browser;                    (* _scroll_to_bottom *)
  drv_cookie_banner : browser -> browser;             (* _click_cookie_banner_if_any *)
  drv_expand : browser -> browser;                    (* _expand_detail_sections *)
  drv_input : browser -> str * browser;               (* input() *)
  (* how many further polls a wait of [t] seconds makes *)
  clk_polls : nat -> nat;
  (* how often the loop [while time.time() < end] of the gate runs *)
  clk_gate_rounds : nat -> nat;
  (* how many failed scrapes the manual loop sees before its time is up *)
  clk_manual_rounds : nat;
  (* the text of df.to_csv *)
  csv_of : table -> str
}.

Variable ops : driver_ops.

(** Computations on the browser that may raise. *)
Definition M (A : Type) : Type := browser -> (exn + A) * browser.

Definition ret {A : Type} (a : A) : M A := fun b => (inr a, b).

Definition raise {A : Type} (e : exn) : M A := fun b => (inl e, b).

Definition bind {A C : Type} (m : M A) (k : A -> M C) : M C :=
  fun b =>
    match m b with
    | (inr a, b') => k a b'
    | (inl e, b') => (inl e, b')
    end.

Definition effect (f : browser -> browser) : M unit := fun b => (inr tt, f b).

Definition observe {A : Type} (f : browser -> A) : M A := fun b => (inr (f b), b).

Definition interact {A : Type} (f : browser -> A * browser) : M A :=
  fun b => let '(a, b') := f b in (inr a, b').

Notation "'do' x <- m ; k" := (bind m (fun x => k))
  (at level 10, x name, m at level 100, k at level 200).
Notation "'run' m ; k" := (bind m (fun _ => k))
  (at level 10, m at level 100, k at level 200).

(** [WebDriverWait(driver, t).until(cond)]: [true] when the condition came
    true, [false] for [TimeoutException]. *)
Fixpoint poll (n : nat) (cond : browser -> bool) (b : browser) : bool * browser :=
  if cond b then (true, b)
  else match n with
       | 0 => (false, b)
       | S k => poll k cond (drv_pause ops b)
       end.

Definition wait_until (t : nat) (cond : browser -> bool) : M bool :=
  interact (poll (clk_polls ops t) cond).

Definition wait_for_normal_content (timeout : nat) : M bool :=
  wait_until timeout (drv_normal_content ops).

Definition driver_get (url : str) : M unit :=
  fun b =>
    match drv_get ops url b with
    | (Some e, b') => (inl e, b')
    | (None, b') => (inr tt, b')
    end.

Fixpoint gate_loop (rounds : nat) : M bool :=
  match rounds with
  | 0 => raise (TimeoutException (lit "Cloudflare check not cleared in time."))
  | S k =>
      run effect (drv_pause ops);
      do ok <- wait_for_normal_content 5;
      if ok then ret true else gate_loop k
  end.

Definition open_with_human_gate (url : str) (first_timeout gate_timeout : nat)
    : M bool :=
  run driver_get url;
  do ok <- wait_for_normal_content first_timeout;
  if ok then ret false
  else
    do html <- observe (drv_page_source ops);
    if is_cloudflare_challenge html
    then gate_loop (clk_gate_rounds ops gate_timeout)
    else
      do ok2 <- wait_for_normal_content first_timeout;
      if negb ok2
      then raise (TimeoutException (lit "Page did not load expected content."))
      else ret false.

Definition _open_best_result (first last : str) : M (option str) :=
  run effect (drv_scroll ops);
  run effect (drv_pause ops);
  do found <- observe (fun b => map (fun xp => drv_find_elements ops xp b) [0; 1; 2]);
  match Edge.navigation_of (Edge._candidate_detail_links found) first last with
  | Edge.Stay => ret None
  | Edge.Goto href => run driver_get href; ret (Some href)
  | Edge.Click best =>
      do clicked <- interact (drv_safe_click ops best);
      if clicked then observe (fun b => Some (or_empty (drv_current_url ops b)))
      else ret None
  end.

Definition scrape_current_page : M (option detail_data * option str) :=
  do detected <- wait_until 30
      (fun b => Edge.is_detail_page_html html_parser (drv_page_source ops b));
  if negb detected
  then
    do cur <- observe (fun b => or_empty (drv_current_url ops b));
    ret (None, Some (lit "Detail content not detected after waiting (URL: "
                     ++ cur ++ lit ")"))
  else
    run effect (drv_cookie_banner ops);
    run effect (drv_expand ops);
    run effect (drv_scroll ops);
    run effect (drv_pause ops);
    do html <- observe (drv_page_source ops);
    if is_cloudflare_challenge html
    then ret (None, Some (lit "Cloudflare challenge still visible"))
    else if Edge.looks_blocked html
    then ret (None, Some (lit "Blocked / access denied page"))
    else
      do cur <- observe (fun b => or_empty (drv_current_url ops b));
      ret (Some (Edge._parse_detail_page_html_to_data html_parser html cur), None).

(** [do_record_auto] returns [(data, gate_counter, flag)]; [flag] is
    [true] for ["need_manual"].  The debug dumps, which only write files
    under [debug/] inside [try ... except: pass], are left out. *)
Definition do_record_auto (first_name last_name : str) (address zip_code : pyval)
    (gate_counter : nat) : M (option detail_data * nat * bool) :=
  let url := build_fps_url (Some first_name) (Some last_name) address zip_code in
  do gate_seen <- open_with_human_gate url 20 CF_MANUAL_GATE_TIMEOUT;
  let gate_counter := gate_counter + (if gate_seen then 1 else 0) in
  do results <- wait_until 15 (drv_results_dom ops);
  if negb results then ret (None, gate_counter, true)
  else
    do opened <- _open_best_result first_name last_name;
    if negb (truthy (or_empty opened)) then ret (None, gate_counter, true)
    else
      run effect (drv_pause ops);
      do scraped <- scrape_current_page;
      match fst scraped with
      | Some data => ret (Some data, gate_counter, false)
      | None => ret (None, gate_counter, true)
      end.

Definition is_skip (line : str) : bool :=
  str_eqb (py_lower (py_strip line)) (lit "skip").

(** The loop [while True] of [do_record_manual]; [rounds] failed scrapes
    fit before [remaining <= 0]. *)
Fixpoint manual_loop (rounds : nat) : M (option detail_data) :=
  do scraped <- scrape_current_page;
  match fst scraped with
  | Some data => ret (Some data)
  | None =>
      match rounds with
      | 0 => ret None
      | S k =>
          do user_input <- interact (drv_input ops);
          if is_skip user_input then ret None else manual_loop k
      end
  end.

Definition do_record_manual (first_name last_name : str) (address zip_code : pyval)
    : M (option detail_data) :=
  do user_input <- interact (drv_input ops);
  if is_skip user_input then ret None
  else manual_loop (clk_manual_rounds ops).

(** The state of [main] while it loops over the rows. *)
Record state : Type := {
  st_browser : browser;
  gate_counter : nat;
  output_df : table;
  st_fs : filesystem;
  st_log : list event
}.

Definition set_browser (b : browser) (s : state) : state :=
  {| st_browser := b; gate_counter := gate_counter s; output_df := output_df s;
     st_fs := st_fs s; st_log := st_log s |}.

Definition set_gate_counter (g : nat) (s : state) : state :=
  {| st_browser := st_browser s; gate_counter := g; output_df := output_df s;
     st_fs := st_fs s; st_log := st_log s |}.

Definition set_output_df (df : table) (s : state) : state :=
  {| st_browser := st_browser s; gate_counter := gate_counter s; output_df := df;
     st_fs := st_fs s; st_log := st_log s |}.

Definition set_fs (fs : filesystem) (s : state) : state :=
  {| st_browser := st_browser s; gate_counter := gate_counter s;
     output_df := output_df s; st_fs := fs; st_log := st_log s |}.

Definition log (e : event) (s : state) : state :=
  {| st_browser := st_browser s; gate_counter := gate_counter s;
     output_df := output_df s; st_fs := st_fs s; st_log := st_log s ++ [e] |}.

Definition checkpoint (path : str) (s : state) : state :=
  set_fs (save_atomic (csv_of ops (output_df s)) path (st_fs s)) s.

(** The end of the loop body, reached when nothing raised and no
    [continue] ran: merge, pace, periodic save. *)
Definition finish_record (input_csv_path : str) (idx : nat)
    (data : option detail_data) (s : state) : state :=
  let s := match data with
           | Some d => set_output_df (merge_data idx d (output_df s)) s
           | None => s
           end in
  let s := set_browser (drv_pause ops (st_browser s)) s in
  if Nat.eqb ((idx + 1) mod RESULTS_SAVE_EVERY) 0
  then checkpoint input_csv_path (log (PeriodicSave idx) s)
  else s.

(** The manual part of the loop body, entered with [fallback_needed] known. *)
Definition manual_part (input_csv_path : str) (idx : nat) (first last : str)
    (row : input_row) (data : option detail_data) (fallback_needed : bool)
    (s : state) : state :=
  if (match NAV_MODE with NavManual => true | NavAuto => false end)
     || fallback_needed
  then
    match do_record_manual first last (row_address row) (row_zip row) (st_browser s) with
    | (inr data', b) =>
        finish_record input_csv_path idx data'
          (set_browser b (log (ManualCalled idx) s))
    | (inl e, b) => log (RecordError idx e) (set_browser b (log (ManualCalled idx) s))
    end
  else finish_record input_csv_path idx data s.

(** One iteration of [for idx, row in iter_df.iterrows()], with its
    [try ... except Exception]. *)
Definition process_record (input_csv_path : str) (idx : nat) (row : input_row)
    (s : state) : state :=
  let first := clean_name (row_first row) in
  let last := clean_name (row_last row) in
  if negb (truthy first) || negb (truthy last)
  then log (SkippedInvalidName idx) s
  else if looks_like_composite_name first || looks_like_composite_name last
  then log (SkippedComposite idx) s
  else
    match NAV_MODE with
    | NavAuto =>
        match do_record_auto first last (row_address row) (row_zip row)
                (gate_counter s) (st_browser s) with
        | (inr (data, gc, flag), b) =>
            let s := log (AutoReturned idx gc flag)
                       (set_gate_counter gc (set_browser b s)) in
            let fallback_needed :=
              flag || Nat.leb MAX_GATES_BEFORE_MANUAL gc in
            manual_part input_csv_path idx first last row data fallback_needed s
        | (inl e, b) => log (RecordError idx e) (set_browser b s)
        end
    | NavManual =>
        manual_part input_csv_path idx first last row None false s
    end.

Fixpoint process_rows (input_csv_path : str) (idx : nat) (rows : list input_row)
    (s : state) : state :=
  match rows with
  | [] => s
  | row :: rest =>
      process_rows input_csv_path (S idx) rest
        (process_record input_csv_path idx row s)
  end.

(** [main] from [gate_counter = 0] to the final save. *)
Definition main (input_csv_path : str) (rows : list input_row)
    (b0 : browser) (df0 : table) (fs0 : filesystem) : state :=
  let s0 := {| st_browser := b0; gate_counter := 0; output_df := df0;
               st_fs := fs0; st_log := [] |} in
  let s := process_rows input_csv_path 0 rows s0 in
  checkpoint input_csv_path (log FinalSave s).

(** What the loop body leaves in the file system when it reaches its
    end: the checkpoint when one is due. *)
Definition fs_after_body (input_csv_path : str) (idx : nat) (s s' : state)
    : Prop :=
  st_fs s'
  = if Nat.eqb ((idx + 1) mod RESULTS_SAVE_EVERY) 0
    then save_atomic (csv_of ops (output_df s')) input_csv_path (st_fs s)
    else st_fs s.

End Session.

End Batch.

(** ** The properties, in the words of the specification *)

Module Spec.

(** A character that a name keeps: a letter, a hyphen or a space. *)
Definition name_chr (c : ascii) : bool :=
  is_letter c || chr_eqb c "-" || chr_eqb c " ".

Fixpoint drop_spaces (s : str) : str :=
  match s with
  | c :: t => if chr_eqb c " " then drop_spaces t else s
  | [] => []
  end.

Definition trim_spaces (s : str) : str :=
  rev (drop_spaces (rev (drop_spaces s))).

(** A name with everything but letters, hyphens and spaces removed and
    its inner spaces turned into hyphens. *)
Definition sanitized_name (x : option str) : str :=
  map (fun c => if chr_eqb c " " then "-" else c)
      (trim_spaces (List.filter name_chr (or_empty x))).

Definition not_underscore (c : ascii) : bool := negb (chr_eqb c "_").

(** The name segment of a search URL: what stands between [/name/] and
    the first underscore. *)
Definition name_segment (url : str) : str :=
  fst (HtmlLite.span not_underscore (skipn (length BASE_URL) url)).

(** The location segment: what follows that underscore. *)
Definition location_segment (url : str) : str :=
  tl (snd (HtmlLite.span not_underscore (skipn (length BASE_URL) url))).

(** The part of a URL after its final underscore. *)
Definition after_final_underscore (url : str) : str :=
  rev (fst (HtmlLite.span not_underscore (rev url))).

Definition url_unreserved (c : ascii) : bool :=
  is_letter c || is_digit c
  || chr_eqb c "-" || chr_eqb c "." || chr_eqb c "_" || chr_eqb c "~".

(** A path of unreserved characters, [/], [+] and percent escapes. *)
Fixpoint path_ok (s : str) : bool :=
  match s with
  | [] => true
  | "%" :: a :: b :: t => is_hex a && is_hex b && path_ok t
  | c :: t => (url_unreserved c || chr_eqb c "/" || chr_eqb c "+") && path_ok t
  end.

Definition host_chr (c : ascii) : bool :=
  is_letter c || is_digit c || chr_eqb c "." || chr_eqb c "-".

(** [https://host/path] with a non-empty host and a well-formed path. *)
Definition valid_https_url (u : str) : bool :=
  starts_with (lit "https://") u
  && (let '(host, path) :=
        HtmlLite.span (fun c => negb (chr_eqb c "/")) (skipn 8 u) in
      truthy host && forallb host_chr host && path_ok path).

(** A postal code is supplied: a string with a character that is not a blank. *)
Definition postal_code_given (zip_code : pyval) : bool :=
  match zip_code with
  | PyStr z => existsb (fun c => negb (py_isspace c)) z
  | _ => false
  end.

(** The location that [build_fps_url] chooses: the first five characters
    of the stripped postal code when one is supplied, the city-state slug
    of the address otherwise, the empty string when neither resolves. *)
Definition chosen_location (address zip_code : pyval) : str :=
  or_empty
    (if postal_code_given zip_code
     then match zip_code with
          | PyStr z => Some (slice_to 5 (py_strip z))
          | _ => None
          end
     else to_city_state_slug (py_or address (PyStr []))).

(** A string that neither starts nor ends with a blank. *)
Definition trimmed (s : str) : Prop :=
  match s with [] => True | c :: _ => py_isspace c = false end
  /\ match rev s with [] => True | c :: _ => py_isspace c = false end.

(** The address, blanks at its ends aside, ends in [", City, ST"] or in
    [", City, ST, ZIP"]: a comma, a non-empty field without commas, a comma,
    optional blanks, two letters, and optionally a comma, blanks and five
    digits. *)
Definition ends_city_state (addr : str) : Prop :=
  exists before city sp st zip,
    py_strip addr = before ++ [","] ++ city ++ [","] ++ sp ++ st ++ zip
    /\ city <> []
    /\ Forall (fun c => c <> ",") city
    /\ Forall (fun c => py_isspace c = true) sp
    /\ length st = 2
    /\ Forall (fun c => is_letter c = true) st
    /\ (zip = []
        \/ exists sp' ds,
             zip = [","] ++ sp' ++ ds
             /\ Forall (fun c => py_isspace c = true) sp'
             /\ length ds = 5
             /\ Forall (fun c => is_digit c = true) ds).

(** [(NNN) NNN-NNNN] built from ten characters. *)
Definition canonical (d : str) : str :=
  lit "(" ++ slice 0 3 d ++ lit ") " ++ slice 3 6 d ++ lit "-" ++ slice 6 10 d.

(** A string of the form [(NNN) NNN-NNNN] with digits for [N]. *)
Definition is_canonical_phone (p : str) : bool :=
  match p with
  | [op; a; b; c; cl; sp; d; e; f; dash; g; h; i; j] =>
      chr_eqb op "(" && chr_eqb cl ")" && chr_eqb sp " " && chr_eqb dash "-"
      && forallb is_digit [a; b; c; d; e; f; g; h; i; j]
  | _ => false
  end.

(** The digits of a string, in order. *)
Definition digits_of (raw : str) : str := List.filter is_digit raw.

(** A candidate is reducible to ten digits: it has ten digits, or eleven
    with a leading 1. *)
Definition reducible (raw : str) : bool :=
  Nat.eqb (length (digits_of raw)) 10
  || (Nat.eqb (length (digits_of raw)) 11 && starts_with (lit "1") (digits_of raw)).

(** A detail page that loads its e-mail decoder from the challenge
    vendor's script directory. *)
Definition page_with_vendor_script : str :=
  lit ("<h2 id='age-header'>Age 54</h2>"
       ++ "<a title='Search people living at 1 Main St'>1 Main St</a>"
       ++ "<script src='/cdn-cgi/scripts/cloudflare-static/email-decode.min.js'></script>")%string.

(** A detail page that lists one phone number and one relative twice. *)
Definition page_with_repeats : str :=
  lit ("<h2 id='age-header'>Age 54</h2>"
       ++ "<a title='Search people associated with the phone number (212) 555-0187'>(212) 555-0187</a>"
       ++ "<a title='Search people associated with the phone number (212) 555-0187'>(212) 555-0187</a>"
       ++ "<div id='relative-links'><a title='Details for Jane Smith'>Jane Smith</a>"
       ++ "<a title='Details for Jane Smith'>Jane Smith</a></div>")%string.

(** A results page with one weak candidate and two equally good ones. *)
Definition sample_candidates : list Candidates.web_element :=
  [ {| Candidates.we_text := lit "View Details";
       Candidates.we_href := Some (lit "/address/1-main-st");
       Candidates.we_data_href := None; Candidates.we_id := 1 |};
    {| Candidates.we_text := lit "John Smith";
       Candidates.we_href := Some (lit "/person/a1");
       Candidates.we_data_href := None; Candidates.we_id := 2 |};
    {| Candidates.we_text := lit "John A Smith";
       Candidates.we_href := Some (lit "/person/b2");
       Candidates.we_data_href := None; Candidates.we_id := 3 |} ].

Import Batch.

(** The events that end a record without a manual step. *)
Definition skipped_as (idx : nat) (evs : list event) : Prop :=
  evs = [SkippedInvalidName idx] \/ evs = [SkippedComposite idx]
  \/ exists e, evs = [RecordError idx e].

(** The record went through [do_record_manual]. *)
Definition routed_manual (idx : nat) (evs : list event) : Prop :=
  In (ManualCalled idx) evs.

(** The loop body of the record ran to its end: no [continue], no exception. *)
Definition completed (idx : nat) (evs : list event) : Prop :=
  ~ In (SkippedInvalidName idx) evs /\ ~ In (SkippedComposite idx) evs
  /\ forall e, ~ In (RecordError idx e) evs.

(** What the loop body logs at its end. *)
Definition end_of_body (idx : nat) : list event :=
  if Nat.eqb ((idx + 1) mod RESULTS_SAVE_EVERY) 0 then [PeriodicSave idx] else [].

(** A session in which every search meets a challenge that clears after two
    pauses, no results list appears, and the operator skips: the browser
    state counts the pauses since the last navigation. *)
Definition gated_session : driver_ops nat :=
  {| drv_get := fun _ _ => (None, 0);
     drv_page_source := fun _ => lit "<title>Just a moment...</title>";
     drv_current_url := fun _ => Some (lit "https://www.fastpeoplesearch.com/");
     drv_normal_content := fun b => 2 <=? b;
     drv_results_dom := fun _ => false;
     drv_find_elements := fun _ _ => Some [];
     drv_safe_click := fun _ b => (false, b);
     drv_pause := S;
     drv_scroll := fun b => b;
     drv_cookie_banner := fun b => b;
     drv_expand := fun b => b;
     drv_input := fun b => (lit "skip", b);
     clk_polls := fun _ => 0;
     clk_gate_rounds := fun _ => 3;
     clk_manual_rounds := 0;
     csv_of := fun _ => lit "First Name,Last Name" |}.

Definition person_row : input_row :=
  {| row_first := lit "John"; row_last := lit "Smith";
     row_zip := PyStr (lit "10001"); row_address := PyNone |}.

Definition couple_row : input_row :=
  {| row_first := lit "John and Mary"; row_last := lit "Smith";
     row_zip := PyStr (lit "10001"); row_address := PyNone |}.

Definition start_state : state nat :=
  {| st_browser := 0; gate_counter := 0; output_df := ∅; st_fs := ∅; st_log := [] |}.

Definition csv_path : str := lit "data/processed/test.csv".

(** A session in which the challenge never clears. *)
Definition stuck_session : driver_ops nat :=
  {| drv_get := fun _ _ => (None, 0);
     drv_page_source := fun _ => lit "<title>Just a moment...</title>";
     drv_current_url := fun _ => Some (lit "https://www.fastpeoplesearch.com/");
     drv_normal_content := fun _ => false;
     drv_results_dom := fun _ => false;
     drv_find_elements := fun _ _ => Some [];
     drv_safe_click := fun _ b => (false, b);
     drv_pause := S;
     drv_scroll := fun b => b;
     drv_cookie_banner := fun b => b;
     drv_expand := fun b => b;
     drv_input := fun b => (lit "", b);
     clk_polls := fun _ => 0;
     clk_gate_rounds := fun _ => 3;
     clk_manual_rounds := 0;
     csv_of := fun _ => lit "First Name,Last Name" |}.

(** A session in which the first three pages loaded meet a challenge that
    clears after two pauses and shows no results list, the operator
    skipping those records; every later page loads at once with the source
    of [page_with_repeats], the results page offers one candidate, and the
    operator presses Enter.  The browser state counts the pages loaded and
    the pauses since the last one. *)
Definition three_gates_session : driver_ops (nat * nat) :=
  {| drv_get := fun _ b => (None, (S (fst b), 0));
     drv_page_source := fun b =>
       if fst b <=? 3 then lit "<title>Just a moment...</title>"
       else page_with_repeats;
     drv_current_url := fun _ =>
       Some (lit "https://www.fastpeoplesearch.com/john-smith_id1");
     drv_normal_content := fun b => (3 <? fst b) || (2 <=? snd b);
     drv_results_dom := fun b => 3 <? fst b;
     drv_find_elements := fun _ _ =>
       Some [ {| Candidates.we_text := lit "John Smith";
                 Candidates.we_href := Some (lit "/john-smith_id1");
                 Candidates.we_data_href := None; Candidates.we_id := 1 |} ];
     drv_safe_click := fun _ b => (false, b);
     drv_pause := fun b => (fst b, S (snd b));
     drv_scroll := fun b => b;
     drv_cookie_banner := fun b => b;
     drv_expand := fun b => b;
     drv_input := fun b => (if fst b <=? 3 then lit "skip" else [], b);
     clk_polls := fun _ => 0;
     clk_gate_rounds := fun _ => 3;
     clk_manual_rounds := 0;
     csv_of := fun _ => lit "First Name,Last Name" |}.

(** The state in which [main] enters its loop in that session. *)
Definition first_state : state (nat * nat) :=
  {| st_browser := (0, 0); gate_counter := 0; output_df := ∅; st_fs := ∅;
     st_log := [] |}.

End Spec.
Export Spec.

(** ** Debug file stubs of [fps_scraper_edge.py] *)

Module Stub.

(** [f"{idx:05d}"] for a row index, which is not negative. *)
Definition pad5 (idx : nat) : str :=
  let d := Candidates.str_of_nat idx in
  repeat "0" (5 - length d) ++ d.

(** [s.strip('-')] *)
Fixpoint lstrip_chr (x : ascii) (s : str) : str :=
  match s with
  | c :: t => if chr_eqb c x then lstrip_chr x t else s
  | [] => []
  end.

Definition strip_chr (x : ascii) (s : str) : str :=
  rev (lstrip_chr x (rev (lstrip_chr x s))).

(** [r'[^a-z0-9]+'] *)
Definition NOT_STUB_RE : regex :=
  Plus (Cls (fun c => negb (is_lower_az c || is_digit c))).

(** [re.sub(r'[^a-z0-9]+', '-', (x or '').lower()).strip('-')] *)
Definition stub_part (x : option str) : str :=
  strip_chr "-" (sub NOT_STUB_RE (lit "-") (py_lower (or_empty x))).

Definition safe_name_stub (first last : option str) (idx : nat) : str :=
  pad5 idx ++ lit "_" ++ stub_part first ++ lit "_" ++ stub_part last.

End Stub.

(** ** Notions used to state the further properties *)

Module Props.

(** Every maximal run of characters of the class [p] replaced by [repl];
    [in_run] tells that the character before was of the class. *)
Fixpoint squeeze (p : ascii -> bool) (repl : str) (in_run : bool) (s : str) : str :=
  match s with
  | [] => []
  | c :: t =>
      if p c then (if in_run then [] else repl) ++ squeeze p repl true t
      else c :: squeeze p repl false t
  end.

(** No two blanks in a row, and no blank other than the space. *)
Fixpoint single_spaced (after_blank : bool) (s : str) : bool :=
  match s with
  | [] => true
  | c :: t =>
      if py_isspace c
      then negb after_blank && chr_eqb c " " && single_spaced true t
      else single_spaced false t
  end.

(** A character of a file-name stub: a lower-case letter, a digit, a
    hyphen or an underscore. *)
Definition stub_chr (c : ascii) : bool :=
  is_lower_az c || is_digit c || chr_eqb c "-" || chr_eqb c "_".

(** The number that a string of decimal digits writes. *)
Definition decimal_value (s : str) : nat :=
  fold_left (fun acc c => acc * 10 + (N.to_nat (code c) - 48)) s 0.

(** A pattern whose character classes do not tell a character from its
    image under [f], and which has no anchor. *)
Fixpoint class_stable (f : ascii -> ascii) (r : regex) : Prop :=
  match r with
  | Eps => True
  | Cls p => forall c, p (f c) = p c
  | Seq a b | Alt a b => class_stable f a /\ class_stable f b
  | Star _ a | Grp _ a => class_stable f a
  | Eos | Wordb => False
  end.

(** A match, with [f] applied to every character of it. *)
Definition map_res (f : ascii -> ascii) (r : res) : res :=
  match r with
  | (m, c, t) => (map f m, map (fun ic : nat * str => (fst ic, map f (snd ic))) c, map f t)
  end.

(** The slug of a city field and a state code: the field without the
    blanks at its ends and with every run of blanks inside it turned into
    one hyphen, then a hyphen, then the state code in capitals. *)
Definition city_state_slug (field st : str) : str :=
  squeeze py_isspace (lit "-") false (py_strip field) ++ lit "-" ++ py_upper st.

(** A byte in two lower-case hexadecimal digits. *)
Definition hex2 (n : N) : str :=
  [ nth (N.to_nat (n / 16)) (lit "0123456789abcdef") "0";
    nth (N.to_nat (n mod 16)) (lit "0123456789abcdef") "0" ].

(** The obfuscation that [decode_cf_email] undoes: the key byte, then
    every character of the address XOR-ed with the key, in hexadecimal. *)
Definition cf_encode (key : N) (text : str) : str :=
  hex2 key ++ flat_map (fun c => hex2 (N.lxor (code c) key)) text.

(** [data] is what the parser of [fps_scraper_edge.py] reads from a page
    with source [page] at [url], and the page is neither a challenge nor a
    block page. *)
Definition read_from_clear_page (html_parser : str -> soup) (page : str)
    (url : option str) (data : detail_data) : Prop :=
  is_cloudflare_challenge page = false
  /\ Edge.looks_blocked page = false
  /\ data = Edge._parse_detail_page_html_to_data html_parser page (or_empty url).

(** The columns that the loop of [main] in [fps_scraper_edge.py] writes. *)
Definition written_columns : list str :=
  map lit [ "Phone1"; "Phone2"; "Phone3"; "Phone4"; "Phone5"; "Age";
            "Relatives"; "Emails"; "Associates"; "Previous Addresses";
            "Full Address"; "Current Address Details";
            "Background Report Summary"; "FAQs"; "Page URL" ]%string.

(** A detail page with three phone numbers, as the parser of
    [fps_scraper_edge.py] reads it. *)
Definition three_phones : detail_data :=
  {| home_address := Some (lit "1 Main St"); phones := map lit ["(212) 555-0187"; "(212) 555-0188"; "(212) 555-0189"]%string;
     age := Some (lit "54"); relatives := []; emails := []; marital_status := None;
     associates := []; previous_addresses := []; current_address_details := None;
     background_report := None; faqs := None;
     page_url := lit "https://www.fastpeoplesearch.com/john-smith_id1" |}.

(** A session without challenges: the results page offers one candidate
    and every page has the source of [page_with_repeats]. *)
Definition clear_session : Batch.driver_ops nat :=
  {| Batch.drv_get := fun _ b => (None, b);
     Batch.drv_page_source := fun _ => page_with_repeats;
     Batch.drv_current_url := fun _ =>
       Some (lit "https://www.fastpeoplesearch.com/john-smith_id1");
     Batch.drv_normal_content := fun _ => true;
     Batch.drv_results_dom := fun _ => true;
     Batch.drv_find_elements := fun _ _ =>
       Some [ {| Candidates.we_text := lit "John Smith";
                 Candidates.we_href := Some (lit "/john-smith_id1");
                 Candidates.we_data_href := None; Candidates.we_id := 1 |} ];
     Batch.drv_safe_click := fun _ b => (false, b);
     Batch.drv_pause := fun b => b;
     Batch.drv_scroll := fun b => b;
     Batch.drv_cookie_banner := fun b => b;
     Batch.drv_expand := fun b => b;
     Batch.drv_input := fun b => (lit "", b);
     Batch.clk_polls := fun _ => 0;
     Batch.clk_gate_rounds := fun _ => 3;
     Batch.clk_manual_rounds := 0;
     Batch.csv_of := fun _ => lit "First Name,Last Name" |}.

End Props.
Export Props.

(** ** The per-record flows and [main] of [fps_scraper_chrome.py]

    The gate helpers ([wait_for_normal_content], [open_with_human_gate])
    and the name filters are the same as in [fps_scraper_edge.py]; the
    flows below differ from it in what they wait for, in the second gate
    on the detail page and in the columns they fill. *)

Module ChromeBatch.

Import Candidates Batch.

(** The block [if data: ...] of [main]. *)
Definition merge_data (idx : nat) (data : detail_data) (df : table) : table :=
  let df := if truthy (phones data)
            then set_phones idx 0 (firstn 5 (phones data)) df else df in
  let df := <[ (idx, lit "Age") := age data ]> df in
  let df := <[ (idx, lit "Relatives") := joined (relatives data) ]> df in
  let df := <[ (idx, lit "Emails") := joined (emails data) ]> df in
  let df := <[ (idx, lit "Marital Status") := marital_status data ]> df in
  let df := <[ (idx, lit "Associates") := joined (associates data) ]> df in
  let df := <[ (idx, lit "Previous Addresses") := joined (previous_addresses data) ]> df in
  let df := <[ (idx, lit "Current Address Details") := current_address_details data ]> df in
  let df := <[ (idx, lit "Background Report Summary") := background_report data ]> df in
  let df := <[ (idx, lit "FAQs") := faqs data ]> df in
  <[ (idx, lit "Page URL") := Some (page_url data) ]> df.

Section Session.

Variable browser : Type.
Variable html_parser : str -> soup.
Variable ops : driver_ops browser.

Notation "'do' x <- m ; k" := (bind browser m (fun x => k))
  (at level 10, x name, m at level 100, k at level 200).

Definition scrape_current_page : M browser (option detail_data * option str) :=
  fun b =>
    let '(r, b') :=
      Chrome.scrape_current_page html_parser browser (drv_page_source browser ops)
        (drv_current_url browser ops) (drv_cookie_banner browser ops) b in
    (inr r, b').

Definition _get_best_result_href (first last : str) : M browser (option str) :=
  do found <- observe browser
      (fun b => map (fun xp => drv_find_elements browser ops xp b) [0; 1]);
  ret browser
    (Candidates.Chrome._get_best_result_href
       (Candidates.Chrome._candidate_detail_links found) first last).

(** [do_record_auto] returns [(data, gate_counter, flag)]; [flag] is
    [true] for ["need_manual"]. *)
Definition do_record_auto (first_name last_name : str) (address zip_code : pyval)
    (gate_counter : nat) : M browser (option detail_data * nat * bool) :=
  let url := build_fps_url (Some first_name) (Some last_name) address zip_code in
  do gate_seen <- open_with_human_gate browser ops url 20 CF_MANUAL_GATE_TIMEOUT;
  let gate_counter := gate_counter + (if gate_seen then 1 else 0) in
  do shown <- wait_for_normal_content browser ops 20;
  if negb shown then ret browser (None, gate_counter, true)
  else
    do results <- wait_until browser ops 15 (drv_results_dom browser ops);
    if negb results then ret browser (None, gate_counter, true)
    else
      do best_href <- _get_best_result_href first_name last_name;
      if negb (truthy (or_empty best_href)) then ret browser (None, gate_counter, true)
      else
        do gate_seen2 <- open_with_human_gate browser ops (or_empty best_href) 15
                           CF_MANUAL_GATE_TIMEOUT;
        let gate_counter := gate_counter + (if gate_seen2 then 1 else 0) in
        do scraped <- scrape_current_page;
        match fst scraped with
        | Some data => ret browser (Some data, gate_counter, false)
        | None => ret browser (None, gate_counter, true)
        end.

(** The loop [while True] of [do_record_manual]; [rounds] failed scrapes
    fit before [remaining <= 0]. *)
Fixpoint manual_loop (rounds : nat) : M browser (option detail_data) :=
  do scraped <- scrape_current_page;
  match fst scraped with
  | Some data => ret browser (Some data)
  | None =>
      match rounds with
      | 0 => ret browser None
      | S k =>
          do user_input <- interact browser (drv_input browser ops);
          if is_skip user_input then ret browser None else manual_loop k
      end
  end.

Definition do_record_manual (first_name last_name : str) (address zip_code : pyval)
    : M browser (option detail_data) :=
  do user_input <- interact browser (drv_input browser ops);
  if is_skip user_input then ret browser None
  else manual_loop (clk_manual_rounds browser ops).

(** The end of the loop body: merge, pace, periodic save. *)
Definition finish_record (input_csv_path : str) (idx : nat)
    (data : option detail_data) (s : state browser) : state browser :=
  let s := match data with
           | Some d => set_output_df browser (merge_data idx d (output_df browser s)) s
           | None => s
           end in
  let s := set_browser browser (drv_pause browser ops (st_browser browser s)) s in
  if Nat.eqb ((idx + 1) mod RESULTS_SAVE_EVERY) 0
  then checkpoint browser ops input_csv_path (log browser (PeriodicSave idx) s)
  else s.

Definition manual_part (input_csv_path : str) (idx : nat) (first last : str)
    (row : input_row) (data : option detail_data) (fallback_needed : bool)
    (s : state browser) : state browser :=
  if (match NAV_MODE with NavManual => true | NavAuto => false end)
     || fallback_needed
  then
    match do_record_manual first last (row_address row) (row_zip row)
            (st_browser browser s) with
    | (inr data', b) =>
        finish_record input_csv_path idx data'
          (set_browser browser b (log browser (ManualCalled idx) s))
    | (inl e, b) =>
        log browser (RecordError idx e)
          (set_browser browser b (log browser (ManualCalled idx) s))
    end
  else finish_record input_csv_path idx data s.

(** One iteration of [for idx, row in output_df.iterrows()], with its
    [try ... except Exception: ... continue]. *)
Definition process_record (input_csv_path : str) (idx : nat) (row : input_row)
    (s : state browser) : state browser :=
  let first := clean_name (row_first row) in
  let last := clean_name (row_last row) in
  if negb (truthy first) || negb (truthy last)
  then log browser (SkippedInvalidName idx) s
  else if looks_like_composite_name first || looks_like_composite_name last
  then log browser (SkippedComposite idx) s
  else
    match NAV_MODE with
    | NavAuto =>
        match do_record_auto first last (row_address row) (row_zip row)
                (gate_counter browser s) (st_browser browser s) with
        | (inr (data, gc, flag), b) =>
            let s := log browser (AutoReturned idx gc flag)
                       (set_gate_counter browser gc (set_browser browser b s)) in
            let fallback_needed :=
              flag || Nat.leb MAX_GATES_BEFORE_MANUAL gc in
            manual_part input_csv_path idx first last row data fallback_needed s
        | (inl e, b) => log browser (RecordError idx e) (set_browser browser b s)
        end
    | NavManual =>
        manual_part input_csv_path idx first last row None false s
    end.

Fixpoint process_rows (input_csv_path : str) (idx : nat) (rows : list input_row)
    (s : state browser) : state browser :=
  match rows with
  | [] => s
  | row :: rest =>
      process_rows input_csv_path (S idx) rest
        (process_record input_csv_path idx row s)
  end.

(** [main] from [gate_counter = 0] to the final save. *)
Definition main (input_csv_path : str) (rows : list input_row)
    (b0 : browser) (df0 : table) (fs0 : filesystem) : state browser :=
  let s0 := {| st_browser := b0; gate_counter := 0; output_df := df0;
               st_fs := fs0; st_log := [] |} in
  let s := process_rows input_csv_path 0 rows s0 in
  checkpoint browser ops input_csv_path (log browser FinalSave s).

End Session.

End ChromeBatch.

(** * Proofs *)

(** ** Strings *)

Lemma chr_eqb_true (a b : ascii) : chr_eqb a b = true <-> a = b.
Proof. unfold chr_eqb. apply Ascii.eqb_eq. Qed.

Lemma chr_eqb_refl (a : ascii) : chr_eqb a a = true.
Proof. apply chr_eqb_true. reflexivity. Qed.

Lemma chr_eqb_false (a b : ascii) : chr_eqb a b = false <-> a <> b.
Proof. unfold chr_eqb. apply Ascii.eqb_neq. Qed.

Lemma str_eqb_true (a b : str) : str_eqb a b = true <-> a = b.
Proof. unfold str_eqb. destruct (decide (a = b)); split; congruence. Qed.

Lemma truthy_false {A : Type} (l : list A) : truthy l = false <-> l = [].
Proof. destruct l; simpl; split; congruence. Qed.

Lemma truthy_true {A : Type} (l : list A) : truthy l = true <-> l <> [].
Proof. destruct l; simpl; split; congruence. Qed.

(** [lstrip] drops a blank prefix and nothing else. *)
Lemma lstrip_split (s : str) :
  exists w, s = w ++ lstrip s /\ forallb py_isspace w = true.
Proof.
  induction s as [|c t IH]; simpl.
  - exists []. split; reflexivity.
  - destruct (py_isspace c) eqn:Hc.
    + destruct IH as (w & Hw & Hall). exists (c :: w). simpl. rewrite Hc.
      split; [congruence | assumption].
    + exists []. split; reflexivity.
Qed.

Lemma lstrip_head (s : str) c t : lstrip s = c :: t -> py_isspace c = false.
Proof.
  induction s as [|a s IH]; simpl; [discriminate|].
  destruct (py_isspace a) eqn:Ha; [assumption|].
  intros H. injection H as -> _. assumption.
Qed.

Lemma lstrip_fixed (s : str) :
  match s with [] => True | c :: _ => py_isspace c = false end -> lstrip s = s.
Proof. destruct s as [|c t]; simpl; [reflexivity|]. intros ->. reflexivity. Qed.

Lemma lstrip_nil_iff (s : str) : lstrip s = [] <-> forallb py_isspace s = true.
Proof.
  induction s as [|c t IH]; simpl; [tauto|].
  destruct (py_isspace c); simpl; [assumption|]. split; discriminate.
Qed.

Lemma lstrip_blank_app (w s : str) :
  forallb py_isspace w = true -> lstrip (w ++ s) = lstrip s.
Proof.
  induction w as [|c w IH]; simpl; [reflexivity|].
  intros H. apply andb_prop in H as [-> H]. auto.
Qed.

Lemma rstrip_split (s : str) :
  exists w, s = rstrip s ++ w /\ forallb py_isspace w = true.
Proof.
  unfold rstrip. destruct (lstrip_split (rev s)) as (w & Hw & Hall).
  exists (rev w). split.
  - rewrite <- rev_app_distr, <- Hw, rev_involutive. reflexivity.
  - rewrite forallb_forall in *. intros x Hx. apply Hall. now apply in_rev.
Qed.

Lemma rstrip_last (s : str) t c : rstrip s = t ++ [c] -> py_isspace c = false.
Proof.
  unfold rstrip. intros H.
  assert (H' : lstrip (rev s) = c :: rev t).
  { rewrite <- (rev_involutive (lstrip (rev s))), H, rev_app_distr. reflexivity. }
  eapply lstrip_head; eassumption.
Qed.

Lemma rstrip_fixed (s : str) :
  match rev s with [] => True | c :: _ => py_isspace c = false end -> rstrip s = s.
Proof.
  intros H. unfold rstrip. rewrite lstrip_fixed by assumption. apply rev_involutive.
Qed.

Lemma rstrip_nil_iff (s : str) : rstrip s = [] <-> forallb py_isspace s = true.
Proof.
  unfold rstrip. split.
  - intros H. assert (H' : lstrip (rev s) = []).
    { rewrite <- (rev_involutive (lstrip (rev s))), H. reflexivity. }
    apply lstrip_nil_iff in H'. rewrite forallb_forall in *.
    intros x Hx. apply H'. now apply in_rev in Hx.
  - intros H. assert (H' : lstrip (rev s) = []).
    { apply lstrip_nil_iff. rewrite forallb_forall in *.
      intros x Hx. apply H. now apply in_rev. }
    rewrite H'. reflexivity.
Qed.

(** A string that neither starts nor ends with a blank is its own strip. *)

Lemma py_strip_fixed (s : str) : trimmed s -> py_strip s = s.
Proof.
  intros [H1 H2]. unfold py_strip. rewrite lstrip_fixed by assumption.
  apply rstrip_fixed. assumption.
Qed.

Lemma rstrip_keeps_head (s : str) :
  match s with [] => True | c :: _ => py_isspace c = false end ->
  match rstrip s with [] => True | c :: _ => py_isspace c = false end.
Proof.
  intros H. destruct (rstrip_split s) as (w & Hw & _).
  destruct (rstrip s) as [|c t] eqn:Hr; [exact I|].
  rewrite Hw in H. simpl in H. assumption.
Qed.

Lemma py_strip_trimmed (s : str) : trimmed (py_strip s).
Proof.
  unfold py_strip. split.
  - apply rstrip_keeps_head.
    destruct (lstrip s) as [|c t] eqn:Hl; [exact I|]. eapply lstrip_head; eassumption.
  - destruct (rev (rstrip (lstrip s))) as [|c t] eqn:Hr; [exact I|].
    apply (rstrip_last (lstrip s) (rev t) c).
    rewrite <- (rev_involutive (rstrip (lstrip s))), Hr. reflexivity.
Qed.

Lemma py_strip_idem (s : str) : py_strip (py_strip s) = py_strip s.
Proof. apply py_strip_fixed, py_strip_trimmed. Qed.

Lemma forallb_app_true {A} (p : A -> bool) (a b : list A) :
  forallb p (a ++ b) = forallb p a && forallb p b.
Proof. apply forallb_app. Qed.

Lemma py_strip_truthy (s : str) :
  truthy (py_strip s) = existsb (fun c => negb (py_isspace c)) s.
Proof.
  destruct (existsb (fun c => negb (py_isspace c)) s) eqn:E.
  - apply truthy_true. intros H. unfold py_strip in H.
    apply rstrip_nil_iff in H.
    destruct (lstrip_split s) as (w & Hw & Hall).
    apply existsb_exists in E as (c & Hin & Hc).
    rewrite Hw in Hin. apply in_app_or in Hin as [Hin|Hin].
    + rewrite forallb_forall in Hall. rewrite (Hall _ Hin) in Hc. discriminate.
    + rewrite forallb_forall in H. rewrite (H _ Hin) in Hc. discriminate.
  - apply truthy_false. unfold py_strip.
    assert (Hall : forallb py_isspace s = true).
    { apply forallb_forall. intros c Hc.
      destruct (py_isspace c) eqn:Hs; [reflexivity|].
      assert (existsb (fun c => negb (py_isspace c)) s = true).
      { apply existsb_exists. exists c. rewrite Hs. auto. }
      congruence. }
    apply lstrip_nil_iff in Hall. rewrite Hall. reflexivity.
Qed.

(** ** The matcher *)

Lemma sub_from_cls (p : ascii -> bool) (k : nat) (prev : option ascii) (s : str) :
  length s < k ->
  sub_from k (Cls p) [] prev s = List.filter (fun c => negb (p c)) s.
Proof.
  revert prev s. induction k as [|k IH]; intros prev s Hk; [lia|].
  destruct s as [|c t]; simpl; [reflexivity|].
  simpl in Hk. destruct (p c) eqn:Hp; simpl.
  - apply IH. lia.
  - f_equal. apply IH. lia.
Qed.

Lemma sub_cls (p : ascii -> bool) (s : str) :
  sub (Cls p) [] s = List.filter (fun c => negb (p c)) s.
Proof. unfold sub. apply sub_from_cls. lia. Qed.

Lemma matches_seq (a b : regex) prev s m c t :
  In (m, c, t) (matches (Seq a b) prev s) <->
  exists m1 c1 t1 m2 c2,
    In (m1, c1, t1) (matches a prev s)
    /\ In (m2, c2, t) (matches b (last_chr m1 prev) t1)
    /\ m = m1 ++ m2 /\ c = c1 ++ c2.
Proof.
  simpl. rewrite in_flat_map. split.
  - intros ([[m1 c1] t1] & H1 & H2).
    apply in_map_iff in H2 as ([[m2 c2] t2] & Heq & H2).
    simpl in Heq. injection Heq as <- <- <-.
    exists m1, c1, t1, m2, c2. auto.
  - intros (m1 & c1 & t1 & m2 & c2 & H1 & H2 & -> & ->).
    exists (m1, c1, t1). split; [assumption|].
    apply in_map_iff. exists (m2, c2, t). auto.
Qed.

Lemma matches_alt (a b : regex) prev s x :
  In x (matches (Alt a b) prev s) <->
  In x (matches a prev s) \/ In x (matches b prev s).
Proof. simpl. apply in_app_iff. Qed.

Lemma matches_cls (p : ascii -> bool) prev s m c t :
  In (m, c, t) (matches (Cls p) prev s) <->
  exists x, s = x :: t /\ p x = true /\ m = [x] /\ c = [].
Proof.
  simpl. destruct s as [|x s'].
  - split; [intros []|intros (x & H & _); discriminate].
  - destruct (p x) eqn:Hp; simpl.
    + split.
      * intros [H|[]]. injection H as <- <- <-. exists x. simpl; auto.
      * intros (y & H & _ & -> & ->). injection H as <- <-. simpl; auto.
    + split; [intros []|].
      intros (y & H & Hy & _). injection H as <- <-. congruence.
Qed.

Lemma matches_eps prev s m c t :
  In (m, c, t) (matches Eps prev s) <-> m = [] /\ c = [] /\ t = s.
Proof.
  simpl. split.
  - intros [H|[]]. injection H as <- <- <-. simpl; auto.
  - intros (-> & -> & ->). simpl; auto.
Qed.

Lemma matches_eos prev s m c t :
  In (m, c, t) (matches Eos prev s) <->
  m = [] /\ c = [] /\ t = s /\ (s = [] \/ s = ["010"]).
Proof.
  simpl. destruct s as [|x [|y s']].
  - split.
    + intros [H|[]]. injection H as <- <- <-. simpl; auto.
    + intros (-> & -> & -> & _). simpl; auto.
  - destruct (chr_eqb x "010") eqn:Hx; simpl.
    + apply chr_eqb_true in Hx. subst x. split.
      * intros [H|[]]. injection H as <- <- <-. simpl; auto.
      * intros (-> & -> & -> & _). simpl; auto.
    + apply chr_eqb_false in Hx. split; [intros []|].
      intros (_ & _ & _ & [H|H]); [discriminate | congruence].
  - split; [intros []|]. intros (_ & _ & _ & [H|H]); discriminate.
Qed.

Lemma matches_grp i (a : regex) prev s m c t :
  In (m, c, t) (matches (Grp i a) prev s) <->
  exists c', In (m, c', t) (matches a prev s) /\ c = c' ++ [(i, m)].
Proof.
  simpl. rewrite in_map_iff. split.
  - intros ([[m' c'] t'] & Heq & H). injection Heq as <- <- <-. eauto.
  - intros (c' & H & ->). exists (m, c', t). simpl; auto.
Qed.

(** A star over a character class matches a run of the class. *)
Lemma star_iter_cls (p : ascii -> bool) g k prev s m c t :
  In (m, c, t) (star_iter (matches (Cls p)) g k prev s) ->
  s = m ++ t /\ forallb p m = true /\ c = [].
Proof.
  revert prev s m c t. induction k as [|k IH]; intros prev s m c t.
  - simpl. intros [H|[]]. injection H as <- <- <-. simpl; auto.
  - cbn [star_iter].
    assert (Hmore : forall x,
      In x (flat_map (fun r1 : res =>
               match r1 with
               | ([], _, _) => []
               | (m1, c1, t1) =>
                   map (extend m1 c1)
                     (star_iter (matches (Cls p)) g k (last_chr m1 prev) t1)
               end) (matches (Cls p) prev s)) ->
      x = (m, c, t) -> s = m ++ t /\ forallb p m = true /\ c = []).
    { intros x Hx ->. apply in_flat_map in Hx as ([[m1 c1] t1] & H1 & H2).
      apply matches_cls in H1 as (y & -> & Hy & -> & ->).
      apply in_map_iff in H2 as ([[m2 c2] t2] & Heq & H2).
      simpl in Heq. injection Heq as <- <- <-.
      apply IH in H2 as (-> & Hall & ->). simpl. rewrite Hy, Hall. auto. }
    destruct g.
    + intros H. apply in_app_or in H as [H|[H|[]]].
      * eapply Hmore; eauto.
      * injection H as <- <- <-. simpl; auto.
    + intros [H|H].
      * injection H as <- <- <-. simpl; auto.
      * eapply Hmore; eauto.
Qed.

Lemma matches_star_cls (p : ascii -> bool) g prev s m c t :
  In (m, c, t) (matches (Star g (Cls p)) prev s) ->
  s = m ++ t /\ forallb p m = true /\ c = [].
Proof. exact (star_iter_cls p g (S (length s)) prev s m c t). Qed.

(** What [re.search] returns is a match at some position. *)
Lemma search_from_some (r : regex) prev s x :
  search_from r prev s = Some x ->
  exists before prev' s', s = before ++ s' /\ In x (matches r prev' s').
Proof.
  revert prev. induction s as [|c t IH]; intros prev; simpl.
  - destruct (matches r prev []) as [|y l] eqn:E; [discriminate|].
    intros H. injection H as <-. exists [], prev, []. rewrite E. simpl. simpl; auto.
  - destruct (matches r prev (c :: t)) as [|y l] eqn:E.
    + intros H. apply IH in H as (before & prev' & s' & -> & Hin).
      exists (c :: before), prev', s'. simpl; auto.
    + intros H. injection H as <-. exists [], prev, (c :: t). rewrite E. simpl. simpl; auto.
Qed.

(** Every string that [re.findall] returns is a match at some position. *)
Lemma findall_from_in (r : regex) k prev s x :
  In x (findall_from k r prev s) ->
  exists prev' s' c t, In (x, c, t) (matches r prev' s').
Proof.
  revert prev s. induction k as [|k IH]; intros prev s; simpl; [intros []|].
  destruct (matches r prev s) as [|[[m c] t] l] eqn:E.
  - destruct s as [|a s']; [intros []|]. apply IH.
  - destruct m as [|a m].
    + intros [<-|H].
      * exists prev, s, c, t. rewrite E. simpl. simpl; auto.
      * destruct s as [|b s']; [destruct H|]. eapply IH; eassumption.
    + intros [<-|H].
      * exists prev, s, c, t. rewrite E. simpl. simpl; auto.
      * eapply IH; eassumption.
Qed.

Lemma findall_in (r : regex) s x :
  In x (findall r s) -> exists prev' s' c t, In (x, c, t) (matches r prev' s').
Proof. apply findall_from_in. Qed.

(** ** The target builder *)

Ltac ascii_cases c := destruct c as [[|] [|] [|] [|] [|] [|] [|] [|]].

Lemma name_chr_space (c : ascii) :
  name_chr c = true -> py_isspace c = chr_eqb c " ".
Proof. ascii_cases c; vm_compute; congruence. Qed.

Lemma name_chr_mapped (c : ascii) :
  name_chr c = true ->
  let c' := if chr_eqb c " " then "-" else c in
  always_safe c' = true /\ not_underscore c' = true /\ py_isspace c' = false.
Proof. ascii_cases c; vm_compute; intros; repeat split; congruence. Qed.

Lemma lstrip_drop_spaces (l : str) :
  forallb name_chr l = true -> lstrip l = drop_spaces l.
Proof.
  induction l as [|c t IH]; simpl; [reflexivity|].
  intros H. apply andb_prop in H as [Hc Ht].
  rewrite (name_chr_space c Hc). destruct (chr_eqb c " "); auto.
Qed.

Lemma forallb_rev {A} (p : A -> bool) (l : list A) :
  forallb p (rev l) = forallb p l.
Proof.
  induction l as [|a l IH]; simpl; [reflexivity|].
  rewrite forallb_app, IH. simpl. rewrite andb_true_r. apply andb_comm.
Qed.

Lemma forallb_drop_spaces (p : ascii -> bool) (l : str) :
  forallb p l = true -> forallb p (drop_spaces l) = true.
Proof.
  induction l as [|c t IH]; simpl; [auto|].
  intros H. apply andb_prop in H as [Hc Ht].
  destruct (chr_eqb c " "); [auto|]. simpl. rewrite Hc, Ht. reflexivity.
Qed.

Lemma py_strip_trim_spaces (l : str) :
  forallb name_chr l = true -> py_strip l = trim_spaces l.
Proof.
  intros H. unfold py_strip, trim_spaces, rstrip.
  rewrite (lstrip_drop_spaces l H).
  rewrite lstrip_drop_spaces; [reflexivity|].
  rewrite forallb_rev. apply forallb_drop_spaces. assumption.
Qed.

Lemma forallb_trim_spaces (p : ascii -> bool) (l : str) :
  forallb p l = true -> forallb p (trim_spaces l) = true.
Proof.
  intros H. unfold trim_spaces. rewrite forallb_rev.
  apply forallb_drop_spaces. rewrite forallb_rev.
  apply forallb_drop_spaces. assumption.
Qed.

Lemma forallb_filter_same {A} (p : A -> bool) (l : list A) :
  forallb p (List.filter p l) = true.
Proof.
  induction l as [|a l IH]; simpl; [reflexivity|].
  destruct (p a) eqn:E; simpl; [rewrite E|]; assumption.
Qed.

Lemma replace_chr_map (old new : ascii) (s : str) :
  replace_chr old [new] s = map (fun c => if chr_eqb c old then new else c) s.
Proof.
  unfold replace_chr. induction s as [|c t IH]; simpl; [reflexivity|].
  rewrite IH. destruct (chr_eqb c old); reflexivity.
Qed.

(** The source's [re.sub(...).strip().replace(" ", "-")] is the sanitized
    name of the specification. *)
Lemma name_token_sanitized (x : option str) : name_token x = sanitized_name x.
Proof.
  unfold name_token, sanitized_name, NOT_NAME_CHR.
  rewrite sub_cls.
  assert (E : List.filter
            (fun c => negb (negb (is_letter c || chr_eqb c "-" || chr_eqb c " ")))
            (or_empty x) = List.filter name_chr (or_empty x)).
  { apply filter_ext. intros c. unfold name_chr. apply negb_involutive. }
  rewrite E. rewrite py_strip_trim_spaces by apply forallb_filter_same.
  apply (replace_chr_map " " "-").
Qed.

Lemma sanitized_name_chars (x : option str) :
  forallb (fun c => always_safe c && not_underscore c && negb (py_isspace c))
          (sanitized_name x) = true.
Proof.
  unfold sanitized_name.
  assert (H : forallb name_chr (trim_spaces (List.filter name_chr (or_empty x))) = true)
    by apply forallb_trim_spaces, forallb_filter_same.
  induction (trim_spaces (List.filter name_chr (or_empty x))) as [|c t IH];
    simpl; [reflexivity|].
  simpl in H. apply andb_prop in H as [Hc Ht].
  destruct (name_chr_mapped c Hc) as (H1 & H2 & H3).
  cbv zeta in H1, H2, H3. rewrite H1, H2, H3. simpl. auto.
Qed.

Lemma quote_plus_safe (s : str) :
  forallb always_safe s = true -> quote_plus s = s.
Proof.
  unfold quote_plus. induction s as [|c t IH]; simpl; [reflexivity|].
  intros H. apply andb_prop in H as [Hc Ht].
  unfold quote_plus_chr. rewrite Hc. simpl. f_equal. auto.
Qed.

Lemma forallb_weaken {A} (p q : A -> bool) (l : list A) :
  (forall a, p a = true -> q a = true) ->
  forallb p l = true -> forallb q l = true.
Proof.
  intros Hpq. induction l as [|a l IH]; simpl; [auto|].
  intros H. apply andb_prop in H as [Ha Hl]. rewrite (Hpq a Ha). auto.
Qed.

Lemma quote_plus_sanitized (x : option str) :
  quote_plus (sanitized_name x) = sanitized_name x.
Proof.
  apply quote_plus_safe.
  eapply forallb_weaken; [|apply sanitized_name_chars].
  intros a H. simpl in H. apply andb_prop in H as [H _].
  apply andb_prop in H as [H _]. assumption.
Qed.

Lemma path_ok_quote_chr (c : ascii) (r : str) :
  path_ok (quote_plus_chr c ++ r) = path_ok r.
Proof. ascii_cases c; reflexivity. Qed.

Lemma path_ok_quote_plus (s r : str) :
  path_ok (quote_plus s ++ r) = path_ok r.
Proof.
  unfold quote_plus. induction s as [|c t IH]; simpl; [reflexivity|].
  rewrite <- app_assoc, path_ok_quote_chr. assumption.
Qed.

Lemma valid_base (r : str) : valid_https_url (BASE_URL ++ r) = path_ok r.
Proof. reflexivity. Qed.

Lemma span_stop (p : ascii -> bool) (a : str) (c : ascii) (r : str) :
  forallb p a = true -> p c = false ->
  HtmlLite.span p (a ++ c :: r) = (a, c :: r).
Proof.
  intros Ha Hc. induction a as [|x a IH]; simpl.
  - rewrite Hc. reflexivity.
  - simpl in Ha. apply andb_prop in Ha as [Hx Ha]. rewrite Hx, (IH Ha). reflexivity.
Qed.

Lemma span_all (p : ascii -> bool) (a : str) :
  forallb p a = true -> HtmlLite.span p a = (a, []).
Proof.
  induction a as [|x a IH]; simpl; [reflexivity|].
  intros H. apply andb_prop in H as [Hx Ha]. rewrite Hx, (IH Ha). reflexivity.
Qed.

(** The shape of every URL that [build_fps_url] returns. *)
Lemma build_fps_url_shape (first last : option str) (address zip_code : pyval) :
  build_fps_url first last address zip_code
  = BASE_URL ++ (sanitized_name first ++ ["-"] ++ sanitized_name last)
      ++ ["_"] ++ quote_plus (chosen_location address zip_code).
Proof.
  unfold build_fps_url. cbv zeta.
  rewrite !name_token_sanitized, !quote_plus_sanitized.
  rewrite <- !app_assoc. do 4 f_equal. change (lit "_") with ["_"]. do 3 f_equal.
  unfold chosen_location.
  destruct zip_code as [|z| |]; try reflexivity.
  cbn [postal_code_given]. rewrite py_strip_truthy.
  destruct (existsb (fun c => negb (py_isspace c)) z) eqn:E; [|reflexivity].
  assert (Hne : truthy (slice_to 5 (py_strip z)) = true).
  { pose proof (py_strip_truthy z) as Ht. rewrite E in Ht.
    destruct (py_strip z); [discriminate|reflexivity]. }
  cbn [or_empty]. rewrite Hne. reflexivity.
Qed.

Lemma name_not_underscore (first last : option str) :
  forallb not_underscore (sanitized_name first ++ ["-"] ++ sanitized_name last) = true.
Proof.
  assert (H : forall x, forallb not_underscore (sanitized_name x) = true).
  { intros x. eapply forallb_weaken; [|apply sanitized_name_chars].
    intros a Ha. simpl in Ha. apply andb_prop in Ha as [Ha _].
    apply andb_prop in Ha as [_ Ha]. assumption. }
  rewrite !forallb_app, !H. reflexivity.
Qed.

Lemma skipn_base (r : str) : skipn (length BASE_URL) (BASE_URL ++ r) = r.
Proof. reflexivity. Qed.

Lemma build_fps_url_valid (first last : option str) (address zip_code : pyval) :
  valid_https_url (build_fps_url first last address zip_code) = true.
Proof.
  rewrite build_fps_url_shape. generalize (chosen_location address zip_code).
  intros loc. rewrite valid_base.
  assert (Hs : forall x r, path_ok (sanitized_name x ++ r) = path_ok r).
  { intros x r. rewrite <- (quote_plus_sanitized x). apply path_ok_quote_plus. }
  rewrite <- !app_assoc. rewrite Hs. simpl. rewrite Hs. simpl.
  rewrite <- (app_nil_r (quote_plus loc)). apply path_ok_quote_plus.
Qed.

(** C4. For every [first], [last] (a string or [None]) and every [address]
    and [zip_code] (a string, [None], a number or NaN), [build_fps_url]
    is a total function (no path of it raises) whose result is a
    well-formed [https] URL, and the name segment of that URL is the first
    name and the last name, each with everything but letters, hyphens and
    spaces removed and its inner spaces turned into hyphens, joined by a
    hyphen. *)
Theorem build_fps_url_valid_and_sanitized
    (first last : option str) (address zip_code : pyval) :
  valid_https_url (build_fps_url first last address zip_code) = true
  /\ name_segment (build_fps_url first last address zip_code)
     = sanitized_name first ++ ["-"] ++ sanitized_name last.
Proof.
  split.
  - apply build_fps_url_valid.
  - rewrite build_fps_url_shape. unfold name_segment. rewrite skipn_base.
    change (["_"] ++ quote_plus (chosen_location address zip_code))
      with ("_" :: quote_plus (chosen_location address zip_code)).
    rewrite span_stop; [reflexivity | apply name_not_underscore | reflexivity].
Qed.

(** Taking a match apart, constructor by constructor. *)
Ltac inv_re H :=
  lazymatch type of H with
  | In _ (matches (Seq _ _) _ _) =>
      apply (proj1 (matches_seq _ _ _ _ _ _ _)) in H;
      let H1 := fresh "Hm" in
      let H2 := fresh "Hm" in
      destruct H as (? & ? & ? & ? & ? & H1 & H2 & -> & ->);
      inv_re H1; inv_re H2
  | In _ (matches (Alt _ _) _ _) =>
      apply (proj1 (matches_alt _ _ _ _ _)) in H; destruct H as [H|H]; inv_re H
  | In _ (matches (Cls _) _ _) =>
      apply (proj1 (matches_cls _ _ _ _ _ _)) in H;
      destruct H as (? & -> & ? & -> & ->)
  | In _ (matches (Star _ (Cls _)) _ _) =>
      apply matches_star_cls in H; destruct H as (-> & ? & ->)
  | In _ (matches (Grp _ _) _ _) =>
      apply (proj1 (matches_grp _ _ _ _ _ _ _)) in H;
      destruct H as (? & H & ->); inv_re H
  | In _ (matches Eps _ _) =>
      apply (proj1 (matches_eps _ _ _ _ _)) in H; destruct H as (-> & -> & ->)
  | In _ (matches Eos _ _) =>
      apply (proj1 (matches_eos _ _ _ _ _)) in H; destruct H as (-> & -> & -> & ?)
  | _ => idtac
  end.

Lemma space_not_comma (c : ascii) : py_isspace c = true -> c <> ",".
Proof. intros H ->. vm_compute in H. discriminate. Qed.

Lemma forallb_Forall_true {A} (p : A -> bool) (l : list A) :
  forallb p l = true -> Forall (fun c => p c = true) l.
Proof.
  intros H. apply List.Forall_forall. intros x Hx.
  rewrite List.forallb_forall in H. auto.
Qed.

Lemma trimmed_no_newline_end (s : str) (a : str) : trimmed s -> s <> a ++ ["010"].
Proof.
  intros [_ H] ->. rewrite rev_app_distr in H. simpl in H.
  vm_compute in H. discriminate.
Qed.

Lemma ends_nl_app (a b : str) :
  (exists u, b = u ++ ["010"]) -> exists u, a ++ b = u ++ ["010"].
Proof. intros (u & ->). exists (a ++ u). apply app_assoc. Qed.

Lemma ends_nl_cons (c : ascii) (b : str) :
  (exists u, b = u ++ ["010"]) -> exists u, c :: b = u ++ ["010"].
Proof. intros (u & ->). exists (c :: u). reflexivity. Qed.

Ltac ends_nl :=
  repeat first [ (exists []; reflexivity) | apply ends_nl_cons | apply ends_nl_app ].

Lemma trimmed_not_ends_nl (s : str) :
  trimmed s -> ~ exists u, s = u ++ ["010"].
Proof. intros H (u & E). exact (trimmed_no_newline_end s u H E). Qed.

Lemma not_comma_Forall (l : str) :
  forallb (fun c => negb (chr_eqb c ",")) l = true ->
  Forall (fun c => c <> ",") l.
Proof.
  intros H. apply List.Forall_forall. intros x Hx.
  rewrite List.forallb_forall in H. specialize (H x Hx).
  apply negb_true_iff, chr_eqb_false in H. assumption.
Qed.

Lemma space_Forall_not_comma (l : str) :
  forallb py_isspace l = true -> Forall (fun c => c <> ",") l.
Proof.
  intros H. apply List.Forall_forall. intros x Hx.
  rewrite List.forallb_forall in H. apply space_not_comma. auto.
Qed.

(** Where [CITY_STATE_RE] matches a stripped address, the address ends
    in the pattern. *)
Lemma city_state_match_sound (addr : str) (x : res) :
  search CITY_STATE_RE (py_strip addr) = Some x -> ends_city_state addr.
Proof.
  unfold search. intros H.
  apply search_from_some in H as (before & prev' & s' & Hs & Hin).
  destruct x as [[m caps] t].
  cbv [CITY_STATE_RE Opt Plus Rep Chr ws digit] in Hin.
  inv_re Hin;
    repeat match goal with
           | H : chr_eqb "," _ = true |- _ => apply chr_eqb_true in H; subst
           end;
    match goal with
    | Hend : _ = [] \/ _ = ["010"] |- _ => destruct Hend as [->| ->]
    end;
    try solve [ exfalso; apply (trimmed_not_ends_nl _ (py_strip_trimmed addr));
                rewrite Hs; ends_nl ].
  - (* with a postal code *)
    unfold ends_city_state.
    match type of Hs with
    | _ = before ++ _ :: ?w1 ++ ?x1 :: ?m1 ++ _ :: ?w2 ++ ?l1 :: ?l2 :: _ :: ?w3
            ++ ?d1 :: ?d2 :: ?d3 :: ?d4 :: ?d5 :: [] =>
        exists before, (w1 ++ x1 :: m1), w2, [l1; l2],
               ([","] ++ w3 ++ [d1; d2; d3; d4; d5])
    end.
    repeat split.
    + rewrite Hs. repeat (simpl; rewrite <- ?app_assoc). reflexivity.
    + intros E. apply app_eq_nil in E as [_ E]. discriminate.
    + apply Forall_app. split; [apply space_Forall_not_comma; assumption|].
      constructor; [|apply not_comma_Forall; assumption].
      match goal with
      | Hn : negb (chr_eqb _ ",") = true |- _ =>
          apply negb_true_iff, chr_eqb_false in Hn; exact Hn
      end.
    + apply forallb_Forall_true. assumption.
    + repeat constructor; assumption.
    + right. eexists _, _. repeat split.
      * apply forallb_Forall_true. assumption.
      * repeat constructor; assumption.
  - (* without *)
    unfold ends_city_state.
    match type of Hs with
    | _ = before ++ _ :: ?w1 ++ ?x1 :: ?m1 ++ _ :: ?w2 ++ ?l1 :: ?l2 :: [] =>
        exists before, (w1 ++ x1 :: m1), w2, [l1; l2], []
    end.
    repeat split.
    + rewrite Hs. repeat (simpl; rewrite <- ?app_assoc). reflexivity.
    + intros E. apply app_eq_nil in E as [_ E]. discriminate.
    + apply Forall_app. split; [apply space_Forall_not_comma; assumption|].
      constructor; [|apply not_comma_Forall; assumption].
      match goal with
      | Hn : negb (chr_eqb _ ",") = true |- _ =>
          apply negb_true_iff, chr_eqb_false in Hn; exact Hn
      end.
    + apply forallb_Forall_true. assumption.
    + repeat constructor; assumption.
    + left. reflexivity.
Qed.

Lemma location_segment_shape (name loc : str) :
  forallb not_underscore name = true ->
  location_segment (BASE_URL ++ name ++ ["_"] ++ loc) = loc.
Proof.
  intros H. unfold location_segment. rewrite skipn_base.
  change (["_"] ++ loc) with ("_" :: loc).
  rewrite span_stop; [reflexivity | assumption | reflexivity].
Qed.

Lemma after_final_underscore_end (u : str) :
  after_final_underscore (u ++ ["_"]) = [].
Proof. unfold after_final_underscore. rewrite rev_app_distr. reflexivity. Qed.

Lemma py_or_str (a : str) : py_or (PyStr a) (PyStr []) = PyStr a.
Proof. destruct a; reflexivity. Qed.

Lemma slug_none_without_pattern (addr : str) :
  ~ ends_city_state addr -> to_city_state_slug (PyStr addr) = None.
Proof.
  intros Hn. unfold to_city_state_slug.
  destruct (search CITY_STATE_RE (py_strip addr)) as [x|] eqn:E; [|reflexivity].
  exfalso. apply Hn. eapply city_state_match_sound. eassumption.
Qed.

(** C7. When no postal code is supplied and the address (blanks at its
    ends aside) does not end in [", City, ST"] or [", City, ST, ZIP"],
    [build_fps_url] still returns a URL, and the location segment of that
    URL, the part after its final underscore, is empty. *)
Theorem build_fps_url_empty_location
    (first last : option str) (addr : str) (zip_code : pyval) :
  postal_code_given zip_code = false ->
  ~ ends_city_state addr ->
  after_final_underscore (build_fps_url first last (PyStr addr) zip_code) = []
  /\ location_segment (build_fps_url first last (PyStr addr) zip_code) = []
  /\ valid_https_url (build_fps_url first last (PyStr addr) zip_code) = true.
Proof.
  intros Hz Hn.
  split; [|split; [|apply build_fps_url_valid]];
    rewrite build_fps_url_shape; unfold chosen_location;
    rewrite Hz, py_or_str, (slug_none_without_pattern addr Hn); cbn [or_empty quote_plus flat_map].
  - rewrite app_nil_r, !app_assoc. apply after_final_underscore_end.
  - apply location_segment_shape, name_not_underscore.
Qed.

Lemma no_comma_no_pattern (addr : str) :
  ~ In "," (py_strip addr) -> ~ ends_city_state addr.
Proof.
  intros Hn (before & city & sp & st & zip & E & _). apply Hn. rewrite E.
  apply in_or_app. right. simpl. auto.
Qed.

Lemma build_fps_url_empty_location_witness :
  after_final_underscore
    (build_fps_url (Some (lit "John")) (Some (lit "Smith"))
       (PyStr (lit "12 Main St")) PyNone) = []
  /\ location_segment
       (build_fps_url (Some (lit "John")) (Some (lit "Smith"))
          (PyStr (lit "12 Main St")) PyNone) = []
  /\ valid_https_url
       (build_fps_url (Some (lit "John")) (Some (lit "Smith"))
          (PyStr (lit "12 Main St")) PyNone) = true.
Proof.
  apply (build_fps_url_empty_location (Some (lit "John")) (Some (lit "Smith"))
           (lit "12 Main St") PyNone).
  - reflexivity.
  - apply no_comma_no_pattern. vm_compute. intuition discriminate.
Defined.



(** The converse: the matcher finds the pattern wherever it is. *)

Lemma star_iter_cls_complete (p : ascii -> bool) (g : bool) (m t : str) :
  forallb p m = true ->
  forall k prev, length m <= k ->
    In (m, [], t) (star_iter (matches (Cls p)) g k prev (m ++ t)).
Proof.
  induction m as [|x m IH]; intros Hall k prev Hk.
  - destruct k; cbn [star_iter app]; [left; reflexivity|].
    destruct g; [apply in_or_app; right|]; left; reflexivity.
  - destruct k as [|k]; [simpl in Hk; lia|].
    simpl in Hall. apply andb_prop in Hall as [Hx Hall].
    cbn [star_iter].
    assert (Hmore :
      In (x :: m, [], t)
         (flat_map (fun r1 : res =>
            match r1 with
            | ([], _, _) => []
            | (m1, c1, t1) =>
                map (extend m1 c1)
                  (star_iter (matches (Cls p)) g k (last_chr m1 prev) t1)
            end) (matches (Cls p) prev ((x :: m) ++ t)))).
    { apply in_flat_map. exists ([x], [], m ++ t). split.
      - apply matches_cls. exists x. auto.
      - apply in_map_iff. exists (m, [], t). split; [reflexivity|].
        apply IH; [assumption|]. simpl in Hk. lia. }
    destruct g; [apply in_or_app; left|right]; exact Hmore.
Qed.

Lemma matches_star_cls_complete (p : ascii -> bool) (g : bool) prev (m t : str) :
  forallb p m = true -> In (m, [], t) (matches (Star g (Cls p)) prev (m ++ t)).
Proof.
  intros H.
  exact (star_iter_cls_complete p g m t H (S (length (m ++ t))) prev
           ltac:(rewrite length_app; lia)).
Qed.

Lemma search_from_complete (r : regex) (before s' : str) :
  (forall prev, matches r prev s' <> []) ->
  forall prev, search_from r prev (before ++ s') <> None.
Proof.
  intros Hm. induction before as [|c before IH]; intros prev.
  - cbn [app]. specialize (Hm prev).
    destruct s'; simpl; destruct (matches r prev _); congruence.
  - cbn [app search_from].
    destruct (matches r prev (c :: before ++ s')); [apply IH|discriminate].
Qed.

Lemma Forall_forallb_true {A} (p : A -> bool) (l : list A) :
  Forall (fun c => p c = true) l -> forallb p l = true.
Proof.
  intros H. apply List.forallb_forall. rewrite List.Forall_forall in H. exact H.
Qed.

Ltac by_seq :=
  apply (proj2 (matches_seq _ _ _ _ _ _ _)); do 5 eexists;
  split; [|split; [|split; reflexivity]].

Ltac by_chr := apply (proj2 (matches_cls _ _ _ _ _ _)); eexists; repeat split; auto.

(** Where the stripped address ends in the pattern, [CITY_STATE_RE] matches. *)
Lemma city_state_match_complete (addr : str) :
  ends_city_state addr -> search CITY_STATE_RE (py_strip addr) <> None.
Proof.
  intros (before & city & sp & st & zip & -> & Hne & Hcity & Hsp & Hst & Hlet & Hzip).
  unfold search. apply search_from_complete. intros prev.
  destruct city as [|c0 city]; [congruence|]. clear Hne.
  apply List.Forall_cons_iff in Hcity as [Hc0 Hcity].
  destruct st as [|l1 [|l2 [|? ?]]]; try discriminate. clear Hst.
  apply List.Forall_cons_iff in Hlet as [Hl1 Hlet].
  apply List.Forall_cons_iff in Hlet as [Hl2 _].
  assert (Hnc : forallb (fun c => negb (chr_eqb c ",")) city = true).
  { apply List.forallb_forall. intros x Hx. rewrite List.Forall_forall in Hcity.
    apply negb_true_iff, chr_eqb_false. auto. }
  assert (Hnc0 : negb (chr_eqb c0 ",") = true)
    by (apply negb_true_iff, chr_eqb_false; assumption).
  apply Forall_forallb_true in Hsp.
  assert (Hzip' : exists z, In z (matches
            (Seq (Opt (Seq (Chr ",") (Seq (Star true ws) (Rep 5 digit)))) Eos)
            (Some l2) zip)).
  { destruct Hzip as [->|(sp' & ds & -> & Hsp' & Hds & Hdig)].
    - eexists (_, _, _). by_seq.
      + apply matches_alt. right. apply matches_eps. auto.
      + apply matches_eos. auto.
    - apply Forall_forallb_true in Hsp', Hdig.
      destruct ds as [|d1 [|d2 [|d3 [|d4 [|d5 [|? ?]]]]]]; try discriminate.
      simpl in Hdig.
      repeat match type of Hdig with
             | _ && _ = true => apply andb_prop in Hdig as [? Hdig]
             end.
      eexists (_, _, _). by_seq.
      + apply matches_alt. left. cbv [Rep].
        by_seq; [by_chr; apply chr_eqb_refl|].
        by_seq; [apply (matches_star_cls_complete py_isspace true _ sp'); assumption|].
        by_seq; [by_chr|]. by_seq; [by_chr|]. by_seq; [by_chr|].
        by_seq; [by_chr|]. by_chr.
      + apply matches_eos. auto. }
  destruct Hzip' as ([[mz cz] tz] & Hz).
  intros E.
  assert (Hin : In ([","] ++ [] ++ ([c0] ++ city) ++ [","] ++ sp ++ ([l1] ++ [l2]) ++ mz,
                    [] ++ [] ++ (([] ++ []) ++ [(1, [c0] ++ city)]) ++ [] ++ []
                       ++ (([] ++ []) ++ [(2, [l1] ++ [l2])]) ++ cz, tz)
                   (matches CITY_STATE_RE prev
                      ([","] ++ (c0 :: city) ++ [","] ++ sp ++ [l1; l2] ++ zip))).
  { unfold CITY_STATE_RE. cbv [Plus Rep].
    by_seq; [by_chr; apply chr_eqb_refl|].
    by_seq; [apply (matches_star_cls_complete py_isspace true _ []); reflexivity|].
    by_seq.
    { apply matches_grp. eexists. split; [|reflexivity].
      by_seq; [by_chr|].
      apply (matches_star_cls_complete _ true _ city). assumption. }
    by_seq; [by_chr; apply chr_eqb_refl|].
    by_seq; [apply (matches_star_cls_complete py_isspace true _ sp); assumption|].
    by_seq.
    { apply matches_grp. eexists. split; [|reflexivity].
      by_seq; by_chr. }
    exact Hz. }
  rewrite E in Hin. destruct Hin.
Qed.

(** X1. [to_city_state_slug] returns [None] exactly for the addresses
    that, blanks at their ends aside, do not end in [", City, ST"] or in
    [", City, ST, ZIP"]. *)
Lemma to_city_state_slug_none_iff (addr : str) :
  to_city_state_slug (PyStr addr) = None <-> ~ ends_city_state addr.
Proof.
  split.
  - intros H Hends. apply city_state_match_complete in Hends.
    unfold to_city_state_slug in H.
    destruct (search CITY_STATE_RE (py_strip addr)) as [[[m c] t]|]; [discriminate|].
    congruence.
  - apply slug_none_without_pattern.
Qed.

(** ** Phone numbers *)

Lemma digit_not_space (c : ascii) : is_digit c = true -> py_isspace c = false.
Proof. ascii_cases c; vm_compute; congruence. Qed.

Lemma sep_not_digit (c : ascii) : phone_sep c = true -> is_digit c = false.
Proof. ascii_cases c; vm_compute; congruence. Qed.

Lemma digits_sub (raw : str) :
  sub (Cls (fun c => negb (is_digit c))) [] raw = digits_of raw.
Proof.
  rewrite sub_cls. unfold digits_of. apply filter_ext.
  intros c. apply negb_involutive.
Qed.

(** What [_normalize_phone] computes, by the number of digits of its input. *)
Lemma _normalize_phone_cases (raw : str) :
  (length (digits_of raw) = 10 -> _normalize_phone raw = canonical (digits_of raw))
  /\ (length (digits_of raw) = 11 -> starts_with (lit "1") (digits_of raw) = true ->
      _normalize_phone raw = canonical (skipn 1 (digits_of raw)))
  /\ (reducible raw = false -> _normalize_phone raw = py_strip raw).
Proof.
  unfold _normalize_phone, reducible. rewrite digits_sub.
  repeat split.
  - intros H. rewrite H. cbn [Nat.eqb andb]. rewrite H. reflexivity.
  - intros H H1. rewrite H, H1. cbn [Nat.eqb andb].
    assert (L : length (skipn 1 (digits_of raw)) = 10) by (rewrite length_skipn; lia).
    rewrite L. reflexivity.
  - intros H. apply orb_false_elim in H as [H10 H11].
    destruct (Nat.eqb (length (digits_of raw)) 11 && starts_with (lit "1") (digits_of raw)) eqn:E.
    + congruence.
    + rewrite H10. reflexivity.
Qed.

Lemma ten_chars (d : str) :
  length d = 10 ->
  exists a b c e f g h i j k, d = [a; b; c; e; f; g; h; i; j; k].
Proof.
  intros H.
  do 10 (destruct d as [|? d]; [discriminate|]).
  destruct d; [|discriminate]. eauto 12.
Qed.

Lemma canonical_is_canonical (d : str) :
  length d = 10 -> forallb is_digit d = true ->
  is_canonical_phone (canonical d) = true.
Proof.
  intros H Hd. destruct (ten_chars d H) as (a & b & c & e & f & g & h & i & j & k & ->).
  exact Hd.
Qed.

Lemma digits_of_all (d : str) : forallb is_digit d = true -> digits_of d = d.
Proof.
  unfold digits_of. induction d as [|c d IH]; simpl; [reflexivity|].
  intros H. apply andb_prop in H as [-> H]. f_equal. auto.
Qed.

Lemma digits_of_canonical (d : str) :
  length d = 10 -> forallb is_digit d = true -> digits_of (canonical d) = d.
Proof.
  intros H Hd. destruct (ten_chars d H) as (a & b & c & e & f & g & h & i & j & k & ->).
  simpl in Hd.
  repeat match type of Hd with
         | _ && _ = true => apply andb_prop in Hd as [? Hd]
         end.
  unfold digits_of, canonical, slice. cbn [lit list_ascii_of_string app firstn skipn Nat.sub List.filter].
  repeat match goal with
         | H : is_digit ?x = true |- _ => rewrite H; clear H
         end.
  reflexivity.
Qed.

(** C8. For every ten digits, [_normalize_phone] maps the canonical string
    [(NNN) NNN-NNNN] made of them to itself. *)
Theorem _normalize_phone_canonical_fixed (d : str) :
  length d = 10 ->
  forallb is_digit d = true ->
  _normalize_phone (canonical d) = canonical d.
Proof.
  intros H Hd.
  destruct (_normalize_phone_cases (canonical d)) as (H10 & _).
  rewrite H10; rewrite digits_of_canonical; auto.
Qed.

Lemma _normalize_phone_canonical_fixed_witness :
  _normalize_phone (lit "(212) 555-0187") = lit "(212) 555-0187".
Proof.
  apply (_normalize_phone_canonical_fixed (lit "2125550187")); reflexivity.
Defined.

Lemma canonical_shape (p : str) :
  is_canonical_phone p = true ->
  exists d, length d = 10 /\ forallb is_digit d = true /\ p = canonical d.
Proof.
  intros H. unfold is_canonical_phone in H.
  destruct p as [|op [|a [|b [|c [|cl [|sp [|d [|e [|f [|da [|g [|h [|i [|j [|? ?]]]]]]]]]]]]]]];
    try discriminate.
  apply andb_prop in H as [H Hd].
  apply andb_prop in H as [H H4]. apply andb_prop in H as [H H3].
  apply andb_prop in H as [H1 H2].
  apply chr_eqb_true in H1, H2, H3, H4. subst.
  exists [a; b; c; d; e; f; g; h; i; j]. repeat split. exact Hd.
Qed.

Lemma paren_not_digit (k x : ascii) :
  is_digit k = false -> chr_eqb k x = true -> is_digit x = false.
Proof. intros Hk H. apply chr_eqb_true in H. subst. assumption. Qed.

Lemma digits_of_app (a b : str) : digits_of (a ++ b) = digits_of a ++ digits_of b.
Proof. apply List.filter_app. Qed.

Ltac phone_chars :=
  repeat match goal with
         | H : chr_eqb "1" ?x = true |- _ => apply chr_eqb_true in H; subst x
         | H : chr_eqb ?k ?x = true |- _ =>
             apply (paren_not_digit k x eq_refl) in H
         | H : phone_sep ?x = true |- _ => apply sep_not_digit in H
         end;
  unfold digits_of; cbn [app List.filter];
  repeat match goal with
         | H : is_digit ?x = _ |- _ => rewrite H
         end.

(** The three parts of [PHONE_RE]: the country prefix, the area code, the
    seven digits. *)
Lemma phone_prefix_digits prev s m c t :
  In (m, c, t)
     (matches (Opt (Seq (Chr "+") (Seq (Chr "1") (Opt (Cls phone_sep))))) prev s) ->
  digits_of m = [] \/ digits_of m = ["1"].
Proof.
  intros Hin. cbv [Opt Chr] in Hin.
  inv_re Hin; phone_chars; auto.
Qed.

Lemma phone_area_digits prev s m c t :
  In (m, c, t)
     (matches (Seq (Opt (Chr "("))
              (Seq (Rep 3 digit) (Seq (Opt (Chr ")")) (Opt (Cls phone_sep)))))
        prev s) ->
  length (digits_of m) = 3.
Proof.
  intros Hin. cbv [Opt Chr Rep digit] in Hin.
  inv_re Hin; phone_chars; reflexivity.
Qed.

Lemma phone_local_digits prev s m c t :
  In (m, c, t)
     (matches (Seq (Rep 3 digit) (Seq (Opt (Cls phone_sep)) (Rep 4 digit))) prev s) ->
  length (digits_of m) = 7.
Proof.
  intros Hin. cbv [Opt Chr Rep digit] in Hin.
  inv_re Hin; phone_chars; reflexivity.
Qed.

(** Every text that [PHONE_RE] matches has ten digits, or eleven with a
    leading 1. *)
Lemma phone_match_reducible prev s m c t :
  In (m, c, t) (matches PHONE_RE prev s) -> reducible m = true.
Proof.
  intros Hin. unfold PHONE_RE in Hin.
  apply (proj1 (matches_seq _ _ _ _ _ _ _)) in Hin.
  destruct Hin as (m1 & c1 & t1 & m' & c' & H1 & Hin & -> & ->).
  apply (proj1 (matches_seq _ _ _ _ _ _ _)) in Hin.
  destruct Hin as (m2 & c2 & t2 & m3 & c3 & H2 & H3 & -> & ->).
  apply phone_prefix_digits in H1.
  apply phone_area_digits in H2.
  apply phone_local_digits in H3.
  unfold reducible. rewrite !digits_of_app.
  destruct H1 as [-> | ->].
  - cbn [app]. rewrite length_app, H2, H3. reflexivity.
  - cbn [app length starts_with lit list_ascii_of_string].
    rewrite length_app, H2, H3. reflexivity.
Qed.

Lemma reducible_normalized (raw : str) :
  reducible raw = true -> is_canonical_phone (_normalize_phone raw) = true.
Proof.
  intros H. unfold reducible in H.
  destruct (_normalize_phone_cases raw) as (H10 & H11 & _).
  assert (Hd : forallb is_digit (digits_of raw) = true) by apply forallb_filter_same.
  apply orb_prop in H as [H|H].
  - apply Nat.eqb_eq in H. rewrite (H10 H). apply canonical_is_canonical; assumption.
  - apply andb_prop in H as [H H1]. apply Nat.eqb_eq in H. rewrite (H11 H H1).
    apply canonical_is_canonical.
    + rewrite length_skipn. lia.
    + destruct (digits_of raw) as [|x d]; [discriminate|].
      simpl in Hd. apply andb_prop in Hd as [_ Hd]. exact Hd.
Qed.

Lemma trimmed_canonical_chars (a b c e f g h i j k : ascii) :
  is_digit k = true ->
  trimmed ["("; a; b; c; ")"; " "; e; f; g; "-"; h; i; j; k].
Proof.
  intros Hk. split.
  - reflexivity.
  - cbn [rev app]. apply digit_not_space. exact Hk.
Qed.

Lemma canonical_trimmed (p : str) : is_canonical_phone p = true -> py_strip p = p.
Proof.
  intros H. destruct (canonical_shape p H) as (d & Hl & Hd & ->).
  destruct (ten_chars d Hl) as (a & b & c & e & f & g & h & i & j & k & ->).
  apply py_strip_fixed.
  apply (trimmed_canonical_chars a b c e f g h i j k).
  cbn [forallb] in Hd.
  repeat match type of Hd with
         | _ && _ = true => apply andb_prop in Hd as [? Hd]
         end.
  match goal with H : is_digit k = true |- _ => exact H end.
Qed.

(** ** [_dedupe_preserve_order] *)

Lemma dedupe_fold (items : list str) (seen : gset str) (out : list str) :
  NoDup out -> (forall x, x ∈ seen <-> In x out) ->
  let r := fold_left dedupe_step items (seen, out) in
  NoDup (snd r)
  /\ (forall x, x ∈ fst r <-> In x (snd r))
  /\ (forall x, In x (snd r) ->
        In x out \/ exists y, In y items /\ x = py_strip y /\ x <> []).
Proof.
  revert seen out. induction items as [|it items IH]; intros seen out Hnd Hseen.
  - simpl. auto.
  - cbv zeta. cbn [fold_left].
    destruct (truthy (py_strip it) && negb (bool_decide (py_strip it ∈ seen))) eqn:E.
    + assert (Hstep : dedupe_step (seen, out) it
                      = (seen ∪ {[py_strip it]}, out ++ [py_strip it]))
        by (unfold dedupe_step; rewrite E; reflexivity).
      rewrite Hstep. clear Hstep.
      apply andb_prop in E as [Ht Hn].
      apply negb_true_iff, bool_decide_eq_false in Hn.
      assert (Hnd' : NoDup (out ++ [py_strip it])).
      { apply NoDup_app. split; [assumption|]. split.
        - intros x Hx Hx'. apply list_elem_of_singleton in Hx'. subst x.
          apply Hn. apply Hseen. apply (proj1 (list_elem_of_In _ _)). exact Hx.
        - apply NoDup_singleton. }
      assert (Hseen' : forall x, x ∈ seen ∪ {[py_strip it]} <-> In x (out ++ [py_strip it])).
      { intros x. rewrite elem_of_union, elem_of_singleton, in_app_iff, Hseen.
        simpl. intuition. }
      destruct (IH _ _ Hnd' Hseen') as (H1 & H2 & H3).
      split; [assumption|]. split; [assumption|].
      intros x Hx. destruct (H3 x Hx) as [Hin|(y & Hy & -> & Hne)].
      * apply in_app_or in Hin as [Hin|[<-|[]]]; [auto|].
        right. exists it. split; [left; reflexivity|]. split; [reflexivity|].
        apply truthy_true. assumption.
      * right. exists y. split; [right; assumption|]. auto.
    + assert (Hstep : dedupe_step (seen, out) it = (seen, out))
        by (unfold dedupe_step; rewrite E; reflexivity).
      rewrite Hstep. clear Hstep.
      destruct (IH _ _ Hnd Hseen) as (H1 & H2 & H3).
      split; [assumption|]. split; [assumption|].
      intros x Hx. destruct (H3 x Hx) as [Hin|(y & Hy & -> & Hne)]; [auto|].
      right. exists y. split; [right; assumption|]. auto.
Qed.

Lemma _dedupe_preserve_order_NoDup (items : list str) :
  NoDup (_dedupe_preserve_order items).
Proof.
  unfold _dedupe_preserve_order.
  apply (dedupe_fold items ∅ []); [constructor|].
  intros x. split; [intros H; exfalso; set_solver|intros []].
Qed.

Lemma _dedupe_preserve_order_in (items : list str) (x : str) :
  In x (_dedupe_preserve_order items) ->
  exists y, In y items /\ x = py_strip y /\ x <> [].
Proof.
  unfold _dedupe_preserve_order. intros H.
  destruct (dedupe_fold items ∅ []) as (_ & _ & H3); [constructor| |].
  - intros y. split; [intros Hy; exfalso; set_solver|intros []].
  - destruct (H3 x H) as [[]|?]. assumption.
Qed.

Lemma NoDup_firstn {A} (n : nat) (l : list A) : NoDup l -> NoDup (firstn n l).
Proof. intros H. exact (sublist_NoDup _ _ H (sublist_take l n)). Qed.

Lemma In_firstn {A} (n : nat) (l : list A) (x : A) : In x (firstn n l) -> In x l.
Proof.
  revert l. induction n as [|n IH]; intros [|a l]; simpl; try tauto.
  intros [H|H]; auto.
Qed.

Lemma digits_of_blank (w : str) : forallb py_isspace w = true -> digits_of w = [].
Proof.
  unfold digits_of. induction w as [|c w IH]; simpl; [reflexivity|].
  intros H. apply andb_prop in H as [Hc Hw].
  destruct (is_digit c) eqn:E; [|auto].
  apply digit_not_space in E. congruence.
Qed.

Lemma digits_of_strip (s : str) : digits_of (py_strip s) = digits_of s.
Proof.
  unfold py_strip.
  destruct (lstrip_split s) as (w & Hw & Hall).
  destruct (rstrip_split (lstrip s)) as (w' & Hw' & Hall').
  rewrite Hw at 2. rewrite Hw' at 2.
  rewrite !digits_of_app, (digits_of_blank w Hall), (digits_of_blank w' Hall').
  rewrite app_nil_r. reflexivity.
Qed.

(** Normalising twice is normalising once, for every input. *)
Lemma _normalize_phone_idempotent (raw : str) :
  _normalize_phone (_normalize_phone raw) = _normalize_phone raw.
Proof.
  destruct (reducible raw) eqn:E.
  - pose proof (reducible_normalized raw E) as Hc.
    destruct (canonical_shape _ Hc) as (d & Hl & Hd & ->).
    destruct (_normalize_phone_cases (canonical d)) as (H10 & _).
    rewrite H10; rewrite digits_of_canonical; auto.
  - destruct (_normalize_phone_cases raw) as (_ & _ & H). rewrite (H E).
    destruct (_normalize_phone_cases (py_strip raw)) as (_ & _ & H').
    rewrite H'; [apply py_strip_idem|].
    unfold reducible in *. rewrite digits_of_strip. exact E.
Qed.

(** ** Detail pages *)

Section DetailPages.

Variable html_parser : str -> soup.

Lemma edge_phone_candidates_reducible (html current_url p : str) :
  In p (phones (Edge._parse_detail_page_html_to_data html_parser html current_url)) ->
  exists raw, reducible raw = true /\ p = py_strip (_normalize_phone raw).
Proof.
  unfold Edge._parse_detail_page_html_to_data.
  destruct (negb (truthy html)); [intros []|].
  cbv zeta. cbn [phones]. intros H.
  apply In_firstn in H.
  apply _dedupe_preserve_order_in in H as (y & Hy & -> & _).
  apply in_map_iff in Hy as (raw & <- & Hraw).
  exists raw. split; [|reflexivity].
  assert (Hfind : forall l x,
    In x (flat_map (fun a => findall PHONE_RE (Edge.link_text_or_href a)) l) ->
    reducible x = true).
  { intros l x Hx. apply in_flat_map in Hx as (a & _ & Hx).
    apply findall_in in Hx as (prev' & s' & c & t & Hm).
    eapply phone_match_reducible; eassumption. }
  match type of Hraw with
  | In _ (if ?b then _ else _) => destruct b
  end.
  - apply in_app_or in Hraw as [Hraw|Hraw]; [eapply Hfind; eassumption|].
    apply findall_in in Hraw as (prev' & s' & c & t & Hm).
    eapply phone_match_reducible; eassumption.
  - eapply Hfind; eassumption.
Qed.

Lemma edge_phones_canonical (html current_url p : str) :
  In p (phones (Edge._parse_detail_page_html_to_data html_parser html current_url)) ->
  is_canonical_phone p = true.
Proof.
  intros H. apply edge_phone_candidates_reducible in H as (raw & Hr & ->).
  pose proof (reducible_normalized raw Hr) as Hc.
  rewrite (canonical_trimmed _ Hc). exact Hc.
Qed.

Lemma edge_extraction_bounds (html current_url : str) :
  let d := Edge._parse_detail_page_html_to_data html_parser html current_url in
  length (phones d) <= 5 /\ NoDup (phones d) /\ NoDup (emails d)
  /\ NoDup (relatives d).
Proof.
  unfold Edge._parse_detail_page_html_to_data.
  destruct (negb (truthy html)).
  - cbn. repeat split; try constructor. lia.
  - cbv zeta. cbn [phones emails relatives]. repeat split.
    + rewrite length_firstn. lia.
    + apply NoDup_firstn, _dedupe_preserve_order_NoDup.
    + apply _dedupe_preserve_order_NoDup.
    + apply _dedupe_preserve_order_NoDup.
Qed.

Lemma chrome_phones_bound (html current_url : str) :
  length (phones (Chrome._parse_detail_page_html_to_data html_parser html current_url)) <= 5.
Proof.
  unfold Chrome._parse_detail_page_html_to_data.
  destruct (negb (truthy html)).
  - cbn. lia.
  - cbv zeta. cbn [phones]. rewrite length_map, length_firstn. lia.
Qed.

End DetailPages.

(** C6. [_normalize_phone] keeps only the digits of its input; with ten
    digits, or with eleven of which the first is 1 and is dropped, it
    renders them as [(NNN) NNN-NNNN]; and no entry of the [phones] that
    [_parse_detail_page_html_to_data] returns is anything else than such a
    canonical number: a candidate that does not reduce to ten digits never
    reaches the extraction result. *)
Theorem phone_normalization (raw : str) :
  (length (digits_of raw) = 10 ->
     _normalize_phone raw = canonical (digits_of raw))
  /\ (length (digits_of raw) = 11 -> starts_with (lit "1") (digits_of raw) = true ->
     _normalize_phone raw = canonical (skipn 1 (digits_of raw)))
  /\ (reducible raw = true -> is_canonical_phone (_normalize_phone raw) = true)
  /\ (forall (html_parser : str -> soup) (html current_url p : str),
        In p (phones (Edge._parse_detail_page_html_to_data html_parser html current_url)) ->
        is_canonical_phone p = true
        /\ exists candidate, reducible candidate = true
                             /\ p = _normalize_phone candidate).
Proof.
  destruct (_normalize_phone_cases raw) as (H10 & H11 & _).
  repeat split; auto.
  - apply reducible_normalized.
  - eapply edge_phones_canonical; eassumption.
  - apply edge_phone_candidates_reducible in H as (c & Hc & ->).
    exists c. split; [assumption|].
    apply canonical_trimmed, reducible_normalized. assumption.
Qed.

Lemma phone_normalization_witness :
  _normalize_phone (lit "+1 212.555.0187") = lit "(212) 555-0187".
Proof.
  destruct (phone_normalization (lit "+1 212.555.0187")) as (_ & H & _).
  rewrite H; reflexivity.
Defined.

(** C2, as the two scrapers have it. In [fps_scraper_edge.py] the result of
    [_parse_detail_page_html_to_data] holds at most five phone numbers and
    its phones, e-mails and relatives hold no entry twice. In
    [fps_scraper_chrome.py] the result holds at most five phone numbers. *)
Theorem extraction_bounds (html_parser : str -> soup) (html current_url : str) :
  (let d := Edge._parse_detail_page_html_to_data html_parser html current_url in
   length (phones d) <= 5 /\ NoDup (phones d) /\ NoDup (emails d)
   /\ NoDup (relatives d))
  /\ length (phones (Chrome._parse_detail_page_html_to_data html_parser html current_url)) <= 5.
Proof.
  split; [apply edge_extraction_bounds | apply chrome_phones_bound].
Qed.

(** C1, as the two scrapers have it. A page that [is_cloudflare_challenge]
    classifies as a challenge is rejected by [is_detail_page_html] of
    [fps_scraper_edge.py]; in [fps_scraper_chrome.py] it is
    [scrape_current_page] that rejects it, before [is_detail_page_html]
    is asked: it returns no data for such a page. *)
Theorem challenge_never_accepted (html_parser : str -> soup) (html : str) :
  is_cloudflare_challenge html = true ->
  Edge.is_detail_page_html html_parser html = false
  /\ forall (browser : Type) (page_source : browser -> str)
            (current_url : browser -> option str)
            (click_cookie_banner : browser -> browser) (driver : browser),
       page_source driver = html ->
       fst (fst (Chrome.scrape_current_page html_parser browser page_source
                   current_url click_cookie_banner driver)) = None.
Proof.
  intros Hc. split.
  - unfold Edge.is_detail_page_html. rewrite Hc.
    destruct (negb (truthy html)); reflexivity.
  - intros browser page_source current_url click driver Hp.
    unfold Chrome.scrape_current_page. rewrite Hp, Hc. reflexivity.
Qed.

Lemma challenge_never_accepted_witness :
  Edge.is_detail_page_html HtmlLite.parse
    (lit "<h1>Just a moment...</h1><a href='tel:2125550187'>(212) 555-0187</a>")
  = false.
Proof.
  apply (challenge_never_accepted HtmlLite.parse
           (lit "<h1>Just a moment...</h1><a href='tel:2125550187'>(212) 555-0187</a>")).
  reflexivity.
Defined.

(** The page of [page_with_vendor_script] is a challenge for
    [is_cloudflare_challenge], and [is_detail_page_html] of
    [fps_scraper_chrome.py] accepts it. *)
Lemma chrome_detail_check_accepts_challenge :
  is_cloudflare_challenge page_with_vendor_script = true
  /\ Chrome.is_detail_page_html HtmlLite.parse page_with_vendor_script = true.
Proof. split; vm_compute; reflexivity. Qed.

(** On [page_with_repeats] the parser of [fps_scraper_chrome.py] returns
    the phone number twice, and the relative twice. *)
Lemma chrome_extraction_repeats :
  let d := Chrome._parse_detail_page_html_to_data HtmlLite.parse
             page_with_repeats (lit "https://www.fastpeoplesearch.com/john-smith_id1") in
  ~ (length (phones d) <= 5 /\ NoDup (phones d) /\ NoDup (emails d)
     /\ NoDup (relatives d)).
Proof.
  intros d (_ & H & _).
  assert (E : phones d = [lit "(212) 555-0187"; lit "(212) 555-0187"])
    by (vm_compute; reflexivity).
  rewrite E in H. inversion H as [|x l Hn _]. apply Hn. constructor.
Qed.

(** ** Ranking the candidates *)






(** ** The loop of [main] *)

Section BatchRun.

Import Batch.

Variable browser : Type.
Variable html_parser : str -> soup.
Variable ops : driver_ops browser.
Variable path : str.

Abbreviation auto := (do_record_auto browser html_parser ops).
Abbreviation step := (process_record browser html_parser ops path).
Abbreviation steps := (process_rows browser html_parser ops path).

Abbreviation fs_after_body := (Batch.fs_after_body browser ops path).

Lemma do_record_auto_counter first last address zip_code g b data gc flag b' :
  auto first last address zip_code g b = (inr (data, gc, flag), b') ->
  g <= gc <= g + 1.
Proof.
  intros H. unfold do_record_auto, bind, ret in H. cbv zeta in H.
  repeat match type of H with
         | context [match ?x with _ => _ end] => destruct x eqn:?; try discriminate
         end;
    inversion H; subst; lia.
Qed.

Lemma finish_record_spec idx data (s : state browser) :
  let s' := finish_record browser ops path idx data s in
  gate_counter browser s' = gate_counter browser s
  /\ st_log browser s' = st_log browser s ++ end_of_body idx
  /\ fs_after_body idx s s'.
Proof.
  unfold finish_record, end_of_body, Batch.fs_after_body.
  destruct (Nat.eqb ((idx + 1) mod RESULTS_SAVE_EVERY) 0);
    destruct data; cbn; rewrite ?app_nil_r; auto.
Qed.

Lemma manual_part_spec idx first last row data fallback (s : state browser) :
  let s' := manual_part browser html_parser ops path idx first last row data fallback s in
  gate_counter browser s' = gate_counter browser s
  /\ exists tail,
       st_log browser s' = st_log browser s ++ tail
       /\ (if fallback
           then (tail = ManualCalled idx :: end_of_body idx /\ fs_after_body idx s s')
                \/ (exists e, tail = [ManualCalled idx; RecordError idx e]
                              /\ st_fs browser s' = st_fs browser s)
           else tail = end_of_body idx /\ fs_after_body idx s s').
Proof.
  unfold manual_part. cbn [NAV_MODE orb].
  destruct fallback.
  - destruct (do_record_manual browser html_parser ops first last
                (row_address row) (row_zip row) (st_browser browser s))
      as [[e|data'] b].
    + cbn. split; [reflexivity|].
      exists [ManualCalled idx; RecordError idx e]. rewrite <- app_assoc.
      split; [reflexivity|]. right. eauto.
    + destruct (finish_record_spec idx data'
                  (set_browser browser b (log browser (ManualCalled idx) s)))
        as (Hg & Hl & Hf).
      split; [exact Hg|].
      exists (ManualCalled idx :: end_of_body idx). split.
      * rewrite Hl. cbn. rewrite <- app_assoc. reflexivity.
      * left. split; [reflexivity|exact Hf].
  - destruct (finish_record_spec idx data s) as (Hg & Hl & Hf).
    split; [exact Hg|]. exists (end_of_body idx). auto.
Qed.

(** The outcomes of one iteration of the loop. *)
Lemma process_record_spec idx row (s : state browser) :
  let s' := step idx row s in
  exists evs,
    st_log browser s' = st_log browser s ++ evs
    /\ ((skipped_as idx evs
         /\ st_fs browser s' = st_fs browser s
         /\ gate_counter browser s' = gate_counter browser s)
        \/ exists gc flag tail,
             evs = AutoReturned idx gc flag :: tail
             /\ gate_counter browser s' = gc
             /\ gate_counter browser s <= gc <= gate_counter browser s + 1
             /\ (if flag || Nat.leb MAX_GATES_BEFORE_MANUAL gc
                 then (tail = ManualCalled idx :: end_of_body idx
                       /\ fs_after_body idx s s')
                      \/ (exists e, tail = [ManualCalled idx; RecordError idx e]
                                    /\ st_fs browser s' = st_fs browser s)
                 else tail = end_of_body idx /\ fs_after_body idx s s')).
Proof.
  unfold process_record. cbv zeta.
  destruct (negb (truthy (clean_name (row_first row)))
            || negb (truthy (clean_name (row_last row)))).
  { exists [SkippedInvalidName idx]. split; [reflexivity|].
    left. unfold skipped_as. auto. }
  destruct (looks_like_composite_name (clean_name (row_first row))
            || looks_like_composite_name (clean_name (row_last row))).
  { exists [SkippedComposite idx]. split; [reflexivity|].
    left. unfold skipped_as. auto. }
  cbn [NAV_MODE].
  destruct (auto (clean_name (row_first row)) (clean_name (row_last row))
              (row_address row) (row_zip row) (gate_counter browser s)
              (st_browser browser s)) as [[e|[[data gc] flag]] b] eqn:E.
  { exists [RecordError idx e]. split; [reflexivity|].
    left. split; [|split; reflexivity].
    right. right. exists e. reflexivity. }
  apply do_record_auto_counter in E.
  set (s1 := log browser (AutoReturned idx gc flag)
               (set_gate_counter browser gc (set_browser browser b s))).
  destruct (manual_part_spec idx (clean_name (row_first row))
              (clean_name (row_last row)) row data
              (flag || Nat.leb MAX_GATES_BEFORE_MANUAL gc) s1)
    as (Hg & tail & Hl & Hcase).
  exists (AutoReturned idx gc flag :: tail). split.
  { rewrite Hl. subst s1. cbn. rewrite <- app_assoc. reflexivity. }
  right. exists gc, flag, tail. split; [reflexivity|].
  split; [rewrite Hg; reflexivity|]. split; [exact E|].
  unfold Batch.fs_after_body in *. subst s1. cbn in Hcase. exact Hcase.
Qed.

Lemma process_record_counter idx row (s : state browser) :
  gate_counter browser s <= gate_counter browser (step idx row s).
Proof.
  destruct (process_record_spec idx row s) as (evs & _ & [(_ & _ & ->)|H]); [lia|].
  destruct H as (gc & flag & tail & _ & -> & Hle & _). lia.
Qed.

Lemma process_rows_counter rows idx (s : state browser) :
  gate_counter browser s <= gate_counter browser (steps idx rows s).
Proof.
  revert idx s. induction rows as [|row rows IH]; intros idx s; simpl; [lia|].
  etransitivity; [apply process_record_counter|apply IH].
Qed.

Lemma process_rows_app pre post idx (s : state browser) :
  steps idx (pre ++ post) s = steps (idx + length pre) post (steps idx pre s).
Proof.
  revert idx s. induction pre as [|row pre IH]; intros idx s; simpl.
  - rewrite Nat.add_0_r. reflexivity.
  - rewrite IH. f_equal. lia.
Qed.

End BatchRun.

(** C3, as the loop has it. The gate counter never decreases from one
    record to the next, at any point of the run; and once it has reached
    [MAX_GATES_BEFORE_MANUAL], every later record of the run either goes
    through [do_record_manual], whether or not its own search met a gate,
    or is one that the loop skips: a record with an empty or a composite
    name, or one whose automatic attempt raised. *)
Theorem manual_fallback_is_sticky
    (browser : Type) (html_parser : str -> soup)
    (ops : Batch.driver_ops browser) (path : str)
    (earlier between : list Batch.input_row) (row : Batch.input_row)
    (s : Batch.state browser) :
  let s1 := Batch.process_rows browser html_parser ops path 0 earlier s in
  let s2 := Batch.process_rows browser html_parser ops path
              (length earlier) between s1 in
  let idx := length earlier + length between in
  let s3 := Batch.process_record browser html_parser ops path idx row s2 in
  (Batch.gate_counter browser s <= Batch.gate_counter browser s1
   /\ Batch.gate_counter browser s1 <= Batch.gate_counter browser s2
   /\ Batch.gate_counter browser s2 <= Batch.gate_counter browser s3)
  /\ (Batch.MAX_GATES_BEFORE_MANUAL <= Batch.gate_counter browser s1 ->
      exists evs,
        Batch.st_log browser s3 = Batch.st_log browser s2 ++ evs
        /\ (routed_manual idx evs \/ skipped_as idx evs)).
Proof.
  intros s1 s2 idx s3.
  assert (H01 : Batch.gate_counter browser s <= Batch.gate_counter browser s1)
    by apply process_rows_counter.
  assert (H12 : Batch.gate_counter browser s1 <= Batch.gate_counter browser s2)
    by apply process_rows_counter.
  split; [split; [exact H01|split; [exact H12|apply process_record_counter]]|].
  intros Hmax.
  destruct (process_record_spec browser html_parser ops path idx row s2)
    as (evs & Hlog & Hcase).
  exists evs. split; [exact Hlog|].
  destruct Hcase as [(Hskip & _)|(gc & flag & tail & -> & Hgc & Hle & Hcase)];
    [right; exact Hskip|].
  left. unfold routed_manual.
  assert (Hleb : Nat.leb Batch.MAX_GATES_BEFORE_MANUAL gc = true)
    by (apply Nat.leb_le; lia).
  rewrite Hleb, orb_true_r in Hcase.
  destruct Hcase as [(-> & _)|(e & -> & _)]; simpl; auto.
Qed.

(** Three records meet a gate each and bring the counter from 0 to 3; the
    fourth meets none, its automatic attempt returns data without asking
    for the manual fallback, and it goes through [do_record_manual] all
    the same. *)
Lemma manual_fallback_is_sticky_witness :
  let s1 := Batch.process_rows (nat * nat) HtmlLite.parse three_gates_session
              csv_path 0 [person_row; person_row; person_row] first_state in
  let s2 := Batch.process_rows (nat * nat) HtmlLite.parse three_gates_session
              csv_path (length [person_row; person_row; person_row]) [] s1 in
  let idx := length [person_row; person_row; person_row]
             + length (@nil Batch.input_row) in
  let s3 := Batch.process_record (nat * nat) HtmlLite.parse three_gates_session
              csv_path idx person_row s2 in
  Batch.MAX_GATES_BEFORE_MANUAL <= Batch.gate_counter (nat * nat) s1
  /\ (Batch.gate_counter (nat * nat) first_state <= Batch.gate_counter (nat * nat) s1
      /\ Batch.gate_counter (nat * nat) s1 <= Batch.gate_counter (nat * nat) s2
      /\ Batch.gate_counter (nat * nat) s2 <= Batch.gate_counter (nat * nat) s3)
  /\ (exists evs,
        Batch.st_log (nat * nat) s3 = Batch.st_log (nat * nat) s2 ++ evs
        /\ (routed_manual idx evs \/ skipped_as idx evs))
  /\ Batch.st_log (nat * nat) s3
     = Batch.st_log (nat * nat) s2
       ++ [Batch.AutoReturned 3 3 false; Batch.ManualCalled 3].
Proof.
  intros s1 s2 idx s3.
  assert (H : Batch.MAX_GATES_BEFORE_MANUAL <= Batch.gate_counter (nat * nat) s1)
    by (vm_compute; lia).
  split; [exact H|].
  destruct (manual_fallback_is_sticky (nat * nat) HtmlLite.parse three_gates_session
              csv_path [person_row; person_row; person_row] [] person_row first_state)
    as [Hmono Hsticky].
  split; [exact Hmono|]. split; [exact (Hsticky H)|].
  vm_compute. reflexivity.
Defined.

(** After three gated records the counter stands at three, and the fourth
    record, a couple, is skipped without a manual step. *)
Lemma composite_record_not_routed :
  let s3 := Batch.process_rows nat HtmlLite.parse gated_session csv_path 0
              [person_row; person_row; person_row] start_state in
  let s4 := Batch.process_record nat HtmlLite.parse gated_session csv_path 3
              couple_row s3 in
  Batch.MAX_GATES_BEFORE_MANUAL <= Batch.gate_counter nat s3
  /\ ~ routed_manual 3 (Batch.st_log nat s4).
Proof.
  split.
  - vm_compute. lia.
  - vm_compute. intuition discriminate.
Qed.

(** With the counter at three, a record whose challenge does not clear in
    time raises in [do_record_auto] and is skipped without a manual step. *)
Lemma raising_record_not_routed :
  let s := Batch.set_gate_counter nat 3 start_state in
  Batch.st_log nat
    (Batch.process_record nat HtmlLite.parse stuck_session csv_path 0 person_row s)
  = [Batch.RecordError 0
       (Batch.TimeoutException (lit "Cloudflare check not cleared in time."))].
Proof. vm_compute. reflexivity. Qed.

(** ** Checkpoints *)

Lemma tmp_differs (path : str) : path ++ lit ".tmp" <> path.
Proof.
  intros H. apply (f_equal (@length ascii)) in H.
  rewrite length_app in H. simpl in H. lia.
Qed.

Lemma run_ops_cons (fs : filesystem) (op : fs_op) (ops : list fs_op) :
  run_ops fs (op :: ops) = run_ops (apply_op fs op) ops.
Proof. reflexivity. Qed.

Lemma run_ops_snoc (fs : filesystem) (ops : list fs_op) (op : fs_op) :
  run_ops fs (ops ++ [op]) = apply_op (run_ops fs ops) op.
Proof. unfold run_ops. rewrite fold_left_app. reflexivity. Qed.

Lemma apply_create (fs : filesystem) (p : str) :
  apply_op fs (Create p) = <[ p := [] ]> fs.
Proof. reflexivity. Qed.

Lemma apply_append (fs : filesystem) (p piece old : str) :
  fs !! p = Some old -> apply_op fs (Append p piece) = <[ p := old ++ piece ]> fs.
Proof.
  intros H. unfold apply_op.
  match goal with
  | |- context [match ?x with _ => _ end] =>
      replace x with (Some old) by (symmetry; exact H)
  end.
  reflexivity.
Qed.

Lemma apply_replace (fs : filesystem) (src dst content : str) :
  fs !! src = Some content ->
  apply_op fs (Replace src dst) = <[ dst := content ]> (delete src fs).
Proof.
  intros H. unfold apply_op.
  match goal with
  | |- context [match ?x with _ => _ end] =>
      replace x with (Some content) by (symmetry; exact H)
  end.
  reflexivity.
Qed.

Lemma apply_write_other (fs : filesystem) (p q : str) (op : fs_op) :
  writes_only p op -> q <> p -> apply_op fs op !! q = fs !! q.
Proof.
  intros [->|(piece & ->)] Hq.
  - rewrite apply_create. apply lookup_insert_ne. congruence.
  - unfold apply_op.
    match goal with
    | |- context [match ?x with _ => _ end] => destruct x
    end; apply lookup_insert_ne; congruence.
Qed.

Lemma run_ops_other (p q : str) (ops : list fs_op) (fs : filesystem) :
  Forall (writes_only p) ops -> q <> p -> run_ops fs ops !! q = fs !! q.
Proof.
  intros Hall Hq. revert fs. induction Hall as [|op ops Hop _ IH]; intros fs.
  - reflexivity.
  - rewrite run_ops_cons, IH. apply (apply_write_other fs p q op); assumption.
Qed.

Lemma write_file_ops_only (p text : str) :
  Forall (writes_only p) (write_file_ops p text).
Proof.
  unfold write_file_ops. constructor; [left; reflexivity|].
  apply List.Forall_forall. intros op Hop.
  apply in_map_iff in Hop as (c & <- & _). right. eauto.
Qed.

Lemma Forall_firstn {A} (P : A -> Prop) (n : nat) (l : list A) :
  Forall P l -> Forall P (firstn n l).
Proof.
  intros H. apply List.Forall_forall. intros x Hx.
  rewrite List.Forall_forall in H. apply H. eapply In_firstn. eassumption.
Qed.

Lemma appends_content (p : str) (text old : str) (fs : filesystem) :
  fs !! p = Some old ->
  run_ops fs (map (fun c => Append p [c]) text) !! p = Some (old ++ text).
Proof.
  revert old fs. induction text as [|c text IH]; intros old fs H.
  - simpl. rewrite app_nil_r. exact H.
  - cbn [map]. rewrite run_ops_cons, (apply_append fs p [c] old H).
    rewrite (IH (old ++ [c])); [rewrite <- app_assoc; reflexivity|].
    apply lookup_insert_eq.
Qed.

Lemma write_file_content (p text : str) (fs : filesystem) :
  run_ops fs (write_file_ops p text) !! p = Some text.
Proof.
  unfold write_file_ops. rewrite run_ops_cons, apply_create.
  apply (appends_content p text []). apply lookup_insert_eq.
Qed.

(** A finished [save_atomic] leaves the whole text under [path]. *)
Lemma save_atomic_done (csv path : str) (fs : filesystem) :
  save_atomic csv path fs !! path = Some csv.
Proof.
  unfold save_atomic, save_atomic_ops. rewrite run_ops_snoc.
  rewrite (apply_replace _ _ _ csv) by apply write_file_content.
  apply lookup_insert_eq.
Qed.

(** A crash during [save_atomic] leaves under [path] the old file or the
    whole new text. *)
Lemma save_atomic_crash_safe (csv path : str) (fs fs' : filesystem) :
  In fs' (crash_states csv path fs) ->
  fs' !! path = fs !! path \/ fs' !! path = Some csv.
Proof.
  unfold crash_states. intros H.
  apply in_map_iff in H as (k & <- & Hk). apply in_seq in Hk.
  unfold save_atomic_ops in *. rewrite length_app in Hk. cbn [length] in Hk.
  rewrite firstn_app.
  destruct (le_lt_dec k (length (write_file_ops (path ++ lit ".tmp") csv))) as [Hle|Hlt].
  - left.
    replace (k - length (write_file_ops (path ++ lit ".tmp") csv)) with 0 by lia.
    rewrite firstn_O, app_nil_r.
    apply (run_ops_other (path ++ lit ".tmp")).
    + apply Forall_firstn, write_file_ops_only.
    + intros E. symmetry in E. exact (tmp_differs path E).
  - right.
    rewrite firstn_all2 by lia.
    rewrite (firstn_all2 [Replace (path ++ lit ".tmp") path]) by (cbn [length]; lia).
    apply save_atomic_done.
Qed.

Lemma in_end_of_body (idx : nat) (pre : list Batch.event) :
  ~ In (Batch.PeriodicSave idx) pre ->
  In (Batch.PeriodicSave idx) (pre ++ end_of_body idx)
  <-> (idx + 1) mod Batch.RESULTS_SAVE_EVERY = 0.
Proof.
  intros Hpre. unfold end_of_body.
  destruct (Nat.eqb ((idx + 1) mod Batch.RESULTS_SAVE_EVERY) 0) eqn:E.
  - apply Nat.eqb_eq in E. split; [auto|]. intros _.
    apply in_or_app. right. left. reflexivity.
  - apply Nat.eqb_neq in E. rewrite app_nil_r. tauto.
Qed.

Lemma fs_after_body_cases (browser : Type) (ops : Batch.driver_ops browser)
    (path : str) (idx : nat) (s s' : Batch.state browser) :
  Batch.fs_after_body browser ops path idx s s' ->
  Batch.st_fs browser s' = Batch.st_fs browser s
  \/ Batch.st_fs browser s'
     = save_atomic (Batch.csv_of browser ops (Batch.output_df browser s')) path
         (Batch.st_fs browser s).
Proof.
  unfold Batch.fs_after_body.
  destruct (Nat.eqb ((idx + 1) mod Batch.RESULTS_SAVE_EVERY) 0); auto.
Qed.

(** What the checkpoints of [main] keep. [save_atomic] writes the whole
    table to [path.tmp] and then replaces [path] in one step, so that whenever it is
    interrupted [path] holds either its old content or the whole new text;
    the periodic and the final checkpoint of [main] are such saves of the
    full table and nothing else in the loop writes the file; and a record
    whose loop body runs to its end is followed by a periodic save exactly
    when its one-based index is a multiple of [RESULTS_SAVE_EVERY]. *)
Theorem checkpoints_are_atomic
    (browser : Type) (html_parser : str -> soup)
    (ops : Batch.driver_ops browser) (path : str) :
  (forall (csv : str) (fs fs' : filesystem),
     In fs' (crash_states csv path fs) ->
     fs' !! path = fs !! path \/ fs' !! path = Some csv)
  /\ (forall (csv : str) (fs : filesystem),
        save_atomic csv path fs !! path = Some csv)
  /\ (forall (idx : nat) (row : Batch.input_row) (s : Batch.state browser),
        let s' := Batch.process_record browser html_parser ops path idx row s in
        exists evs,
          Batch.st_log browser s' = Batch.st_log browser s ++ evs
          /\ (Batch.st_fs browser s' = Batch.st_fs browser s
              \/ Batch.st_fs browser s'
                 = save_atomic (Batch.csv_of browser ops (Batch.output_df browser s'))
                     path (Batch.st_fs browser s))
          /\ (completed idx evs ->
              (In (Batch.PeriodicSave idx) evs
               <-> (idx + 1) mod Batch.RESULTS_SAVE_EVERY = 0)
              /\ Batch.fs_after_body browser ops path idx s s'))
  /\ (forall (rows : list Batch.input_row) (b0 : browser) (df0 : Batch.table)
             (fs0 : filesystem),
        let s := Batch.process_rows browser html_parser ops path 0 rows
                   {| Batch.st_browser := b0; Batch.gate_counter := 0;
                      Batch.output_df := df0; Batch.st_fs := fs0;
                      Batch.st_log := [] |} in
        Batch.st_fs browser (Batch.main browser html_parser ops path rows b0 df0 fs0)
        = save_atomic (Batch.csv_of browser ops (Batch.output_df browser s)) path
            (Batch.st_fs browser s)).
Proof.
  split; [intros csv fs fs'; apply save_atomic_crash_safe|].
  split; [intros csv fs; apply save_atomic_done|].
  split; [|intros rows b0 df0 fs0; reflexivity].
  intros idx row s s'.
  destruct (process_record_spec browser html_parser ops path idx row s)
    as (evs & Hlog & Hcase).
  exists evs. split; [exact Hlog|].
  destruct Hcase as [(Hskip & Hfs & _)|(gc & flag & tail & -> & _ & _ & Hcase)].
  - split; [left; exact Hfs|].
    intros (H1 & H2 & H3). exfalso.
    destruct Hskip as [->|[->|(e & ->)]].
    + apply H1. left. reflexivity.
    + apply H2. left. reflexivity.
    + apply (H3 e). left. reflexivity.
  - destruct (flag || Nat.leb Batch.MAX_GATES_BEFORE_MANUAL gc).
    + destruct Hcase as [(-> & Hfs)|(e & -> & Hfs)].
      * split; [eapply fs_after_body_cases; exact Hfs|].
        intros _. split; [|exact Hfs].
        apply (in_end_of_body idx
                 [Batch.AutoReturned idx gc flag; Batch.ManualCalled idx]).
        simpl. intuition discriminate.
      * split; [left; exact Hfs|].
        intros (_ & _ & H3). exfalso. apply (H3 e). simpl. auto.
    + destruct Hcase as (-> & Hfs).
      split; [eapply fs_after_body_cases; exact Hfs|].
      intros _. split; [|exact Hfs].
      apply (in_end_of_body idx [Batch.AutoReturned idx gc flag]).
      simpl. intuition discriminate.
Qed.

Lemma checkpoints_are_atomic_witness :
  let fs : filesystem := <[ csv_path := lit "old table" ]> ∅ in
  let fs' := run_ops fs (firstn 3 (save_atomic_ops (lit "new table") csv_path)) in
  fs' !! csv_path = fs !! csv_path \/ fs' !! csv_path = Some (lit "new table").
Proof.
  intros fs fs'.
  apply (proj1 (checkpoints_are_atomic nat HtmlLite.parse gated_session csv_path)).
  unfold crash_states. apply in_map_iff. exists 3. split; [reflexivity|].
  apply in_seq. vm_compute. lia.
Defined.

(** C9. The periodic save does not follow every [RESULTS_SAVE_EVERY]
    records. Of ten records of which the tenth is a couple, the loop
    leaves the tenth with [continue] before it reaches the save at the
    end of its body: after the ten records no periodic save has run and
    the checkpoint file has not been written. *)
Lemma skipped_tenth_record_no_save :
  let s := Batch.process_rows nat HtmlLite.parse gated_session csv_path 0
             (repeat person_row 9 ++ [couple_row]) start_state in
  ~ In (Batch.PeriodicSave 9) (Batch.st_log nat s)
  /\ Batch.st_fs nat s !! csv_path = None.
Proof.
  split.
  - vm_compute. intuition discriminate.
  - vm_compute. reflexivity.
Qed.

(** * Further properties of the scrapers *)

(** ** Lower-casing and substrings *)

Lemma py_lower_chr_idem (c : ascii) : py_lower_chr (py_lower_chr c) = py_lower_chr c.
Proof. ascii_cases c; reflexivity. Qed.

Lemma py_lower_idem (s : str) : py_lower (py_lower s) = py_lower s.
Proof.
  unfold py_lower. rewrite map_map. apply map_ext. apply py_lower_chr_idem.
Qed.

Lemma py_lower_app (a b : str) : py_lower (a ++ b) = py_lower a ++ py_lower b.
Proof. apply map_app. Qed.

Lemma starts_with_app (p s r : str) :
  starts_with p s = true -> starts_with p (s ++ r) = true.
Proof.
  revert s. induction p as [|a p IH]; intros [|b s]; simpl; try congruence.
  intros H. apply andb_prop in H as [-> H]. simpl. auto.
Qed.

Lemma contains_app_r (p s r : str) :
  contains p s = true -> contains p (s ++ r) = true.
Proof.
  induction s as [|c s IH]; simpl.
  - rewrite orb_false_r. destruct p; [|discriminate]. intros _. destruct r; reflexivity.
  - intros H. apply orb_prop in H as [H|H].
    + change (c :: s ++ r) with ((c :: s) ++ r).
      rewrite (starts_with_app p (c :: s) r H). reflexivity.
    + rewrite (IH H). apply orb_true_r.
Qed.

Lemma contains_app_l (p l s : str) :
  contains p s = true -> contains p (l ++ s) = true.
Proof.
  intros H. induction l as [|c l IH]; [exact H|].
  cbn [app contains]. rewrite IH. apply orb_true_r.
Qed.

Lemma contains_embedded (p before s after : str) :
  contains p s = true -> contains p (before ++ s ++ after) = true.
Proof. intros H. apply contains_app_l, contains_app_r, H. Qed.

Lemma any_in_embedded (xs : list str) (before s after : str) :
  any_in xs s = true -> any_in xs (before ++ s ++ after) = true.
Proof.
  unfold any_in. rewrite !existsb_exists.
  intros (x & Hx & Hc). exists x. split; [assumption|].
  apply contains_embedded, Hc.
Qed.

(** ** The gate classifiers *)

(** X2. A challenge page stays a challenge page, and a blocked page a
    blocked page, whatever stands before and after it: text added around
    a page never hides a signal from [is_cloudflare_challenge] or from
    [looks_blocked] (of either scraper). *)
Theorem gate_signals_survive_embedding (before html after : str) :
  (is_cloudflare_challenge html = true ->
   is_cloudflare_challenge (before ++ html ++ after) = true)
  /\ (Edge.looks_blocked html = true ->
      Edge.looks_blocked (before ++ html ++ after) = true)
  /\ (Chrome.looks_blocked html = true ->
      Chrome.looks_blocked (before ++ html ++ after) = true).
Proof.
  assert (Hc : forall h, is_cloudflare_challenge h = true ->
                 is_cloudflare_challenge (before ++ h ++ after) = true).
  { intros h. unfold is_cloudflare_challenge. rewrite !py_lower_app.
    apply any_in_embedded. }
  split; [apply Hc|]. split.
  - unfold Edge.looks_blocked. cbv zeta. unfold is_cloudflare_challenge.
    rewrite !py_lower_idem, !py_lower_app. intros H.
    apply orb_prop in H as [H|H].
    + rewrite (any_in_embedded _ _ _ _ H). reflexivity.
    + rewrite (any_in_embedded _ _ _ _ H). apply orb_true_r.
  - unfold Chrome.looks_blocked. cbv zeta. unfold is_cloudflare_challenge.
    rewrite !py_lower_idem, !py_lower_app. intros H.
    apply orb_prop in H as [H|H].
    + rewrite (any_in_embedded _ _ _ _ H). reflexivity.
    + rewrite (any_in_embedded _ _ _ _ H). apply orb_true_r.
Qed.

Lemma gate_signals_survive_embedding_witness :
  is_cloudflare_challenge
    (lit "<html><body>" ++ lit "<h1>Just a Moment...</h1>" ++ lit "</body></html>") = true
  /\ Edge.looks_blocked
       (lit "<html><body>" ++ lit "<p>Access Denied</p>" ++ lit "</body></html>") = true
  /\ Chrome.looks_blocked
       (lit "<html><body>" ++ lit "<p>Access Denied</p>" ++ lit "</body></html>") = true.
Proof.
  split; [|split].
  - apply (gate_signals_survive_embedding (lit "<html><body>")
             (lit "<h1>Just a Moment...</h1>") (lit "</body></html>")).
    reflexivity.
  - apply (gate_signals_survive_embedding (lit "<html><body>")
             (lit "<p>Access Denied</p>") (lit "</body></html>")).
    reflexivity.
  - apply (gate_signals_survive_embedding (lit "<html><body>")
             (lit "<p>Access Denied</p>") (lit "</body></html>")).
    reflexivity.
Defined.

Lemma any_in_cons (x : str) (xs : list str) (h : str) :
  any_in (x :: xs) h = contains x h || any_in xs h.
Proof. reflexivity. Qed.

(** X3. The two scrapers' [looks_blocked] agree on every page (the
    trigger that [fps_scraper_chrome.py] adds is one of the challenge
    signals already), every challenge page is a blocked page, and
    lower-casing the page before it is handed to
    [is_cloudflare_challenge] changes nothing: a page is blocked exactly
    when it holds one of the six triggers or is a challenge page. *)
Theorem looks_blocked_agree (html : str) :
  Chrome.looks_blocked html = Edge.looks_blocked html
  /\ Edge.looks_blocked html
     = any_in (map lit [ "access denied"; "unusual traffic"; "are you a human";
                         "verify you are human"; "security check";
                         "please enable cookies" ]%string) (py_lower html)
       || is_cloudflare_challenge html
  /\ (is_cloudflare_challenge html = true -> Edge.looks_blocked html = true).
Proof.
  unfold Chrome.looks_blocked, Edge.looks_blocked. cbv zeta.
  unfold is_cloudflare_challenge. cbv zeta. rewrite !py_lower_idem.
  set (h := py_lower html).
  split; [|split].
  - unfold any_in at 1 3. cbn [map existsb].
    destruct (contains (lit "just a moment") h) eqn:E.
    + assert (Hcf : any_in _CF_SIGNAL_STRINGS h = true).
      { unfold any_in, _CF_SIGNAL_STRINGS. cbn [map existsb]. rewrite E.
        rewrite ?orb_true_r. reflexivity. }
      rewrite Hcf, !orb_true_r. reflexivity.
    + cbn [orb]. reflexivity.
  - reflexivity.
  - intros ->. apply orb_true_r.
Qed.

Lemma looks_blocked_agree_witness :
  Edge.looks_blocked (lit "<title>Just a moment...</title>") = true.
Proof.
  apply (looks_blocked_agree (lit "<title>Just a moment...</title>")). reflexivity.
Defined.

(** ** Substitution of runs of a character class *)

Lemma star_greedy_cls_head (p : ascii -> bool) (k : nat) (prev : option ascii) (s : str) :
  length s <= k ->
  exists m t rest,
    star_iter (matches (Cls p)) true k prev s = (m, [], t) :: rest
    /\ s = m ++ t /\ forallb p m = true
    /\ match t with [] => True | d :: _ => p d = false end.
Proof.
  revert prev s. induction k as [|k IH]; intros prev s Hk.
  - destruct s; [|simpl in Hk; lia]. exists [], [], []. simpl. auto.
  - destruct s as [|c t].
    + exists [], [], []. simpl. auto.
    + cbn [star_iter].
      replace (matches (Cls p) prev (c :: t))
        with (if p c then [([c], @nil (nat * str), t)] else []) by reflexivity.
      destruct (p c) eqn:Hp.
      * cbn [flat_map]. rewrite app_nil_r.
        destruct (IH (last_chr [c] prev) t) as (m & t' & rest & E & -> & Hm & Ht);
          [simpl in Hk; lia|].
        rewrite E. cbn [map extend app].
        exists (c :: m), t', (map (extend [c] []) rest ++ [([], [], c :: m ++ t')]).
        simpl. rewrite Hp, Hm. auto.
      * exists [], (c :: t), []. simpl. auto.
Qed.

Lemma squeeze_run (p : ascii -> bool) (repl m t : str) :
  forallb p m = true ->
  squeeze p repl true (m ++ t) = squeeze p repl true t.
Proof.
  induction m as [|c m IH]; simpl; [reflexivity|].
  intros H. apply andb_prop in H as [-> H]. simpl. auto.
Qed.

Lemma squeeze_fresh (p : ascii -> bool) (repl t : str) :
  match t with [] => True | d :: _ => p d = false end ->
  squeeze p repl true t = squeeze p repl false t.
Proof. destruct t as [|d t]; simpl; [reflexivity|]. intros ->. reflexivity. Qed.

Lemma sub_from_plus_cls (p : ascii -> bool) (repl : str) (k : nat)
    (prev : option ascii) (s : str) :
  length s < k ->
  sub_from k (Plus (Cls p)) repl prev s = squeeze p repl false s.
Proof.
  revert prev s. induction k as [|k IH]; intros prev s Hk; [lia|].
  destruct s as [|c t]; [reflexivity|].
  cbn [sub_from]. unfold Plus.
  replace (matches (Seq (Cls p) (Star true (Cls p))) prev (c :: t))
    with (flat_map (fun r1 : res =>
            match r1 with
            | (m1, c1, t1) =>
                map (extend m1 c1)
                  (star_iter (matches (Cls p)) true (S (length t1)) (last_chr m1 prev) t1)
            end) (if p c then [([c], @nil (nat * str), t)] else []))
    by reflexivity.
  destruct (p c) eqn:Hp.
  - cbn [flat_map]. rewrite app_nil_r.
    destruct (star_greedy_cls_head p (S (length t)) (last_chr [c] prev) t)
      as (m & t' & rest & E & -> & Hm & Ht); [lia|].
    rewrite E. cbn [map extend app squeeze]. rewrite Hp.
    rewrite squeeze_run by assumption. rewrite squeeze_fresh by assumption.
    f_equal. apply IH. simpl in Hk. rewrite length_app in Hk. lia.
  - cbn [flat_map squeeze]. rewrite Hp. f_equal. apply IH. simpl in Hk. lia.
Qed.

(** [re.sub] of [p+] by [repl] squeezes every run of [p] into [repl]. *)
Lemma sub_plus_cls (p : ascii -> bool) (repl s : str) :
  sub (Plus (Cls p)) repl s = squeeze p repl false s.
Proof. unfold sub. apply sub_from_plus_cls. lia. Qed.

Lemma sub_from_cls_repl (p : ascii -> bool) (repl : str) (k : nat)
    (prev : option ascii) (s : str) :
  length s < k ->
  sub_from k (Cls p) repl prev s = flat_map (fun c => if p c then repl else [c]) s.
Proof.
  revert prev s. induction k as [|k IH]; intros prev s Hk; [lia|].
  destruct s as [|c t]; simpl; [reflexivity|].
  simpl in Hk. destruct (p c) eqn:Hp; simpl.
  - f_equal. apply IH. lia.
  - f_equal. apply IH. lia.
Qed.

Lemma sub_cls_repl (p : ascii -> bool) (repl s : str) :
  sub (Cls p) repl s = flat_map (fun c => if p c then repl else [c]) s.
Proof. unfold sub. apply sub_from_cls_repl. lia. Qed.

Lemma squeeze_chars (p ok : ascii -> bool) (repl : str) (b : bool) (s : str) :
  forallb ok repl = true ->
  (forall c, In c s -> p c = false -> ok c = true) ->
  forallb ok (squeeze p repl b s) = true.
Proof.
  intros Hr. revert b. induction s as [|c t IH]; intros b H; [reflexivity|].
  cbn [squeeze]. destruct (p c) eqn:Hp.
  - rewrite forallb_app. rewrite IH by (intros; apply H; simpl; auto).
    destruct b; [reflexivity|]. rewrite Hr. reflexivity.
  - cbn [forallb]. rewrite (H c) by (simpl; auto).
    rewrite IH by (intros; apply H; simpl; auto). reflexivity.
Qed.

Lemma squeeze_no_class (p : ascii -> bool) (repl : str) (b : bool) (s : str) :
  forallb (fun c => negb (p c)) repl = true ->
  forallb (fun c => negb (p c)) (squeeze p repl b s) = true.
Proof.
  intros Hr. apply squeeze_chars; [assumption|].
  intros c _ ->. reflexivity.
Qed.

(** ** Name normalisation for the ranking *)

Lemma single_spaced_squeeze (b : bool) (s : str) :
  single_spaced b (squeeze py_isspace (lit " ") b s) = true.
Proof.
  revert b. induction s as [|c t IH]; intros b; [reflexivity|].
  cbn [squeeze]. destruct (py_isspace c) eqn:Hc.
  - destruct b; cbn [app lit list_ascii_of_string]; [apply IH|].
    cbn [single_spaced]. change (py_isspace " ") with true. cbv iota.
    rewrite chr_eqb_refl. apply (IH true).
  - cbn [single_spaced]. rewrite Hc. apply IH.
Qed.

Lemma squeeze_single_spaced (b : bool) (s : str) :
  single_spaced b s = true -> squeeze py_isspace (lit " ") b s = s.
Proof.
  revert b. induction s as [|c t IH]; intros b; [reflexivity|].
  cbn [squeeze single_spaced]. destruct (py_isspace c) eqn:Hc.
  - intros H. apply andb_prop in H as [H Ht]. apply andb_prop in H as [Hb Hs].
    apply negb_true_iff in Hb. subst b. apply chr_eqb_true in Hs. subst c.
    cbn [app lit list_ascii_of_string]. f_equal. apply IH, Ht.
  - intros H. f_equal. apply IH, H.
Qed.

Lemma single_spaced_weaken (s : str) :
  single_spaced true s = true -> single_spaced false s = true.
Proof.
  destruct s as [|c t]; [reflexivity|]. cbn [single_spaced].
  destruct (py_isspace c); [discriminate|auto].
Qed.

Lemma single_spaced_prefix (b : bool) (x y : str) :
  single_spaced b (x ++ y) = true -> single_spaced b x = true.
Proof.
  revert b. induction x as [|c t IH]; intros b; [reflexivity|].
  cbn [app single_spaced]. destruct (py_isspace c).
  - intros H. apply andb_prop in H as [-> H]. apply (IH true), H.
  - apply IH.
Qed.

Lemma single_spaced_suffix (b : bool) (x y : str) :
  single_spaced b (x ++ y) = true -> single_spaced false y = true.
Proof.
  revert b. induction x as [|c t IH]; intros b.
  - destruct b; [apply single_spaced_weaken|auto].
  - cbn [app single_spaced]. destruct (py_isspace c).
    + intros H. apply andb_prop in H as [_ H]. apply (IH true), H.
    + apply IH.
Qed.

Lemma py_strip_split (s : str) :
  exists w w', s = w ++ py_strip s ++ w'.
Proof.
  unfold py_strip.
  destruct (lstrip_split s) as (w & Hw & _).
  destruct (rstrip_split (lstrip s)) as (w' & Hw' & _).
  exists w, w'. rewrite <- Hw'. exact Hw.
Qed.

Lemma forallb_py_strip (p : ascii -> bool) (s : str) :
  forallb p s = true -> forallb p (py_strip s) = true.
Proof.
  destruct (py_strip_split s) as (w & w' & E). intros H.
  rewrite E in H. rewrite !forallb_app in H.
  apply andb_prop in H as [_ H]. apply andb_prop in H as [H _]. exact H.
Qed.

Lemma single_spaced_py_strip (s : str) :
  single_spaced false s = true -> single_spaced false (py_strip s) = true.
Proof.
  destruct (py_strip_split s) as (w & w' & E). intros H.
  rewrite E in H. apply single_spaced_suffix in H.
  apply single_spaced_prefix in H. exact H.
Qed.

Lemma py_lower_chr_plain (c : ascii) :
  is_lower_az c || chr_eqb c " " = true -> py_lower_chr c = c.
Proof. ascii_cases c; intros H; try discriminate H; reflexivity. Qed.

Lemma map_fixed {A} (f : A -> A) (l : list A) :
  (forall x, In x l -> f x = x) -> map f l = l.
Proof.
  induction l as [|a l IH]; intros H; [reflexivity|].
  simpl. rewrite H by (simpl; auto). f_equal. apply IH. intros; apply H; simpl; auto.
Qed.

Lemma flat_map_fixed {A} (f : A -> list A) (l : list A) :
  (forall x, In x l -> f x = [x]) -> flat_map f l = l.
Proof.
  induction l as [|a l IH]; intros H; [reflexivity|].
  simpl. rewrite H by (simpl; auto). simpl. f_equal. apply IH. intros; apply H; simpl; auto.
Qed.

Lemma _normalize_name_unfold (s : str) :
  Candidates._normalize_name s
  = py_strip (squeeze py_isspace (lit " ") false
      (flat_map (fun c => if negb (is_lower_az c || py_isspace c) then lit " " else [c])
                (py_lower s))).
Proof.
  unfold Candidates._normalize_name. cbv zeta. unfold ws.
  rewrite sub_plus_cls, sub_cls_repl. reflexivity.
Qed.

(** X4. [_normalize_name] returns a canonical form: lower-case letters
    a-z separated by single spaces, with no blank at either end; and it
    leaves such a form as it is, so normalising twice is normalising
    once. *)
Theorem _normalize_name_canonical (s : str) :
  forallb (fun c => is_lower_az c || chr_eqb c " ") (Candidates._normalize_name s) = true
  /\ single_spaced false (Candidates._normalize_name s) = true
  /\ trimmed (Candidates._normalize_name s)
  /\ Candidates._normalize_name (Candidates._normalize_name s)
     = Candidates._normalize_name s.
Proof.
  assert (Hchars : forallb (fun c => is_lower_az c || chr_eqb c " ")
                     (Candidates._normalize_name s) = true).
  { rewrite _normalize_name_unfold. apply forallb_py_strip.
    apply squeeze_chars; [reflexivity|].
    intros c Hc Hs. apply in_flat_map in Hc as (x & _ & Hx).
    destruct (negb (is_lower_az x || py_isspace x)) eqn:E.
    - destruct Hx as [<-|[]]. discriminate Hs.
    - destruct Hx as [<-|[]]. apply negb_false_iff in E.
      rewrite Hs, orb_false_r in E. rewrite E. reflexivity. }
  assert (Hsp : single_spaced false (Candidates._normalize_name s) = true).
  { rewrite _normalize_name_unfold. apply single_spaced_py_strip.
    apply single_spaced_squeeze. }
  assert (Htr : trimmed (Candidates._normalize_name s)).
  { rewrite _normalize_name_unfold. apply py_strip_trimmed. }
  repeat split; try assumption; try apply Htr.
  rewrite (_normalize_name_unfold (Candidates._normalize_name s)).
  set (o := Candidates._normalize_name s) in *.
  assert (Hl : py_lower o = o).
  { unfold py_lower. apply map_fixed. intros c Hc. apply py_lower_chr_plain.
    rewrite List.forallb_forall in Hchars. auto. }
  rewrite Hl. rewrite flat_map_fixed.
  - rewrite squeeze_single_spaced by assumption. apply py_strip_fixed, Htr.
  - intros c Hc. rewrite List.forallb_forall in Hchars.
    specialize (Hchars c Hc). apply orb_prop in Hchars as [H|H].
    + rewrite H. reflexivity.
    + apply chr_eqb_true in H. subst c. reflexivity.
Qed.

(** ** Candidate links *)

Lemma uniq_fold {K : Type} `{Countable K} (key : Candidates.web_element -> K)
    (elems : list Candidates.web_element) (seen : gset K)
    (uniq : list Candidates.web_element) :
  NoDup (map key uniq) -> (forall k, k ∈ seen <-> k ∈ map key uniq) ->
  let r := fold_left (Candidates.uniq_step key) elems (seen, uniq) in
  NoDup (map key (snd r))
  /\ (forall k, k ∈ fst r <-> k ∈ map key (snd r))
  /\ (exists kept, snd r = uniq ++ kept /\ sublist kept elems)
  /\ (forall e, In e elems -> key e ∈ fst r).
Proof.
  revert seen uniq. induction elems as [|e elems IH]; intros seen uniq Hnd Hseen.
  - simpl. repeat split; try assumption; try apply Hseen.
    + exists []. rewrite app_nil_r. split; [reflexivity|constructor].
    + intros e [].
  - cbv zeta. cbn [fold_left].
    destruct (bool_decide (key e ∈ seen)) eqn:E.
    + assert (Hstep : Candidates.uniq_step key (seen, uniq) e = (seen, uniq))
        by (unfold Candidates.uniq_step; rewrite E; reflexivity).
      rewrite Hstep. clear Hstep.
      destruct (IH _ _ Hnd Hseen) as (H1 & H2 & (kept & Hk & Hsub) & H4).
      split; [assumption|]. split; [assumption|]. split.
      * exists kept. split; [assumption|]. apply sublist_cons, Hsub.
      * intros e' [<-|Hin]; [|auto].
        apply bool_decide_eq_true in E. apply H2. rewrite Hk, map_app.
        apply elem_of_app. left. apply Hseen, E.
    + assert (Hstep : Candidates.uniq_step key (seen, uniq) e
                      = (seen ∪ {[key e]}, uniq ++ [e]))
        by (unfold Candidates.uniq_step; rewrite E; reflexivity).
      rewrite Hstep. clear Hstep.
      apply bool_decide_eq_false in E.
      assert (Hnd' : NoDup (map key (uniq ++ [e]))).
      { rewrite map_app. apply NoDup_app. split; [assumption|]. split.
        - intros k Hk Hk'. apply list_elem_of_singleton in Hk'. subst k.
          apply E, Hseen, Hk.
        - apply NoDup_singleton. }
      assert (Hseen' : forall k, k ∈ seen ∪ {[key e]} <-> k ∈ map key (uniq ++ [e])).
      { intros k. rewrite elem_of_union, elem_of_singleton, map_app, elem_of_app, Hseen.
        simpl. rewrite list_elem_of_singleton. reflexivity. }
      destruct (IH _ _ Hnd' Hseen') as (H1 & H2 & (kept & Hk & Hsub) & H4).
      split; [assumption|]. split; [assumption|]. split.
      * exists (e :: kept). split.
        -- rewrite Hk, <- app_assoc. reflexivity.
        -- apply sublist_skip, Hsub.
      * intros e' [<-|Hin]; [|auto].
        apply H2. rewrite Hk, !map_app. apply elem_of_app. left.
        apply elem_of_app. right. simpl. apply list_elem_of_singleton. reflexivity.
Qed.

Lemma uniq_by_spec {K : Type} `{Countable K} (key : Candidates.web_element -> K)
    (elems : list Candidates.web_element) :
  NoDup (map key (Candidates.uniq_by key elems))
  /\ sublist (Candidates.uniq_by key elems) elems
  /\ (forall e, In e elems ->
        exists e', In e' (Candidates.uniq_by key elems) /\ key e' = key e).
Proof.
  unfold Candidates.uniq_by.
  destruct (uniq_fold key elems ∅ []) as (H1 & H2 & (kept & Hk & Hsub) & H4).
  - constructor.
  - intros k. split; [intros Hk; exfalso; set_solver|intros Hk; inversion Hk].
  - split; [assumption|]. split.
    + rewrite Hk. exact Hsub.
    + intros e He. specialize (H4 e He). apply H2 in H4.
      apply list_elem_of_fmap in H4 as (e' & Hkey & Hin).
      exists e'. split; [apply list_elem_of_In; assumption|auto].
Qed.

(** X5. In both scrapers the candidates that [_candidate_detail_links]
    returns are found elements in the order in which they were found,
    no two of them have the same key (the link target, or failing that
    the element itself), and every found element is there or is
    represented by one with its key; a [find_elements] call that raises
    contributes nothing. *)
Theorem candidate_links_unique
    (found : list (option (list Candidates.web_element))) :
  (let r := Candidates.Edge._candidate_detail_links found in
   NoDup (map Candidates.Edge.link_key r)
   /\ sublist r (Candidates.collect found)
   /\ forall e, In e (Candidates.collect found) ->
        exists e', In e' r /\ Candidates.Edge.link_key e' = Candidates.Edge.link_key e)
  /\ (let r := Candidates.Chrome._candidate_detail_links found in
      NoDup (map Candidates.Chrome.link_key r)
      /\ sublist r (Candidates.collect found)
      /\ forall e, In e (Candidates.collect found) ->
           exists e', In e' r
                      /\ Candidates.Chrome.link_key e' = Candidates.Chrome.link_key e).
Proof.
  split.
  - apply (uniq_by_spec Candidates.Edge.link_key).
  - apply (uniq_by_spec Candidates.Chrome.link_key).
Qed.

(** X6. In both scrapers the name-match score of a candidate lies
    between 0 and 3; the two scrapers give a candidate that has an
    [href] the same score, and [fps_scraper_edge.py], which also reads
    [data-href], never scores a candidate lower than
    [fps_scraper_chrome.py] does. *)
Theorem score_range (a : Candidates.web_element) (first last : str) :
  Candidates.Edge._score_anchor_for_name a first last <= 3
  /\ Candidates.Chrome._score_anchor_for_name a first last
     <= Candidates.Edge._score_anchor_for_name a first last
  /\ (truthy (or_empty (Candidates.we_href a)) = true ->
      Candidates.Chrome._score_anchor_for_name a first last
      = Candidates.Edge._score_anchor_for_name a first last).
Proof.
  unfold Candidates.Edge._score_anchor_for_name,
         Candidates.Chrome._score_anchor_for_name, Candidates.attr_or.
  cbv zeta.
  set (txt := Candidates._normalize_name (Candidates.we_text a)).
  destruct (truthy (or_empty (Candidates.we_href a))) eqn:Eh.
  - set (href := Candidates._normalize_name (or_empty (Candidates.we_href a))).
    destruct (contains first txt), (contains last txt),
             (contains first href), (contains last href);
      cbn; repeat split; lia.
  - apply truthy_false in Eh. rewrite Eh.
    change (Candidates._normalize_name []) with (@nil ascii).
    set (href := Candidates._normalize_name
                   (if truthy (or_empty (Candidates.we_data_href a))
                    then or_empty (Candidates.we_data_href a) else [])).
    assert (Hsub : forall x, contains x [] = true -> contains x href = true).
    { intros [|c x]; [|discriminate]. intros _. destruct href; reflexivity. }
    destruct (contains first []) eqn:E1, (contains last []) eqn:E2;
      try (rewrite (Hsub _ E1)); try (rewrite (Hsub _ E2));
      destruct (contains first txt), (contains last txt);
      try destruct (contains first href); try destruct (contains last href);
      cbn; repeat split; solve [lia | discriminate].
Qed.

Lemma score_range_witness :
  Candidates.Chrome._score_anchor_for_name
    {| Candidates.we_text := lit "John Smith";
       Candidates.we_href := Some (lit "/person/john-smith");
       Candidates.we_data_href := None; Candidates.we_id := 2 |}
    (lit "john") (lit "smith")
  = Candidates.Edge._score_anchor_for_name
      {| Candidates.we_text := lit "John Smith";
         Candidates.we_href := Some (lit "/person/john-smith");
         Candidates.we_data_href := None; Candidates.we_id := 2 |}
      (lit "john") (lit "smith").
Proof.
  apply (score_range
           {| Candidates.we_text := lit "John Smith";
              Candidates.we_href := Some (lit "/person/john-smith");
              Candidates.we_data_href := None; Candidates.we_id := 2 |}
           (lit "john") (lit "smith")).
  reflexivity.
Defined.

(** ** The checkpoint writer *)

Lemma save_atomic_lookup (csv path q : str) (fs : filesystem) :
  save_atomic csv path fs !! q
  = if decide (q = path) then Some csv
    else if decide (q = path ++ lit ".tmp") then None
    else fs !! q.
Proof.
  destruct (decide (q = path)) as [->|Hq]; [apply save_atomic_done|].
  unfold save_atomic, save_atomic_ops. rewrite run_ops_snoc.
  rewrite (apply_replace _ _ _ csv) by apply write_file_content.
  etransitivity; [apply lookup_insert_ne; congruence|].
  destruct (decide (q = path ++ lit ".tmp")) as [->|Hq'].
  - apply lookup_delete_eq.
  - etransitivity; [apply lookup_delete_ne; congruence|].
    apply (run_ops_other (path ++ lit ".tmp")); [apply write_file_ops_only|assumption].
Qed.

(** X7. What [save_atomic] does to the file system: afterwards [path]
    holds the whole text, the temporary file [path.tmp] is gone, and
    every other file is as it was. *)
Theorem save_atomic_effect (csv path : str) (fs : filesystem) :
  save_atomic csv path fs = <[ path := csv ]> (delete (path ++ lit ".tmp") fs).
Proof.
  apply map_eq. intros q. rewrite save_atomic_lookup.
  destruct (decide (q = path)) as [->|Hq].
  - symmetry. apply lookup_insert_eq.
  - symmetry. etransitivity; [apply lookup_insert_ne; congruence|].
    destruct (decide (q = path ++ lit ".tmp")) as [->|Hq'].
    + apply lookup_delete_eq.
    + apply lookup_delete_ne. congruence.
Qed.

Lemma crash_state_lookup (csv path q : str) (fs fs' : filesystem) :
  In fs' (crash_states csv path fs) ->
  q <> path -> q <> path ++ lit ".tmp" -> fs' !! q = fs !! q.
Proof.
  unfold crash_states. intros H Hq Hq'.
  apply in_map_iff in H as (k & <- & Hk). apply in_seq in Hk.
  unfold save_atomic_ops in *. rewrite length_app in Hk. cbn [length] in Hk.
  destruct (le_lt_dec k (length (write_file_ops (path ++ lit ".tmp") csv))) as [Hle|Hlt].
  - rewrite firstn_app.
    replace (k - length (write_file_ops (path ++ lit ".tmp") csv)) with 0 by lia.
    rewrite firstn_O, app_nil_r.
    apply (run_ops_other (path ++ lit ".tmp")); [|assumption].
    apply Forall_firstn, write_file_ops_only.
  - rewrite firstn_all2 by (rewrite length_app; cbn [length]; lia).
    change (run_ops fs (write_file_ops (path ++ lit ".tmp") csv
                        ++ [Replace (path ++ lit ".tmp") path]))
      with (save_atomic csv path fs).
    rewrite save_atomic_lookup.
    destruct (decide (q = path)); [contradiction|].
    destruct (decide (q = path ++ lit ".tmp")); [contradiction|reflexivity].
Qed.

(** X8. A save that follows an interrupted save repairs it: whatever
    state a crash during [save_atomic] left behind (a partial temporary
    file, or the finished replacement), the next [save_atomic] on the
    same path leaves exactly the file system it would have left had the
    interrupted save never been started.  In particular a later save
    overwrites an earlier one. *)
Theorem save_atomic_after_crash (csv csv' path : str) (fs fs' : filesystem) :
  In fs' (crash_states csv path fs) ->
  save_atomic csv' path fs' = save_atomic csv' path fs.
Proof.
  intros H. apply map_eq. intros q. rewrite !save_atomic_lookup.
  destruct (decide (q = path)); [reflexivity|].
  destruct (decide (q = path ++ lit ".tmp")); [reflexivity|].
  apply (crash_state_lookup csv path q fs fs'); assumption.
Qed.

Lemma save_atomic_after_crash_witness :
  save_atomic (lit "name,age") (lit "out.csv")
    (run_ops ∅ (firstn 3 (save_atomic_ops (lit "name") (lit "out.csv"))))
  = save_atomic (lit "name,age") (lit "out.csv") ∅.
Proof.
  apply (save_atomic_after_crash (lit "name") (lit "name,age") (lit "out.csv") ∅).
  unfold crash_states. apply in_map_iff. exists 3. split; [reflexivity|].
  apply in_seq. cbn. lia.
Defined.

(** ** Debug file stubs *)

Lemma decimal_digits (d : Decimal.uint) :
  forallb is_digit (list_ascii_of_string (NilEmpty.string_of_uint d)) = true.
Proof. induction d; simpl; auto. Qed.

Lemma decimal_value_acc (d : Decimal.uint) (acc : nat) :
  fold_left (fun acc c => acc * 10 + (N.to_nat (code c) - 48))
    (list_ascii_of_string (NilEmpty.string_of_uint d)) acc
  = Nat.of_uint_acc d acc.
Proof.
  revert acc. induction d; intros acc; cbn [NilEmpty.string_of_uint
    list_ascii_of_string fold_left Nat.of_uint_acc]; [reflexivity|..];
    rewrite IHd; f_equal; rewrite Nat.tail_mul_spec;
    match goal with
    | |- _ + (N.to_nat (code ?c) - 48) = _ =>
        let v := eval vm_compute in (N.to_nat (code c) - 48) in
        change (N.to_nat (code c) - 48) with v
    end; lia.
Qed.

Lemma str_of_nat_digits (n : nat) :
  forallb is_digit (Candidates.str_of_nat n) = true.
Proof.
  unfold Candidates.str_of_nat, NilZero.string_of_uint.
  destruct (Nat.to_uint n); try apply decimal_digits. reflexivity.
Qed.

Lemma str_of_nat_value (n : nat) : decimal_value (Candidates.str_of_nat n) = n.
Proof.
  unfold decimal_value, Candidates.str_of_nat, NilZero.string_of_uint.
  rewrite <- (DecimalNat.Unsigned.of_to n) at 2. unfold Nat.of_uint.
  destruct (Nat.to_uint n); try apply decimal_value_acc. reflexivity.
Qed.

Lemma pad5_digits (n : nat) : forallb is_digit (Stub.pad5 n) = true.
Proof.
  unfold Stub.pad5. cbv zeta. rewrite forallb_app, str_of_nat_digits, andb_true_r.
  induction (5 - length (Candidates.str_of_nat n)); simpl; auto.
Qed.

Lemma pad5_value (n : nat) : decimal_value (Stub.pad5 n) = n.
Proof.
  unfold Stub.pad5. cbv zeta. unfold decimal_value. rewrite fold_left_app.
  assert (E : forall k, fold_left (fun acc c => acc * 10 + (N.to_nat (code c) - 48))
                          (repeat "0" k) 0 = 0).
  { induction k; simpl; auto. }
  rewrite E. apply str_of_nat_value.
Qed.

Lemma pad5_length (n : nat) : 5 <= length (Stub.pad5 n).
Proof.
  unfold Stub.pad5. cbv zeta. rewrite length_app, repeat_length. lia.
Qed.

Lemma forallb_lstrip_chr (p : ascii -> bool) (x : ascii) (s : str) :
  forallb p s = true -> forallb p (Stub.lstrip_chr x s) = true.
Proof.
  induction s as [|c t IH]; [auto|]. cbn [Stub.lstrip_chr].
  destruct (chr_eqb c x); [|auto].
  cbn [forallb]. intros H. apply andb_prop in H as [_ H]. auto.
Qed.

Lemma forallb_strip_chr (p : ascii -> bool) (x : ascii) (s : str) :
  forallb p s = true -> forallb p (Stub.strip_chr x s) = true.
Proof.
  intros H. unfold Stub.strip_chr.
  rewrite forallb_rev. apply forallb_lstrip_chr.
  rewrite forallb_rev. apply forallb_lstrip_chr, H.
Qed.

Lemma stub_part_chars (x : option str) :
  forallb stub_chr (Stub.stub_part x) = true.
Proof.
  unfold Stub.stub_part, Stub.NOT_STUB_RE. apply forallb_strip_chr.
  rewrite sub_plus_cls. apply squeeze_chars; [reflexivity|].
  intros c _ Hc. apply negb_false_iff in Hc. unfold stub_chr.
  rewrite Hc. reflexivity.
Qed.

Lemma digits_prefix_unique (a b r r' : str) :
  forallb is_digit a = true -> forallb is_digit b = true ->
  a ++ "_" :: r = b ++ "_" :: r' -> a = b.
Proof.
  revert b. induction a as [|x a IH]; intros [|y b] Ha Hb E; simpl in *.
  - reflexivity.
  - injection E as <- _. apply andb_prop in Hb as [Hb _]. discriminate Hb.
  - injection E as -> _. apply andb_prop in Ha as [Ha _]. discriminate Ha.
  - injection E as <- E. apply andb_prop in Ha as [_ Ha].
    apply andb_prop in Hb as [_ Hb]. f_equal. eauto.
Qed.

(** X9. The stub that names a record's debug files is safe as a file
    name and tells the records apart: it holds nothing but lower-case
    letters, digits, hyphens and underscores; it begins with the row
    index written with at least five digits, followed by an underscore;
    and two records with different indices never get the same stub,
    whatever their names. *)
Theorem safe_name_stub_safe (first last first' last' : option str) (idx idx' : nat) :
  forallb stub_chr (Stub.safe_name_stub first last idx) = true
  /\ (exists digits rest,
        Stub.safe_name_stub first last idx = digits ++ lit "_" ++ rest
        /\ 5 <= length digits /\ forallb is_digit digits = true
        /\ decimal_value digits = idx)
  /\ (idx <> idx' ->
      Stub.safe_name_stub first last idx <> Stub.safe_name_stub first' last' idx').
Proof.
  split; [|split].
  - unfold Stub.safe_name_stub. rewrite !forallb_app, !stub_part_chars.
    rewrite (forallb_weaken is_digit stub_chr).
    + reflexivity.
    + intros c Hc. unfold stub_chr. rewrite Hc, orb_true_r. reflexivity.
    + apply pad5_digits.
  - exists (Stub.pad5 idx), (Stub.stub_part first ++ lit "_" ++ Stub.stub_part last).
    split; [reflexivity|]. split; [apply pad5_length|].
    split; [apply pad5_digits|apply pad5_value].
  - intros Hne E. apply Hne. unfold Stub.safe_name_stub in E.
    apply digits_prefix_unique in E; try apply pad5_digits.
    rewrite <- (pad5_value idx), <- (pad5_value idx'), E. reflexivity.
Qed.

Lemma safe_name_stub_safe_witness :
  Stub.safe_name_stub (Some (lit "Mary-Ann")) (Some (lit "O Neil")) 7
  <> Stub.safe_name_stub (Some (lit "Mary-Ann")) (Some (lit "O Neil")) 8.
Proof.
  apply (safe_name_stub_safe (Some (lit "Mary-Ann")) (Some (lit "O Neil"))
           (Some (lit "Mary-Ann")) (Some (lit "O Neil")) 7 8).
  lia.
Defined.

(** ** Decoding protected e-mail addresses *)

Lemma int16_hex2_table :
  forallb (fun k => match int16 (hex2 (N.of_nat k)) with
                    | Some v => (v =? Z.of_N (N.of_nat k))%Z
                    | None => false
                    end) (seq 0 256) = true.
Proof. vm_compute. reflexivity. Qed.

Lemma int16_hex2 (n : N) : (n < 256)%N -> int16 (hex2 n) = Some (Z.of_N n).
Proof.
  intros Hn. pose proof int16_hex2_table as T.
  rewrite List.forallb_forall in T. specialize (T (N.to_nat n)).
  rewrite N2Nat.id in T.
  destruct (int16 (hex2 n)) as [v|].
  - f_equal. apply Z.eqb_eq. apply T. apply in_seq. lia.
  - discriminate T. apply in_seq. lia.
Qed.

Lemma lxor_byte (a b : N) : (a < 256)%N -> (b < 256)%N -> (N.lxor a b < 256)%N.
Proof.
  intros Ha Hb. change 256%N with (2 ^ 8)%N in *.
  destruct (N.eq_dec (N.lxor a b) 0%N) as [E|E]; [rewrite E; reflexivity|].
  apply N.log2_lt_pow2; [lia|].
  eapply N.le_lt_trans; [apply N.log2_lxor|].
  apply N.max_lub_lt.
  - destruct (N.eq_dec a 0%N) as [->|]; [reflexivity|]. apply N.log2_lt_pow2; lia.
  - destruct (N.eq_dec b 0%N) as [->|]; [reflexivity|]. apply N.log2_lt_pow2; lia.
Qed.

Lemma code_byte (c : ascii) : (code c < 256)%N.
Proof. apply N_ascii_bounded. Qed.

Lemma py_chr_code (c : ascii) : py_chr (Z.of_N (code c)) = Some c.
Proof.
  unfold py_chr. pose proof (code_byte c) as H.
  replace (0 <=? Z.of_N (code c))%Z with true by (symmetry; apply Z.leb_le; lia).
  replace (Z.of_N (code c) <? 256)%Z with true by (symmetry; apply Z.ltb_lt; lia).
  simpl. rewrite N2Z.id. unfold code. rewrite ascii_N_embedding. reflexivity.
Qed.

Lemma chunks2_hex2 (f : ascii -> N) (text : str) :
  chunks2 (flat_map (fun c => hex2 (f c)) text) = map (fun c => hex2 (f c)) text.
Proof.
  induction text as [|c t IH]; [reflexivity|].
  cbn [flat_map map]. unfold hex2 at 1. cbn [app chunks2]. rewrite IH. reflexivity.
Qed.

(** X10. [decode_cf_email] undoes the obfuscation of a protected
    address: for every key byte and every text, decoding the key followed
    by the characters XOR-ed with the key, all written in hexadecimal,
    gives the text back. *)
Theorem decode_cf_email_round_trip (key : N) (text : str) :
  (key < 256)%N -> decode_cf_email (cf_encode key text) = Some text.
Proof.
  intros Hk. unfold decode_cf_email, cf_encode.
  change (slice_to 2 (hex2 key ++ ?r)) with (hex2 key).
  change (skipn 2 (hex2 key ++ ?r)) with r.
  rewrite (int16_hex2 key Hk), chunks2_hex2.
  induction text as [|c t IH]; [reflexivity|].
  cbn [map decode_chunks].
  rewrite int16_hex2 by (apply lxor_byte; [apply code_byte|assumption]).
  rewrite <- N2Z.inj_lxor, N.lxor_assoc, N.lxor_nilpotent, N.lxor_0_r.
  rewrite py_chr_code, IH. reflexivity.
Qed.

Lemma decode_cf_email_round_trip_witness :
  decode_cf_email (cf_encode 66 (lit "jane@example.com")) = Some (lit "jane@example.com").
Proof.
  apply (decode_cf_email_round_trip 66 (lit "jane@example.com")). reflexivity.
Defined.

Lemma hex_plain (a : ascii) :
  is_hex a = true ->
  int_space a = false /\ chr_eqb a "+" = false /\ chr_eqb a "-" = false
  /\ (0 <= hex_value a < 16)%Z.
Proof.
  ascii_cases a; intros H; try discriminate H; vm_compute; intuition congruence.
Qed.

Lemma filter_fixed {A} (p : A -> bool) (l : list A) :
  forallb p l = true -> List.filter p l = l.
Proof.
  induction l as [|a l IH]; simpl; [reflexivity|].
  intros H. apply andb_prop in H as [-> H]. f_equal. auto.
Qed.

Lemma int16_hex_chunk (c : str) :
  forallb is_hex c = true -> c <> [] -> length c <= 2 ->
  exists v, int16 c = Some v /\ (0 <= v < 256)%Z.
Proof.
  intros Hh Hne Hl.
  assert (Hf : List.filter (fun x => negb (int_space x)) c = c).
  { apply filter_fixed. eapply forallb_weaken; [|exact Hh].
    intros a Ha. apply hex_plain in Ha as (-> & _). reflexivity. }
  assert (Hn : int16 c = hex_number c).
  { unfold int16. rewrite Hf. destruct c as [|a c]; [congruence|].
    simpl in Hh. apply andb_prop in Hh as [Ha _].
    apply hex_plain in Ha as (_ & Hp & Hm & _).
    apply chr_eqb_false in Hp, Hm.
    destruct a as [[|] [|] [|] [|] [|] [|] [|] [|]]; try reflexivity; congruence. }
  rewrite Hn. unfold hex_number. rewrite Hh.
  destruct c as [|a [|b [|? ?]]]; [congruence| | |simpl in Hl; lia]; cbn [truthy andb].
  - simpl in Hh. apply andb_prop in Hh as [Ha _].
    apply hex_plain in Ha as (_ & _ & _ & Ha).
    eexists. split; [reflexivity|]. simpl. lia.
  - simpl in Hh. apply andb_prop in Hh as [Ha Hb].
    apply andb_prop in Hb as [Hb _].
    apply hex_plain in Ha as (_ & _ & _ & Ha).
    apply hex_plain in Hb as (_ & _ & _ & Hb).
    eexists. split; [reflexivity|]. simpl. lia.
Qed.

Lemma zlxor_byte (a b : Z) :
  (0 <= a < 256)%Z -> (0 <= b < 256)%Z -> (0 <= Z.lxor a b < 256)%Z.
Proof.
  intros Ha Hb.
  assert (H : Z.lxor a b = Z.of_N (N.lxor (Z.to_N a) (Z.to_N b))).
  { rewrite N2Z.inj_lxor, !Z2N.id by lia. reflexivity. }
  rewrite H.
  pose proof (lxor_byte (Z.to_N a) (Z.to_N b) ltac:(lia) ltac:(lia)). lia.
Qed.

Lemma decode_chunks_hex (key : Z) (n : nat) (rest : str) :
  (0 <= key < 256)%Z -> length rest <= n -> forallb is_hex rest = true ->
  exists out, decode_chunks key (chunks2 rest) = Some out
              /\ length out = (length rest + 1) / 2.
Proof.
  intros Hk. revert rest. induction n as [|n IH]; intros rest Hl Hh.
  - destruct rest; [|simpl in Hl; lia]. exists []. auto.
  - destruct rest as [|a [|b t]].
    + exists []. auto.
    + destruct (int16_hex_chunk [a] Hh) as (v & Hv & Hb); [discriminate|simpl; lia|].
      cbn [chunks2 decode_chunks]. rewrite Hv.
      pose proof (zlxor_byte v key Hb Hk) as Hx.
      unfold py_chr.
      replace (0 <=? Z.lxor v key)%Z with true by (symmetry; apply Z.leb_le; lia).
      replace (Z.lxor v key <? 256)%Z with true by (symmetry; apply Z.ltb_lt; lia).
      eexists. split; reflexivity.
    + assert (Hab : forallb is_hex [a; b] = true /\ forallb is_hex t = true).
      { simpl in Hh. apply andb_prop in Hh as [Ha Hh].
        apply andb_prop in Hh as [Hb' Ht]. simpl. rewrite Ha, Hb'. auto. }
      destruct Hab as [Hab Ht].
      destruct (int16_hex_chunk [a; b] Hab) as (v & Hv & Hb); [discriminate|simpl; lia|].
      destruct (IH t) as (out & Ho & Hlen); [simpl in Hl; lia|assumption|].
      cbn [chunks2 decode_chunks]. rewrite Hv, Ho.
      pose proof (zlxor_byte v key Hb Hk) as Hx.
      unfold py_chr.
      replace (0 <=? Z.lxor v key)%Z with true by (symmetry; apply Z.leb_le; lia).
      replace (Z.lxor v key <? 256)%Z with true by (symmetry; apply Z.ltb_lt; lia).
      eexists. split; [reflexivity|].
      cbn [length andb]. rewrite Hlen.
      replace (S (S (length t)) + 1) with ((length t + 1) + 1 * 2) by lia.
      rewrite Nat.div_add by lia. lia.
Qed.

(** X11. On a string of hexadecimal digits [decode_cf_email] never
    fails unless the string is empty: the first two digits (or the only
    one) are the key, and every further pair of digits (a last single
    digit counts as a pair) gives one character.  On the empty string it
    returns [None]. *)
Theorem decode_cf_email_on_hex (cf_hex : str) :
  forallb is_hex cf_hex = true ->
  match decode_cf_email cf_hex with
  | Some out => cf_hex <> [] /\ length out = (length cf_hex - 1) / 2
  | None => cf_hex = []
  end.
Proof.
  intros Hh. destruct cf_hex as [|a s]; [reflexivity|].
  unfold decode_cf_email.
  assert (Hkey : exists key, int16 (slice_to 2 (a :: s)) = Some key /\ (0 <= key < 256)%Z).
  { apply int16_hex_chunk.
    - unfold slice_to. destruct s as [|b s]; simpl in *.
      + assumption.
      + apply andb_prop in Hh as [-> Hh]. apply andb_prop in Hh as [-> _]. reflexivity.
    - discriminate.
    - unfold slice_to. apply firstn_le_length. }
  destruct Hkey as (key & -> & Hk).
  destruct (decode_chunks_hex key (length (skipn 2 (a :: s))) (skipn 2 (a :: s)) Hk)
    as (out & -> & Hlen); [lia| |].
  - destruct s as [|b s]; [reflexivity|]. simpl in *.
    apply andb_prop in Hh as [_ Hh]. apply andb_prop in Hh as [_ Hh]. exact Hh.
  - split; [discriminate|]. rewrite Hlen.
    destruct s as [|b s]; [reflexivity|].
    change (skipn 2 (a :: b :: s)) with s. cbn [length]. f_equal. lia.
Qed.

Lemma decode_cf_email_on_hex_witness :
  match decode_cf_email (lit "422827") with
  | Some out => lit "422827" <> [] /\ length out = (length (lit "422827") - 1) / 2
  | None => lit "422827" = []
  end.
Proof. apply (decode_cf_email_on_hex (lit "422827")). reflexivity. Defined.

(** ** De-duplication *)

Lemma dedupe_fold_full (items : list str) (seen : gset str) (out : list str) :
  (forall x, x ∈ seen <-> In x out) ->
  let r := fold_left dedupe_step items (seen, out) in
  (forall x, x ∈ fst r <-> In x (snd r))
  /\ (exists kept, snd r = out ++ kept /\ sublist kept (map py_strip items))
  /\ (forall y, In y items -> py_strip y <> [] -> In (py_strip y) (snd r)).
Proof.
  revert seen out. induction items as [|it items IH]; intros seen out Hseen.
  - simpl. split; [assumption|]. split.
    + exists []. rewrite app_nil_r. split; [reflexivity|constructor].
    + intros y [].
  - cbv zeta. cbn [fold_left].
    destruct (truthy (py_strip it) && negb (bool_decide (py_strip it ∈ seen))) eqn:E.
    + assert (Hstep : dedupe_step (seen, out) it
                      = (seen ∪ {[py_strip it]}, out ++ [py_strip it]))
        by (unfold dedupe_step; rewrite E; reflexivity).
      rewrite Hstep. clear Hstep.
      assert (Hseen' : forall x, x ∈ seen ∪ {[py_strip it]} <-> In x (out ++ [py_strip it])).
      { intros x. rewrite elem_of_union, elem_of_singleton, in_app_iff, Hseen.
        simpl. intuition. }
      destruct (IH _ _ Hseen') as (H1 & (kept & Hk & Hsub) & H3).
      split; [assumption|]. split.
      * exists (py_strip it :: kept). split.
        -- rewrite Hk, <- app_assoc. reflexivity.
        -- cbn [map]. apply sublist_skip, Hsub.
      * intros y [<-|Hy] Hne; [|auto].
        rewrite Hk. apply in_or_app. left. apply in_or_app. right. left. reflexivity.
    + assert (Hstep : dedupe_step (seen, out) it = (seen, out))
        by (unfold dedupe_step; rewrite E; reflexivity).
      rewrite Hstep. clear Hstep.
      destruct (IH _ _ Hseen) as (H1 & (kept & Hk & Hsub) & H3).
      split; [assumption|]. split.
      * exists kept. split; [assumption|]. cbn [map]. apply sublist_cons, Hsub.
      * intros y [<-|Hy] Hne; [|auto].
        apply andb_false_iff in E as [E|E].
        -- apply truthy_false in E. contradiction.
        -- apply negb_false_iff, bool_decide_eq_true in E.
           rewrite Hk. apply in_or_app. left. apply Hseen, E.
Qed.

Lemma dedupe_fold_fixed (r : list str) (seen : gset str) (out : list str) :
  NoDup r -> (forall x, In x r -> x <> [] /\ py_strip x = x /\ x ∉ seen) ->
  snd (fold_left dedupe_step r (seen, out)) = out ++ r.
Proof.
  revert seen out. induction r as [|x r IH]; intros seen out Hnd Hall.
  - simpl. rewrite app_nil_r. reflexivity.
  - cbn [fold_left].
    destruct (Hall x) as (Hne & Hst & Hns); [left; reflexivity|].
    assert (Hstep : dedupe_step (seen, out) x = (seen ∪ {[x]}, out ++ [x])).
    { unfold dedupe_step. rewrite Hst.
      replace (truthy x) with true by (symmetry; apply truthy_true; assumption).
      replace (bool_decide (x ∈ seen)) with false
        by (symmetry; apply bool_decide_eq_false; assumption).
      reflexivity. }
    rewrite Hstep. apply NoDup_cons in Hnd as [Hx Hnd].
    rewrite IH; [rewrite <- app_assoc; reflexivity|assumption|].
    intros y Hy. destruct (Hall y) as (? & ? & ?); [right; assumption|].
    repeat split; try assumption.
    intros Hin. apply elem_of_union in Hin as [Hin|Hin]; [contradiction|].
    apply elem_of_singleton in Hin. subst y.
    apply Hx. apply list_elem_of_In. assumption.
Qed.

(** X12. [_dedupe_preserve_order] returns the stripped, non-empty items
    of its input, each once, in the order of their first occurrence:
    the result has no duplicates; a string is in it exactly when it is
    not empty and is the stripped form of an item; the result is a
    sub-sequence of the stripped items; and de-duplicating the result
    again changes nothing. *)
Theorem _dedupe_preserve_order_spec (items : list str) :
  let r := _dedupe_preserve_order items in
  NoDup r
  /\ (forall x, In x r <-> x <> [] /\ exists y, In y items /\ x = py_strip y)
  /\ sublist r (map py_strip items)
  /\ _dedupe_preserve_order r = r.
Proof.
  cbv zeta.
  assert (Hin : forall x, In x (_dedupe_preserve_order items)
                  <-> x <> [] /\ exists y, In y items /\ x = py_strip y).
  { intros x. split.
    - intros H. apply _dedupe_preserve_order_in in H as (y & Hy & -> & Hne). eauto.
    - intros (Hne & y & Hy & ->).
      unfold _dedupe_preserve_order.
      destruct (dedupe_fold_full items ∅ []) as (_ & _ & H3); [|auto].
      intros z. split; [intros Hz; exfalso; set_solver|intros []]. }
  split; [apply _dedupe_preserve_order_NoDup|]. split; [exact Hin|]. split.
  - unfold _dedupe_preserve_order.
    destruct (dedupe_fold_full items ∅ []) as (_ & (kept & -> & Hsub) & _); [|exact Hsub].
    intros z. split; [intros Hz; exfalso; set_solver|intros []].
  - unfold _dedupe_preserve_order at 1.
    rewrite dedupe_fold_fixed; [reflexivity|apply _dedupe_preserve_order_NoDup|].
    intros x Hx. apply Hin in Hx as (Hne & y & _ & ->).
    repeat split; [assumption|apply py_strip_idem|set_solver].
Qed.

(** ** Phone normalisation, for every input *)

(** X13. For every input, [_normalize_phone] keeps the digits and their
    order (only the leading 1 of eleven digits is dropped), returns a
    string without blanks at its ends, and returns a string that it
    maps to itself: normalising twice is normalising once. *)
Theorem _normalize_phone_stable (raw : str) :
  digits_of (_normalize_phone raw)
  = (if Nat.eqb (length (digits_of raw)) 11 && starts_with (lit "1") (digits_of raw)
     then skipn 1 (digits_of raw) else digits_of raw)
  /\ trimmed (_normalize_phone raw)
  /\ _normalize_phone (_normalize_phone raw) = _normalize_phone raw.
Proof.
  split; [|split; [|apply _normalize_phone_idempotent]].
  - destruct (_normalize_phone_cases raw) as (H10 & H11 & Hno).
    assert (Hd : forallb is_digit (digits_of raw) = true) by apply forallb_filter_same.
    destruct (Nat.eqb (length (digits_of raw)) 11 && starts_with (lit "1") (digits_of raw)) eqn:E11.
    + apply andb_prop in E11 as [E E1]. apply Nat.eqb_eq in E.
      rewrite (H11 E E1). apply digits_of_canonical.
      * rewrite length_skipn. lia.
      * destruct (digits_of raw) as [|x d]; [discriminate|].
        simpl in Hd. apply andb_prop in Hd as [_ Hd]. exact Hd.
    + destruct (Nat.eqb (length (digits_of raw)) 10) eqn:E10.
      * apply Nat.eqb_eq in E10. rewrite (H10 E10).
        apply digits_of_canonical; assumption.
      * rewrite Hno; [apply digits_of_strip|].
        unfold reducible. rewrite E10, E11. reflexivity.
  - destruct (reducible raw) eqn:E.
    + pose proof (canonical_trimmed _ (reducible_normalized raw E)) as H.
      rewrite <- H. apply py_strip_trimmed.
    + destruct (_normalize_phone_cases raw) as (_ & _ & Hno).
      rewrite (Hno E). apply py_strip_trimmed.
Qed.

(** ** The city-state slug *)

Lemma py_strip_blank_app (w s : str) :
  forallb py_isspace w = true -> py_strip (w ++ s) = py_strip s.
Proof. intros H. unfold py_strip. rewrite lstrip_blank_app by assumption. reflexivity. Qed.

Lemma upper_letter_not_space (c : ascii) :
  is_letter c = true -> py_isspace (py_upper_chr c) = false.
Proof. ascii_cases c; intros H; try discriminate H; reflexivity. Qed.

Lemma city_state_slug_no_blank (field st : str) :
  forallb is_letter st = true ->
  forallb (fun c => negb (py_isspace c)) (city_state_slug field st) = true.
Proof.
  intros Hst. unfold city_state_slug. rewrite !forallb_app.
  rewrite squeeze_no_class by reflexivity. cbn [lit list_ascii_of_string forallb].
  replace (negb (py_isspace "-")) with true by reflexivity. cbn [andb].
  unfold py_upper. apply List.forallb_forall. intros c Hc.
  apply in_map_iff in Hc as (x & <- & Hx).
  rewrite List.forallb_forall in Hst.
  rewrite upper_letter_not_space by auto. reflexivity.
Qed.

(** X14. When [to_city_state_slug] returns a slug, the stripped address
    ends in [, field, ST] or [, field, ST, ZIP] (a field without commas,
    two letters, five digits), and the slug is that field without the
    blanks at its ends and with each run of blanks inside it turned into
    one hyphen, followed by a hyphen and the two letters in capitals; the
    slug holds no blank. *)
Theorem to_city_state_slug_shape (addr slug : str) :
  to_city_state_slug (PyStr addr) = Some slug ->
  (exists before field sp st zip,
     py_strip addr = before ++ [","] ++ field ++ [","] ++ sp ++ st ++ zip
     /\ field <> []
     /\ Forall (fun c => c <> ",") field
     /\ Forall (fun c => py_isspace c = true) sp
     /\ length st = 2
     /\ Forall (fun c => is_letter c = true) st
     /\ (zip = []
         \/ exists sp' ds,
              zip = [","] ++ sp' ++ ds
              /\ Forall (fun c => py_isspace c = true) sp'
              /\ length ds = 5
              /\ Forall (fun c => is_digit c = true) ds)
     /\ slug = city_state_slug field st)
  /\ forallb (fun c => negb (py_isspace c)) slug = true.
Proof.
  intros H.
  assert (Hshape : exists before field sp st zip,
     py_strip addr = before ++ [","] ++ field ++ [","] ++ sp ++ st ++ zip
     /\ field <> []
     /\ Forall (fun c => c <> ",") field
     /\ Forall (fun c => py_isspace c = true) sp
     /\ length st = 2
     /\ Forall (fun c => is_letter c = true) st
     /\ (zip = []
         \/ exists sp' ds,
              zip = [","] ++ sp' ++ ds
              /\ Forall (fun c => py_isspace c = true) sp'
              /\ length ds = 5
              /\ Forall (fun c => is_digit c = true) ds)
     /\ slug = city_state_slug field st).
  { unfold to_city_state_slug in H.
    destruct (search CITY_STATE_RE (py_strip addr)) as [[[m caps] t]|] eqn:Es;
      [|discriminate].
    injection H as <-.
    unfold search in Es.
    apply search_from_some in Es as (before & prev' & s' & Hs & Hin).
    cbv [CITY_STATE_RE Opt Plus Rep Chr ws digit] in Hin.
    inv_re Hin;
      repeat match goal with
             | H : chr_eqb "," _ = true |- _ => apply chr_eqb_true in H; subst
             end;
      match goal with
      | Hend : _ = [] \/ _ = ["010"] |- _ => destruct Hend as [->| ->]
      end;
      try solve [ exfalso; apply (trimmed_not_ends_nl _ (py_strip_trimmed addr));
                  rewrite Hs; ends_nl ].
    - match type of Hs with
      | _ = before ++ _ :: ?w1 ++ ?x1 :: ?m1 ++ _ :: ?w2 ++ ?l1 :: ?l2 :: _ :: ?w3
              ++ ?d1 :: ?d2 :: ?d3 :: ?d4 :: ?d5 :: [] =>
          exists before, (w1 ++ x1 :: m1), w2, [l1; l2],
                 ([","] ++ w3 ++ [d1; d2; d3; d4; d5])
      end.
      repeat split.
      + rewrite Hs. repeat (simpl; rewrite <- ?app_assoc). reflexivity.
      + intros E. apply app_eq_nil in E as [_ E]. discriminate.
      + apply Forall_app. split; [apply space_Forall_not_comma; assumption|].
        constructor; [|apply not_comma_Forall; assumption].
        match goal with
        | Hn : negb (chr_eqb _ ",") = true |- _ =>
            apply negb_true_iff, chr_eqb_false in Hn; exact Hn
        end.
      + apply forallb_Forall_true. assumption.
      + repeat constructor; assumption.
      + right. eexists _, _. repeat split.
        * apply forallb_Forall_true. assumption.
        * repeat constructor; assumption.
      + unfold city_state_slug. cbn [app group Nat.eqb or_empty].
        rewrite py_strip_blank_app by assumption.
        unfold ws. rewrite sub_plus_cls. reflexivity.
    - match type of Hs with
      | _ = before ++ _ :: ?w1 ++ ?x1 :: ?m1 ++ _ :: ?w2 ++ ?l1 :: ?l2 :: [] =>
          exists before, (w1 ++ x1 :: m1), w2, [l1; l2], []
      end.
      repeat split.
      + rewrite Hs. repeat (simpl; rewrite <- ?app_assoc). reflexivity.
      + intros E. apply app_eq_nil in E as [_ E]. discriminate.
      + apply Forall_app. split; [apply space_Forall_not_comma; assumption|].
        constructor; [|apply not_comma_Forall; assumption].
        match goal with
        | Hn : negb (chr_eqb _ ",") = true |- _ =>
            apply negb_true_iff, chr_eqb_false in Hn; exact Hn
        end.
      + apply forallb_Forall_true. assumption.
      + repeat constructor; assumption.
      + left. reflexivity.
      + unfold city_state_slug. cbn [app group Nat.eqb or_empty].
        rewrite py_strip_blank_app by assumption.
        unfold ws. rewrite sub_plus_cls. reflexivity. }
  split; [exact Hshape|].
  destruct Hshape as (before & field & sp & st & zip & _ & _ & _ & _ & _ & Hst & _ & ->).
  apply city_state_slug_no_blank. apply Forall_forallb_true. exact Hst.
Qed.

Lemma to_city_state_slug_shape_witness :
  forallb (fun c => negb (py_isspace c)) (lit "San-Jose-CA") = true.
Proof.
  apply (to_city_state_slug_shape (lit " 12 Main St,  San   Jose, ca, 95112 ")
           (lit "San-Jose-CA")).
  vm_compute. reflexivity.
Defined.

(** ** What the detail-page parsers return *)

Lemma dedupe_entry_clean (items : list str) (x : str) :
  In x (_dedupe_preserve_order items) -> x <> [] /\ trimmed x.
Proof.
  intros H. apply _dedupe_preserve_order_in in H as (y & _ & -> & Hne).
  split; [assumption|apply py_strip_trimmed].
Qed.

Lemma In_skipn {A} (n : nat) (l : list A) (x : A) : In x (skipn n l) -> In x l.
Proof.
  revert l. induction n as [|n IH]; intros [|a l]; simpl; try tauto.
  intros H. right. apply IH, H.
Qed.

Lemma NoDup_skipn {A} (n : nat) (l : list A) : NoDup l -> NoDup (skipn n l).
Proof. intros H. exact (sublist_NoDup _ _ H (sublist_drop l n)). Qed.

(** X15. In the result of [_parse_detail_page_html_to_data] of
    [fps_scraper_edge.py] no phone, e-mail, relative, associate or
    previous address is an empty string or has a blank at either end,
    and the associates and the previous addresses, too, hold no entry
    twice. *)
Theorem edge_lists_clean (html_parser : str -> soup) (html current_url : str) :
  let d := Edge._parse_detail_page_html_to_data html_parser html current_url in
  (forall x,
     In x (phones d) \/ In x (emails d) \/ In x (relatives d)
     \/ In x (associates d) \/ In x (previous_addresses d) ->
     x <> [] /\ trimmed x)
  /\ NoDup (associates d) /\ NoDup (previous_addresses d).
Proof.
  unfold Edge._parse_detail_page_html_to_data.
  destruct (negb (truthy html)).
  - cbn. repeat split; try constructor; intuition.
  - cbv zeta. cbn [phones emails relatives associates previous_addresses].
    split; [|split].
    + intros x [H|[H|[H|[H|H]]]].
      * apply In_firstn in H. eapply dedupe_entry_clean, H.
      * eapply dedupe_entry_clean, H.
      * eapply dedupe_entry_clean, H.
      * eapply dedupe_entry_clean, H.
      * apply In_skipn in H. eapply dedupe_entry_clean, H.
    + apply _dedupe_preserve_order_NoDup.
    + apply NoDup_skipn, _dedupe_preserve_order_NoDup.
Qed.

Lemma join_nonempty (sep : str) (pieces : list str) :
  pieces <> [] -> Forall (fun x => x <> []) pieces -> join sep pieces <> [].
Proof.
  destruct pieces as [|x [|y r]]; [congruence| |]; intros _ H.
  - apply List.Forall_cons_iff in H as [H _]. exact H.
  - apply List.Forall_cons_iff in H as [H _]. cbn [join].
    intros E. apply app_eq_nil in E as [E _]. contradiction.
Qed.

Lemma trimmed_join (sep : str) (pieces : list str) :
  Forall (fun x => x <> [] /\ trimmed x) pieces -> trimmed (join sep pieces).
Proof.
  induction pieces as [|x pieces IH]; intros H; [split; exact I|].
  apply List.Forall_cons_iff in H as [[Hne [Hx1 Hx2]] H].
  destruct pieces as [|y r]; [split; assumption|].
  specialize (IH H).
  assert (Hj : join sep (y :: r) <> []).
  { apply join_nonempty; [discriminate|].
    eapply List.Forall_impl; [|exact H]. intros a [Ha _]. exact Ha. }
  change (join sep (x :: y :: r)) with (x ++ sep ++ join sep (y :: r)).
  split.
  - destruct x as [|c x]; [congruence|]. exact Hx1.
  - rewrite !rev_app_distr.
    destruct IH as [_ IH2].
    destruct (rev (join sep (y :: r))) as [|c t] eqn:E.
    + exfalso. apply Hj. rewrite <- (rev_involutive (join sep (y :: r))), E. reflexivity.
    + exact IH2.
Qed.

Lemma get_text_strip_trimmed (sep : str) (s : soup) : trimmed (get_text_strip sep s).
Proof.
  unfold get_text_strip. apply trimmed_join.
  apply List.Forall_forall. intros x Hx.
  apply filter_In in Hx as [Hx Ht]. apply truthy_true in Ht.
  split; [assumption|].
  apply in_map_iff in Hx as (y & <- & _). apply py_strip_trimmed.
Qed.

Lemma dedupe_head (x : str) (items : list str) :
  x <> [] -> trimmed x ->
  exists rest, _dedupe_preserve_order (x :: items) = x :: rest /\ ~ In x rest.
Proof.
  intros Hne Htr.
  pose proof (_dedupe_preserve_order_NoDup (x :: items)) as Hnd.
  unfold _dedupe_preserve_order in *. cbn [fold_left] in *.
  assert (Hstep : dedupe_step (∅, []) x = ({[x]}, [x])).
  { unfold dedupe_step. rewrite (py_strip_fixed x Htr).
    replace (truthy x) with true by (symmetry; apply truthy_true; assumption).
    replace (bool_decide (x ∈ (∅ : gset str))) with false
      by (symmetry; apply bool_decide_eq_false; set_solver).
    cbn [andb negb]. f_equal. apply (left_id_L (∅ : gset str) (∪)). }
  rewrite Hstep in *.
  destruct (dedupe_fold_full items {[x]} [x]) as (_ & (kept & Hk & _) & _).
  { intros z. rewrite elem_of_singleton. simpl. intuition. }
  rewrite Hk in *. exists kept. split; [reflexivity|].
  cbn [app] in Hnd. apply NoDup_cons in Hnd as [Hx _].
  intros Hin. apply Hx. apply list_elem_of_In. exact Hin.
Qed.

(** X16. When the first address link of a page has a text, the parser of
    [fps_scraper_edge.py] reports that text as the home address and never
    repeats it among the previous addresses. *)
Theorem home_address_not_previous (html_parser : str -> soup)
    (html current_url : str) (el : node) :
  html <> [] ->
  find_first Edge.address_link (html_parser html) = Some el ->
  node_text_strip (lit " ") el <> [] ->
  let d := Edge._parse_detail_page_html_to_data html_parser html current_url in
  home_address d = Some (node_text_strip (lit " ") el)
  /\ ~ In (node_text_strip (lit " ") el) (previous_addresses d).
Proof.
  intros Hhtml Hfind Htext.
  unfold Edge._parse_detail_page_html_to_data.
  replace (negb (truthy html)) with false
    by (symmetry; apply negb_false_iff, truthy_true; assumption).
  cbv zeta. cbn [home_address previous_addresses].
  rewrite Hfind. unfold or_none.
  replace (truthy (node_text_strip (lit " ") el)) with true
    by (symmetry; apply truthy_true; assumption).
  split; [reflexivity|].
  unfold find_first in Hfind.
  destruct (select Edge.address_link (html_parser html)) as [|a rest] eqn:Es;
    [discriminate|].
  cbn [head] in Hfind. injection Hfind as ->.
  cbn [map].
  destruct (dedupe_head (node_text_strip (lit " ") el)
              (map (node_text_strip (lit " ")) rest)) as (kept & -> & Hnot).
  - assumption.
  - apply get_text_strip_trimmed.
  - exact Hnot.
Qed.

Lemma home_address_not_previous_witness :
  let html := lit ("<a href='/address/1-main-st'>1 Main St</a>"
                   ++ "<a href='/address/9-oak-ave'>9 Oak Ave</a>"
                   ++ "<a href='/address/1-main-st'>1 Main St</a>")%string in
  let d := Edge._parse_detail_page_html_to_data HtmlLite.parse html
             (lit "https://www.fastpeoplesearch.com/john-smith_id1") in
  home_address d = Some (lit "1 Main St")
  /\ ~ In (lit "1 Main St") (previous_addresses d).
Proof.
  cbv zeta.
  apply (home_address_not_previous HtmlLite.parse
           (lit ("<a href='/address/1-main-st'>1 Main St</a>"
                 ++ "<a href='/address/9-oak-ave'>9 Oak Ave</a>"
                 ++ "<a href='/address/1-main-st'>1 Main St</a>")%string)
           (lit "https://www.fastpeoplesearch.com/john-smith_id1")
           (Elem (lit "a") [(lit "href", lit "/address/1-main-st")] [Text (lit "1 Main St")])).
  - discriminate.
  - vm_compute. reflexivity.
  - discriminate.
Defined.

Lemma matches_wordb prev s m c t :
  In (m, c, t) (matches Wordb prev s) -> m = [] /\ c = [] /\ t = s.
Proof.
  simpl. destruct (xorb (is_word_opt prev) (is_word_opt (head s))); [|intros []].
  intros [H|[]]. injection H as <- <- <-. auto.
Qed.

Ltac inv_wordb :=
  repeat match goal with
         | H : In _ (matches Wordb _ _) |- _ =>
             apply matches_wordb in H; destruct H as (? & ? & ?); subst
         end.

Lemma digits_1_3_match prev s m c t :
  In (m, c, t) (matches Edge.digits_1_3 prev s) ->
  c = [] /\ 1 <= length m <= 3 /\ forallb is_digit m = true.
Proof.
  intros H. cbv [Edge.digits_1_3 Opt digit] in H.
  inv_re H; cbn [app length forallb];
    repeat match goal with
           | H : is_digit _ = true |- _ => rewrite H; clear H
           end;
    repeat split; try reflexivity; lia.
Qed.

Lemma edge_age_match prev s m c t :
  In (m, c, t) (matches Edge.AGE_RE prev s) ->
  exists g, group 1 c = Some g /\ 1 <= length g <= 3 /\ forallb is_digit g = true.
Proof.
  intros H.
  cbv [Edge.AGE_RE Edge.digits_1_3 LitI lit list_ascii_of_string ChrI Opt Chr ws digit] in H.
  inv_re H; inv_wordb; cbn [app group Nat.eqb];
    (eexists; split; [reflexivity|]);
    cbn [length forallb];
    repeat match goal with
           | H : is_digit _ = true |- _ => rewrite H; clear H
           end;
    repeat split; try reflexivity; lia.
Qed.

Lemma chrome_age_match prev s m c t :
  In (m, c, t) (matches Chrome.DIGITS_RE prev s) ->
  exists g, group 1 c = Some g /\ 1 <= length g <= 3 /\ forallb is_digit g = true.
Proof.
  intros H. unfold Chrome.DIGITS_RE in H.
  apply (proj1 (matches_grp _ _ _ _ _ _ _)) in H.
  destruct H as (c' & H & ->).
  apply (digits_1_3_match prev s m c' t) in H as (-> & Hl & Hd).
  exists m. cbn [app group Nat.eqb]. auto.
Qed.

(** X17. In both scrapers the age that the parser reports, when it
    reports one, is a string of one to three decimal digits. *)
Theorem age_is_digits (html_parser : str -> soup) (html current_url a : str) :
  age (Edge._parse_detail_page_html_to_data html_parser html current_url) = Some a
  \/ age (Chrome._parse_detail_page_html_to_data html_parser html current_url) = Some a ->
  1 <= length a <= 3 /\ forallb is_digit a = true.
Proof.
  intros [H|H].
  - unfold Edge._parse_detail_page_html_to_data in H.
    destruct (negb (truthy html)); [discriminate H|].
    cbv zeta in H. cbn [age] in H. unfold Edge.search_group1 in H.
    destruct (search Edge.AGE_RE _) as [[[m c] t]|] eqn:Es; [|discriminate].
    injection H as <-. unfold search in Es.
    apply search_from_some in Es as (before & prev' & s' & _ & Hin).
    apply edge_age_match in Hin as (g & -> & Hg). exact Hg.
  - unfold Chrome._parse_detail_page_html_to_data in H.
    destruct (negb (truthy html)); [discriminate H|].
    cbv zeta in H. cbn [age] in H.
    destruct (find_first _ _) as [el|]; [|discriminate].
    unfold Chrome.search_group1 in H.
    destruct (search Chrome.DIGITS_RE _) as [[[m c] t]|] eqn:Es; [|discriminate].
    injection H as <-. unfold search in Es.
    apply search_from_some in Es as (before & prev' & s' & _ & Hin).
    apply chrome_age_match in Hin as (g & -> & Hg). exact Hg.
Qed.

Lemma age_is_digits_witness :
  1 <= length (lit "54") <= 3 /\ forallb is_digit (lit "54") = true.
Proof.
  apply (age_is_digits HtmlLite.parse
           (lit "<h2 id='age-header'>Age: 54</h2><p>Lives in Springfield</p>")
           (lit "https://www.fastpeoplesearch.com/john-smith_id1") (lit "54")).
  left. vm_compute. reflexivity.
Defined.

Lemma edge_lists_clean_witness :
  lit "(212) 555-0187" <> [] /\ trimmed (lit "(212) 555-0187").
Proof.
  destruct (edge_lists_clean HtmlLite.parse
              (lit "<a href='tel:2125550187'> 212.555.0187 </a>")
              (lit "https://www.fastpeoplesearch.com/john-smith_id1")) as [H _].
  apply H. left. vm_compute. left. reflexivity.
Defined.

(** ** The browser session of [fps_scraper_edge.py] *)

Section EdgeSession.

Import Batch.

Variable browser : Type.
Variable html_parser : str -> soup.
Variable ops : driver_ops browser.

Abbreviation page_source := (drv_page_source browser ops).
Abbreviation current_url := (drv_current_url browser ops).
Abbreviation normal_content := (drv_normal_content browser ops).
Abbreviation polls := (clk_polls browser ops).

Lemma poll_result (n : nat) (cond : browser -> bool) (b : browser) :
  cond (snd (poll browser ops n cond b)) = fst (poll browser ops n cond b).
Proof.
  revert b. induction n as [|n IH]; intros b; cbn [poll].
  - destruct (cond b) eqn:E; cbn; [exact E|exact E].
  - destruct (cond b) eqn:E; cbn; [exact E|apply IH].
Qed.

Lemma wait_until_result (t : nat) (cond : browser -> bool) (b : browser) :
  exists r b', wait_until browser ops t cond b = (inr r, b') /\ cond b' = r
               /\ (r, b') = poll browser ops (polls t) cond b.
Proof.
  unfold wait_until, interact.
  pose proof (poll_result (polls t) cond b) as H.
  destruct (poll browser ops (polls t) cond b) as [r b'].
  exists r, b'. auto.
Qed.

Lemma gate_loop_result (rounds : nat) (b : browser) :
  match gate_loop browser ops rounds b with
  | (inr seen, b') => seen = true /\ normal_content b' = true
  | (inl e, _) => e = TimeoutException (lit "Cloudflare check not cleared in time.")
  end.
Proof.
  revert b. induction rounds as [|k IH]; intros b; cbn [gate_loop].
  - reflexivity.
  - unfold bind, effect, wait_for_normal_content.
    destruct (wait_until_result 5 (normal_content) (drv_pause browser ops b))
      as (r & b' & -> & Hr & _).
    destruct r; [cbn; auto|apply IH].
Qed.

(** X18. [open_with_human_gate] returns only when the page shows normal
    content, and the flag it returns tells exactly whether the first wait
    ended without normal content on a page that [is_cloudflare_challenge]
    classifies as a challenge; otherwise it raises what [driver.get]
    raised, or a [TimeoutException]. *)
Theorem open_with_human_gate_result (url : str) (first_timeout gate_timeout : nat)
    (b : browser) :
  let b1 := snd (poll browser ops (polls first_timeout)
                   normal_content (snd (drv_get browser ops url b))) in
  match open_with_human_gate browser ops url first_timeout gate_timeout b with
  | (inr gate_seen, b') =>
      normal_content b' = true
      /\ gate_seen = negb (normal_content b1)
                     && is_cloudflare_challenge (page_source b1)
  | (inl e, _) =>
      fst (drv_get browser ops url b) = Some e \/ exists msg, e = TimeoutException msg
  end.
Proof.
  cbv zeta. unfold open_with_human_gate, bind, driver_get.
  destruct (drv_get browser ops url b) as [[e|] b0]; cbn [fst snd]; [left; reflexivity|].
  unfold wait_for_normal_content.
  destruct (wait_until_result first_timeout (normal_content) b0)
    as (r & b1 & -> & Hr & Hp).
  rewrite <- Hp. cbn [snd]. rewrite Hr.
  destruct r; [cbn; auto|].
  unfold observe. cbn [negb andb].
  destruct (is_cloudflare_challenge (page_source b1)).
  - pose proof (gate_loop_result (clk_gate_rounds browser ops gate_timeout) b1) as H.
    destruct (gate_loop browser ops (clk_gate_rounds browser ops gate_timeout) b1)
      as [[e|seen] b2].
    + right. eauto.
    + destruct H as [-> H]. auto.
  - destruct (wait_until_result first_timeout (normal_content) b1)
      as (r2 & b2 & -> & Hr2 & _).
    destruct r2; cbn; [auto|right; eauto].
Qed.

Lemma scrape_current_page_data (b : browser) :
  match scrape_current_page browser html_parser ops b with
  | (inr (Some data, _), b') =>
      read_from_clear_page html_parser (page_source b') (current_url b') data
  | (inr (None, _), _) => True
  | (inl _, _) => False
  end.
Proof.
  unfold scrape_current_page, bind.
  destruct (wait_until_result 30
              (fun b => Edge.is_detail_page_html html_parser (page_source b)) b)
    as (r & b1 & -> & _ & _).
  destruct r; cbn [negb]; [|exact I].
  unfold effect, observe, ret.
  destruct (is_cloudflare_challenge _) eqn:Ec; [exact I|].
  destruct (Edge.looks_blocked _) eqn:Eb; [exact I|].
  repeat split; assumption.
Qed.

(** X19. Whenever [scrape_current_page] of [fps_scraper_edge.py] hands
    back data, it hands back no error message, and the data is what
    [_parse_detail_page_html_to_data] reads from the page that the
    browser shows at that moment, a page that is neither a challenge nor
    a block page; whenever it hands back no data it hands back a
    message. *)
Theorem scrape_current_page_result (b : browser) :
  exists d e b',
    scrape_current_page browser html_parser ops b = (inr (d, e), b')
    /\ match d with
       | Some data =>
           e = None
           /\ is_cloudflare_challenge (page_source b') = false
           /\ Edge.looks_blocked (page_source b') = false
           /\ data = Edge._parse_detail_page_html_to_data html_parser
                       (page_source b') (or_empty (current_url b'))
       | None => exists msg, e = Some msg
       end.
Proof.
  unfold scrape_current_page, bind.
  destruct (wait_until_result 30
              (fun b => Edge.is_detail_page_html html_parser (page_source b)) b)
    as (r & b1 & -> & _ & _).
  destruct r; cbn [negb].
  - unfold effect, observe, ret.
    set (b2 := drv_pause browser ops (drv_scroll browser ops (drv_expand browser ops (drv_cookie_banner browser ops b1)))).
    destruct (is_cloudflare_challenge (page_source b2)) eqn:Ec.
    + exists None, (Some (lit "Cloudflare challenge still visible")), b2. eauto.
    + destruct (Edge.looks_blocked (page_source b2)) eqn:Eb.
      * exists None, (Some (lit "Blocked / access denied page")), b2. eauto.
      * eexists (Some _), None, b2. split; [reflexivity|]. auto.
  - unfold observe, ret. eexists None, (Some _), b1. split; [reflexivity|]. eauto.
Qed.

Lemma do_record_auto_data first last address zip_code g b :
  match do_record_auto browser html_parser ops first last address zip_code g b with
  | (inr (Some d, _, _), b') =>
      read_from_clear_page html_parser (page_source b') (current_url b') d
  | _ => True
  end.
Proof.
  unfold do_record_auto. cbv zeta. unfold bind at 1.
  destruct (open_with_human_gate browser ops _ 20 CF_MANUAL_GATE_TIMEOUT b)
    as [[e|seen] b1]; [exact I|].
  unfold bind at 1.
  destruct (wait_until_result 15 (drv_results_dom browser ops) b1)
    as (r & b2 & -> & _ & _).
  destruct r; cbn [negb]; [|exact I].
  unfold bind at 1.
  destruct (_open_best_result browser ops first last b2) as [[e|opened] b3]; [exact I|].
  destruct (negb (truthy (or_empty opened))); [exact I|].
  unfold bind at 1. unfold effect at 1. unfold bind at 1.
  pose proof (scrape_current_page_data (drv_pause browser ops b3)) as P.
  destruct (scrape_current_page browser html_parser ops (drv_pause browser ops b3))
    as [[e|[d e]] b4]; [destruct P|].
  cbn [fst]. destruct d as [data|]; cbn; [exact P|exact I].
Qed.

Lemma manual_loop_post (rounds : nat) (b : browser) :
  match manual_loop browser html_parser ops rounds b with
  | (inr (Some d), b') =>
      read_from_clear_page html_parser (page_source b') (current_url b') d
  | _ => True
  end.
Proof.
  revert b. induction rounds as [|k IH]; intros b; cbn [manual_loop]; unfold bind at 1;
    pose proof (scrape_current_page_data b) as P;
    destruct (scrape_current_page browser html_parser ops b) as [[e|[d e]] b1];
    try (destruct P); cbn [fst]; destruct d as [data|]; cbn; try exact P; try exact I.
  unfold bind, interact.
  destruct (drv_input browser ops b1) as [line b2].
  destruct (is_skip line); [exact I|apply IH].
Qed.

Lemma do_record_manual_post first last address zip_code b :
  match do_record_manual browser html_parser ops first last address zip_code b with
  | (inr (Some d), b') =>
      read_from_clear_page html_parser (page_source b') (current_url b') d
  | _ => True
  end.
Proof.
  unfold do_record_manual, bind, interact.
  destruct (drv_input browser ops b) as [line b1].
  destruct (is_skip line); [exact I|apply manual_loop_post].
Qed.

(** X20. When [do_record_auto] returns, the gate counter it returns is
    the one it was given or one more; it returns data exactly when it
    does not ask for the manual fallback; and the data it returns was
    read from the page in the browser, which is neither a challenge nor
    a block page. *)
Theorem do_record_auto_outcome first last address zip_code g b data gc flag b' :
  do_record_auto browser html_parser ops first last address zip_code g b
  = (inr (data, gc, flag), b') ->
  g <= gc <= g + 1
  /\ match data with
     | Some d =>
         flag = false
         /\ is_cloudflare_challenge (page_source b') = false
         /\ Edge.looks_blocked (page_source b') = false
         /\ d = Edge._parse_detail_page_html_to_data html_parser
                  (page_source b') (or_empty (current_url b'))
     | None => flag = true
     end.
Proof.
  unfold do_record_auto. cbv zeta. unfold bind at 1.
  destruct (open_with_human_gate browser ops _ 20 CF_MANUAL_GATE_TIMEOUT b)
    as [[e|seen] b1]; [discriminate|].
  assert (Hg : g <= g + (if seen then 1 else 0) <= g + 1) by (destruct seen; lia).
  unfold bind at 1.
  destruct (wait_until_result 15 (drv_results_dom browser ops) b1)
    as (r & b2 & -> & _ & _).
  destruct r; cbn [negb];
    [|intros H; injection H as <- <- <- <-; split; [exact Hg|reflexivity]].
  unfold bind at 1.
  destruct (_open_best_result browser ops first last b2) as [[e|opened] b3];
    [discriminate|].
  destruct (negb (truthy (or_empty opened)));
    [intros H; injection H as <- <- <- <-; split; [exact Hg|reflexivity]|].
  unfold bind at 1. unfold effect at 1. unfold bind at 1.
  pose proof (scrape_current_page_data (drv_pause browser ops b3)) as P.
  destruct (scrape_current_page browser html_parser ops (drv_pause browser ops b3))
    as [[e|[d e]] b4]; [destruct P|].
  cbn [fst]. destruct d as [d|]; cbn; intros H; injection H as <- <- <- <-;
    (split; [exact Hg|]); [|reflexivity].
  destruct P as (Hc & Hb & Hp). auto.
Qed.

Lemma set_phones_other (idx i k : nat) (ps : list str) (df : table) (col : str) :
  i <> idx -> set_phones idx k ps df !! (i, col) = df !! (i, col).
Proof.
  intros Hi. revert k df. induction ps as [|p ps IH]; intros k df; [reflexivity|].
  cbn [set_phones]. rewrite IH. apply lookup_insert_ne. congruence.
Qed.

Lemma merge_data_other (idx i : nat) (d : detail_data) (df : table) (col : str) :
  i <> idx -> merge_data idx d df !! (i, col) = df !! (i, col).
Proof.
  intros Hi. unfold merge_data. cbv zeta.
  repeat (etransitivity; [apply lookup_insert_ne; congruence|]).
  destruct (truthy (phones d)); [apply set_phones_other; assumption|reflexivity].
Qed.

Lemma finish_record_df (path : str) (idx : nat) (data : option detail_data)
    (s : state browser) :
  output_df browser (finish_record browser ops path idx data s)
  = match data with
    | Some d => merge_data idx d (output_df browser s)
    | None => output_df browser s
    end.
Proof.
  unfold finish_record. cbv zeta.
  destruct (Nat.eqb ((idx + 1) mod RESULTS_SAVE_EVERY) 0); destruct data; reflexivity.
Qed.

(** X21. One pass of the loop of [main] changes the table by at most
    one merge, into the cells of its own row, of data that was read from
    the page in the browser while that page was neither a challenge nor a
    block page; the cells of every other row are left as they were. *)
Theorem process_record_table (path : str) (idx : nat) (row : input_row)
    (s : state browser) :
  let s' := process_record browser html_parser ops path idx row s in
  (output_df browser s' = output_df browser s
   \/ exists d b',
        output_df browser s' = merge_data idx d (output_df browser s)
        /\ read_from_clear_page html_parser (page_source b') (current_url b') d)
  /\ forall i col, i <> idx ->
       output_df browser s' !! (i, col) = output_df browser s !! (i, col).
Proof.
  cbv zeta.
  assert (H : output_df browser (process_record browser html_parser ops path idx row s)
              = output_df browser s
              \/ exists d b',
                   output_df browser (process_record browser html_parser ops path idx row s)
                   = merge_data idx d (output_df browser s)
                   /\ read_from_clear_page html_parser (page_source b') (current_url b') d).
  { unfold process_record. cbv zeta.
    destruct (negb (truthy (clean_name (row_first row)))
              || negb (truthy (clean_name (row_last row)))); [left; reflexivity|].
    destruct (looks_like_composite_name (clean_name (row_first row))
              || looks_like_composite_name (clean_name (row_last row)));
      [left; reflexivity|].
    cbn [NAV_MODE].
    pose proof (do_record_auto_data (clean_name (row_first row))
                  (clean_name (row_last row)) (row_address row) (row_zip row)
                  (gate_counter browser s) (st_browser browser s)) as Pa.
    destruct (do_record_auto browser html_parser ops _ _ _ _ _ _)
      as [[e|[[data gc] flag]] b1]; [left; reflexivity|].
    unfold manual_part. cbn [NAV_MODE orb].
    destruct (flag || Nat.leb MAX_GATES_BEFORE_MANUAL gc).
    - cbn [st_browser log set_gate_counter set_browser].
      pose proof (do_record_manual_post (clean_name (row_first row))
                    (clean_name (row_last row)) (row_address row) (row_zip row) b1) as Pm.
      destruct (do_record_manual browser html_parser ops _ _ _ _ b1)
        as [[e|data'] b2]; [left; reflexivity|].
      rewrite finish_record_df. destruct data' as [d|]; [|left; reflexivity].
      right. exists d, b2. split; [reflexivity|exact Pm].
    - rewrite finish_record_df. destruct data as [d|]; [|left; reflexivity].
      right. exists d, b1. split; [reflexivity|]. exact Pa. }
  split; [exact H|].
  intros i col Hi. destruct H as [->|(d & b' & -> & _)]; [reflexivity|].
  apply merge_data_other. assumption.
Qed.

End EdgeSession.

Lemma do_record_auto_outcome_witness :
  let d := Edge._parse_detail_page_html_to_data HtmlLite.parse page_with_repeats
             (lit "https://www.fastpeoplesearch.com/john-smith_id1") in
  0 <= 0 <= 0 + 1
  /\ false = false
  /\ is_cloudflare_challenge page_with_repeats = false
  /\ Edge.looks_blocked page_with_repeats = false
  /\ d = d.
Proof.
  exact (do_record_auto_outcome nat HtmlLite.parse clear_session
           (lit "John") (lit "Smith") PyNone (PyStr (lit "10001")) 0 0
           (Some (Edge._parse_detail_page_html_to_data HtmlLite.parse page_with_repeats
                    (lit "https://www.fastpeoplesearch.com/john-smith_id1")))
           0 false 0 eq_refl).
Defined.

(** ** Filling a row of the table *)

Ltac key_differs := intros E; vm_compute in E; congruence.

Ltac cell_lookup :=
  repeat first
    [ apply lookup_insert_eq
    | (etransitivity; [apply lookup_insert_ne; key_differs|]) ];
  try reflexivity.

Lemma merge_data_phone_cell (idx i : nat) (d : detail_data) (df : Batch.table) :
  i < 5 ->
  Batch.merge_data idx d df !! (idx, lit "Phone" ++ Candidates.str_of_nat (S i))
  = match nth_error (phones d) i with
    | Some p => Some (Some p)
    | None => df !! (idx, lit "Phone" ++ Candidates.str_of_nat (S i))
    end.
Proof.
  intros Hi. unfold Batch.merge_data. cbv zeta.
  destruct (phones d) as [|p1 [|p2 [|p3 [|p4 [|p5 rest]]]]];
    cbn [truthy firstn Batch.set_phones];
    do 5 (destruct i as [|i]; [cbn [nth_error]; cell_lookup|]); lia.
Qed.

Lemma merge_data_other_column (idx : nat) (d : detail_data) (df : Batch.table)
    (col : str) :
  ~ In col written_columns ->
  Batch.merge_data idx d df !! (idx, col) = df !! (idx, col).
Proof.
  intros Hc.
  assert (Hne : forall c, In c written_columns -> (idx, c) <> (idx, col)).
  { intros c Hin E. injection E as <-. contradiction. }
  unfold Batch.merge_data. cbv zeta.
  repeat (etransitivity;
          [apply lookup_insert_ne; apply Hne; vm_compute; tauto|]).
  destruct (phones d) as [|p1 [|p2 [|p3 [|p4 [|p5 rest]]]]];
    cbn [truthy firstn Batch.set_phones]; try reflexivity;
    repeat (etransitivity;
            [apply lookup_insert_ne; apply Hne; vm_compute; tauto|]);
    reflexivity.
Qed.

(** X22. What the loop of [main] in [fps_scraper_edge.py] writes into a
    row: the first five phone numbers go to [Phone1] .. [Phone5], and a
    phone column beyond the numbers found keeps what it held; both
    address columns get the home address, or failing that the current
    address details; and no column outside the fifteen result columns is
    touched, so the input columns of the row stay as they were. *)
Theorem merge_data_cells (idx : nat) (d : detail_data) (df : Batch.table) :
  (forall i, i < 5 ->
     Batch.merge_data idx d df !! (idx, lit "Phone" ++ Candidates.str_of_nat (S i))
     = match nth_error (phones d) i with
       | Some p => Some (Some p)
       | None => df !! (idx, lit "Phone" ++ Candidates.str_of_nat (S i))
       end)
  /\ Batch.merge_data idx d df !! (idx, lit "Full Address")
     = Some (Batch.opt_or (home_address d) (current_address_details d))
  /\ Batch.merge_data idx d df !! (idx, lit "Current Address Details")
     = Some (Batch.opt_or (home_address d) (current_address_details d))
  /\ (forall col, ~ In col written_columns ->
        Batch.merge_data idx d df !! (idx, col) = df !! (idx, col)).
Proof.
  split; [intros i Hi; apply merge_data_phone_cell; assumption|].
  split; [unfold Batch.merge_data; cbv zeta; cell_lookup|].
  split; [unfold Batch.merge_data; cbv zeta; cell_lookup|].
  intros col Hc. apply merge_data_other_column. assumption.
Qed.

Lemma merge_data_cells_witness :
  Batch.merge_data 7 three_phones ∅ !! (7, lit "Phone2") = Some (Some (lit "(212) 555-0188"))
  /\ Batch.merge_data 7 three_phones ∅ !! (7, lit "Phone4") = None
  /\ Batch.merge_data 7 three_phones ∅ !! (7, lit "First Name") = None.
Proof.
  destruct (merge_data_cells 7 three_phones ∅) as (Hp & _ & _ & Hc).
  split; [|split].
  - apply (Hp 1). lia.
  - apply (Hp 3). lia.
  - apply (Hc (lit "First Name")). vm_compute. intuition discriminate.
Defined.

(** ** The name filters of [main] *)

Lemma contains_in (p s : str) (c : ascii) :
  contains p s = true -> In c p -> In c s.
Proof.
  intros H Hc. induction s as [|x s IH].
  - destruct p; [destruct Hc|discriminate].
  - cbn [contains] in H. apply orb_prop in H as [H|H].
    + clear IH. revert x s H Hc. induction p as [|a p IHp]; intros x s H Hc; [destruct Hc|].
      cbn [starts_with] in H. apply andb_prop in H as [Ha Hp].
      apply chr_eqb_true in Ha. subst x.
      destruct Hc as [->|Hc]; [left; reflexivity|].
      destruct s as [|y s]; [destruct p; [destruct Hc|discriminate]|].
      right. eapply IHp; eassumption.
    + right. auto.
Qed.

Lemma py_lower_chr_amp (c : ascii) : py_lower_chr c = "&" -> c = "&".
Proof. ascii_cases c; intros H; try discriminate H; reflexivity. Qed.

(** X23. The names that the loop of [main] works with hold letters,
    blanks and hyphens only and have no blank at either end; so they
    never hold an ampersand, and the [" & "] test of
    [looks_like_composite_name] cannot fire on them. *)
Theorem clean_name_chars (cell : str) :
  forallb (fun c => is_letter c || py_isspace c || chr_eqb c "-")
          (Batch.clean_name cell) = true
  /\ trimmed (Batch.clean_name cell)
  /\ contains (lit " & ") (py_lower (Batch.clean_name cell)) = false.
Proof.
  assert (Hc : forallb (fun c => is_letter c || py_isspace c || chr_eqb c "-")
                 (Batch.clean_name cell) = true).
  { unfold Batch.clean_name, Batch.NOT_NAME_CELL_CHR. apply forallb_py_strip.
    rewrite sub_cls. apply List.forallb_forall. intros c Hin.
    apply filter_In in Hin as [_ Hin]. apply negb_true_iff, negb_false_iff in Hin.
    exact Hin. }
  split; [exact Hc|]. split; [apply py_strip_trimmed|].
  destruct (contains (lit " & ") (py_lower (Batch.clean_name cell))) eqn:E; [|reflexivity].
  exfalso.
  assert (Hin : In "&" (py_lower (Batch.clean_name cell))).
  { eapply contains_in; [exact E|]. vm_compute. tauto. }
  apply in_map_iff in Hin as (c & Hl & Hin).
  apply py_lower_chr_amp in Hl. subst c.
  rewrite List.forallb_forall in Hc. specialize (Hc _ Hin). discriminate Hc.
Qed.

(** ** The browser session of [fps_scraper_chrome.py] *)

Lemma chrome_scrape_result (html_parser : str -> soup)
    (browser : Type) (page_source : browser -> str)
    (current_url : browser -> option str) (click_cookie_banner : browser -> browser)
    (b : browser) :
  match Chrome.scrape_current_page html_parser browser page_source current_url
          click_cookie_banner b with
  | ((Some data, _), b') =>
      is_cloudflare_challenge (page_source b) = false
      /\ Chrome.looks_blocked (page_source b) = false
      /\ Chrome.is_detail_page_html html_parser (page_source b) = true
      /\ b' = click_cookie_banner b
      /\ data = Chrome._parse_detail_page_html_to_data html_parser
                  (page_source b') (or_empty (current_url b'))
  | ((None, _), _) => True
  end.
Proof.
  unfold Chrome.scrape_current_page. cbv zeta.
  destruct (is_cloudflare_challenge (page_source b)); [exact I|].
  destruct (Chrome.looks_blocked (page_source b)); [exact I|].
  destruct (Chrome.is_detail_page_html html_parser (page_source b)); cbn; auto.
Qed.

(** X24. [scrape_current_page] of [fps_scraper_chrome.py] returns data
    only for a page that, when the function was entered, was neither a
    challenge nor a block page and passed [is_detail_page_html]; the
    data is then read from the page as it stands after the cookie banner
    was dismissed, and no message comes with it.  In every other case it
    returns a message and leaves the browser as it found it. *)
Theorem chrome_scrape_current_page_result (html_parser : str -> soup)
    (browser : Type) (page_source : browser -> str)
    (current_url : browser -> option str) (click_cookie_banner : browser -> browser)
    (b : browser) :
  match Chrome.scrape_current_page html_parser browser page_source current_url
          click_cookie_banner b with
  | ((Some data, e), b') =>
      e = None
      /\ is_cloudflare_challenge (page_source b) = false
      /\ Chrome.looks_blocked (page_source b) = false
      /\ Chrome.is_detail_page_html html_parser (page_source b) = true
      /\ b' = click_cookie_banner b
      /\ data = Chrome._parse_detail_page_html_to_data html_parser
                  (page_source b') (or_empty (current_url b'))
  | ((None, e), b') => (exists msg, e = Some msg) /\ b' = b
  end.
Proof.
  unfold Chrome.scrape_current_page. cbv zeta.
  destruct (is_cloudflare_challenge (page_source b)); [cbn; eauto|].
  destruct (Chrome.looks_blocked (page_source b)); [cbn; eauto|].
  destruct (Chrome.is_detail_page_html html_parser (page_source b)); cbn; eauto 10.
Qed.

Section ChromeSession.

Import Batch.

Variable browser : Type.
Variable html_parser : str -> soup.
Variable ops : driver_ops browser.
Variable path : str.

Abbreviation c_auto := (ChromeBatch.do_record_auto browser html_parser ops).
Abbreviation c_step := (ChromeBatch.process_record browser html_parser ops path).
Abbreviation c_steps := (ChromeBatch.process_rows browser html_parser ops path).
Abbreviation c_after_body := (Batch.fs_after_body browser ops path).

Lemma gate_flag_result (url : str) (t g : nat) (b : browser) :
  exists r b', open_with_human_gate browser ops url t g b = (r, b').
Proof. destruct (open_with_human_gate browser ops url t g b) as [r b']. eauto. Qed.

Lemma chrome_do_record_auto_counter first last address zip_code g b :
  match c_auto first last address zip_code g b with
  | (inr (_, gc, _), _) => g <= gc <= g + 2
  | (inl _, _) => True
  end.
Proof.
  unfold ChromeBatch.do_record_auto. cbv zeta. unfold bind at 1.
  destruct (open_with_human_gate browser ops _ 20 CF_MANUAL_GATE_TIMEOUT b)
    as [[e|seen] b1]; [exact I|].
  assert (Hg : g <= g + (if seen then 1 else 0) <= g + 1) by (destruct seen; lia).
  unfold bind at 1. unfold wait_for_normal_content at 1.
  destruct (wait_until_result browser ops 20 (drv_normal_content browser ops) b1)
    as (r & b2 & -> & _ & _).
  destruct r; cbn [negb]; [|cbn; lia].
  unfold bind at 1.
  destruct (wait_until_result browser ops 15 (drv_results_dom browser ops) b2)
    as (r & b3 & -> & _ & _).
  destruct r; cbn [negb]; [|cbn; lia].
  unfold bind at 1. unfold ChromeBatch._get_best_result_href, bind at 1, observe, ret.
  match goal with
  | |- context [negb (truthy (or_empty ?h))] => destruct (negb (truthy (or_empty h)))
  end; [cbn; lia|].
  unfold bind at 1.
  match goal with
  | |- context [open_with_human_gate browser ops ?u 15 ?g b3] =>
      destruct (open_with_human_gate browser ops u 15 g b3) as [[e|seen2] b4]
  end; [exact I|].
  unfold bind at 1. unfold ChromeBatch.scrape_current_page.
  destruct (Chrome.scrape_current_page html_parser browser _ _ _ b4) as [[d e] b5].
  cbn [fst]. destruct d as [data|]; cbn; destruct seen2; lia.
Qed.

Lemma chrome_finish_record_spec idx data (s : state browser) :
  let s' := ChromeBatch.finish_record browser ops path idx data s in
  gate_counter browser s' = gate_counter browser s
  /\ st_log browser s' = st_log browser s ++ end_of_body idx
  /\ c_after_body idx s s'.
Proof.
  unfold ChromeBatch.finish_record, end_of_body, Batch.fs_after_body.
  destruct (Nat.eqb ((idx + 1) mod RESULTS_SAVE_EVERY) 0);
    destruct data; cbn; rewrite ?app_nil_r; auto.
Qed.

Lemma chrome_manual_part_spec idx first last row data fallback (s : state browser) :
  let s' := ChromeBatch.manual_part browser html_parser ops path idx first last row
              data fallback s in
  gate_counter browser s' = gate_counter browser s
  /\ exists tail,
       st_log browser s' = st_log browser s ++ tail
       /\ (if fallback
           then (tail = ManualCalled idx :: end_of_body idx /\ c_after_body idx s s')
                \/ (exists e, tail = [ManualCalled idx; RecordError idx e]
                              /\ st_fs browser s' = st_fs browser s)
           else tail = end_of_body idx /\ c_after_body idx s s').
Proof.
  unfold ChromeBatch.manual_part. cbn [NAV_MODE orb].
  destruct fallback.
  - destruct (ChromeBatch.do_record_manual browser html_parser ops first last
                (row_address row) (row_zip row) (st_browser browser s))
      as [[e|data'] b].
    + cbn. split; [reflexivity|].
      exists [ManualCalled idx; RecordError idx e]. rewrite <- app_assoc.
      split; [reflexivity|]. right. eauto.
    + destruct (chrome_finish_record_spec idx data'
                  (set_browser browser b (log browser (ManualCalled idx) s)))
        as (Hg & Hl & Hf).
      split; [exact Hg|].
      exists (ManualCalled idx :: end_of_body idx). split.
      * rewrite Hl. cbn. rewrite <- app_assoc. reflexivity.
      * left. split; [reflexivity|exact Hf].
  - destruct (chrome_finish_record_spec idx data s) as (Hg & Hl & Hf).
    split; [exact Hg|]. exists (end_of_body idx). auto.
Qed.

(** The outcomes of one iteration of the loop. *)
Lemma chrome_process_record_spec idx row (s : state browser) :
  let s' := c_step idx row s in
  exists evs,
    st_log browser s' = st_log browser s ++ evs
    /\ ((skipped_as idx evs
         /\ st_fs browser s' = st_fs browser s
         /\ gate_counter browser s' = gate_counter browser s)
        \/ exists gc flag tail,
             evs = AutoReturned idx gc flag :: tail
             /\ gate_counter browser s' = gc
             /\ gate_counter browser s <= gc <= gate_counter browser s + 2
             /\ (if flag || Nat.leb MAX_GATES_BEFORE_MANUAL gc
                 then (tail = ManualCalled idx :: end_of_body idx
                       /\ c_after_body idx s s')
                      \/ (exists e, tail = [ManualCalled idx; RecordError idx e]
                                    /\ st_fs browser s' = st_fs browser s)
                 else tail = end_of_body idx /\ c_after_body idx s s')).
Proof.
  unfold ChromeBatch.process_record. cbv zeta.
  destruct (negb (truthy (clean_name (row_first row)))
            || negb (truthy (clean_name (row_last row)))).
  { exists [SkippedInvalidName idx]. split; [reflexivity|].
    left. unfold skipped_as. auto. }
  destruct (looks_like_composite_name (clean_name (row_first row))
            || looks_like_composite_name (clean_name (row_last row))).
  { exists [SkippedComposite idx]. split; [reflexivity|].
    left. unfold skipped_as. auto. }
  cbn [NAV_MODE].
  pose proof (chrome_do_record_auto_counter (clean_name (row_first row))
                (clean_name (row_last row)) (row_address row) (row_zip row)
                (gate_counter browser s) (st_browser browser s)) as E.
  destruct (c_auto (clean_name (row_first row)) (clean_name (row_last row))
              (row_address row) (row_zip row) (gate_counter browser s)
              (st_browser browser s)) as [[e|[[data gc] flag]] b].
  { exists [RecordError idx e]. split; [reflexivity|].
    left. split; [|split; reflexivity].
    right. right. exists e. reflexivity. }
  set (s1 := log browser (AutoReturned idx gc flag)
               (set_gate_counter browser gc (set_browser browser b s))).
  destruct (chrome_manual_part_spec idx (clean_name (row_first row))
              (clean_name (row_last row)) row data
              (flag || Nat.leb MAX_GATES_BEFORE_MANUAL gc) s1)
    as (Hg & tail & Hl & Hcase).
  exists (AutoReturned idx gc flag :: tail). split.
  { rewrite Hl. subst s1. cbn. rewrite <- app_assoc. reflexivity. }
  right. exists gc, flag, tail. split; [reflexivity|].
  split; [rewrite Hg; reflexivity|]. split; [exact E|].
  unfold Batch.fs_after_body in *. subst s1. cbn in Hcase. exact Hcase.
Qed.

Lemma chrome_process_record_counter idx row (s : state browser) :
  gate_counter browser s <= gate_counter browser (c_step idx row s)
  <= gate_counter browser s + 2.
Proof.
  destruct (chrome_process_record_spec idx row s) as (evs & _ & [(_ & _ & ->)|H]); [lia|].
  destruct H as (gc & flag & tail & _ & -> & Hle & _). lia.
Qed.

Lemma chrome_process_rows_counter rows idx (s : state browser) :
  gate_counter browser s <= gate_counter browser (c_steps idx rows s)
  <= gate_counter browser s + 2 * length rows.
Proof.
  revert idx s. induction rows as [|row rows IH]; intros idx s; cbn [ChromeBatch.process_rows length].
  - lia.
  - pose proof (chrome_process_record_counter idx row s) as H1.
    pose proof (IH (S idx) (c_step idx row s)) as H2. lia.
Qed.

(** X25. When [do_record_auto] of [fps_scraper_chrome.py] returns, the
    gate counter it returns is the one it was given plus at most two
    (one gate on the results page, one on the detail page); it returns
    data exactly when it does not ask for the manual fallback; and the
    data it returns comes from a page that was neither a challenge nor a
    block page and passed [is_detail_page_html] when [scrape_current_page]
    looked at it. *)
Theorem chrome_do_record_auto_outcome first last address zip_code g b data gc flag b' :
  c_auto first last address zip_code g b = (inr (data, gc, flag), b') ->
  g <= gc <= g + 2
  /\ match data with
     | Some d =>
         flag = false
         /\ exists b0,
              b' = drv_cookie_banner browser ops b0
              /\ is_cloudflare_challenge (drv_page_source browser ops b0) = false
              /\ Chrome.looks_blocked (drv_page_source browser ops b0) = false
              /\ Chrome.is_detail_page_html html_parser
                   (drv_page_source browser ops b0) = true
              /\ d = Chrome._parse_detail_page_html_to_data html_parser
                       (drv_page_source browser ops b')
                       (or_empty (drv_current_url browser ops b'))
     | None => flag = true
     end.
Proof.
  unfold ChromeBatch.do_record_auto. cbv zeta. unfold bind at 1.
  destruct (open_with_human_gate browser ops _ 20 CF_MANUAL_GATE_TIMEOUT b)
    as [[e|seen] b1]; [discriminate|].
  assert (Hg : g <= g + (if seen then 1 else 0) <= g + 1) by (destruct seen; lia).
  unfold bind at 1. unfold wait_for_normal_content at 1.
  destruct (wait_until_result browser ops 20 (drv_normal_content browser ops) b1)
    as (r & b2 & -> & _ & _).
  destruct r; cbn [negb];
    [|intros H; injection H as <- <- <- <-; split; [lia|reflexivity]].
  unfold bind at 1.
  destruct (wait_until_result browser ops 15 (drv_results_dom browser ops) b2)
    as (r & b3 & -> & _ & _).
  destruct r; cbn [negb];
    [|intros H; injection H as <- <- <- <-; split; [lia|reflexivity]].
  unfold bind at 1. unfold ChromeBatch._get_best_result_href, bind at 1, observe, ret.
  match goal with
  | |- context [negb (truthy (or_empty ?h))] => destruct (negb (truthy (or_empty h)))
  end; [intros H; injection H as <- <- <- <-; split; [lia|reflexivity]|].
  unfold bind at 1.
  match goal with
  | |- context [open_with_human_gate browser ops ?u 15 ?g b3] =>
      destruct (open_with_human_gate browser ops u 15 g b3) as [[e|seen2] b4]
  end; [discriminate|].
  unfold bind at 1. unfold ChromeBatch.scrape_current_page.
  pose proof (chrome_scrape_result html_parser browser
                (drv_page_source browser ops) (drv_current_url browser ops)
                (drv_cookie_banner browser ops) b4) as P.
  destruct (Chrome.scrape_current_page html_parser browser _ _ _ b4) as [[d e] b5].
  cbn [fst]. destruct d as [d|]; cbn; intros H; injection H as <- <- <- <-.
  - destruct P as (Hc & Hb & Hd & -> & ->).
    split; [destruct seen2; lia|]. split; [reflexivity|].
    exists b4. auto.
  - split; [destruct seen2; lia|reflexivity].
Qed.

(** X26. In the loop of [main] of [fps_scraper_chrome.py] the gate
    counter never decreases and grows by at most two per record, at any
    point of the run; and once it has reached [MAX_GATES_BEFORE_MANUAL],
    every later record either goes through [do_record_manual] or is one
    that the loop skips (an empty or composite name, or an automatic
    attempt that raised). *)
Theorem chrome_manual_fallback_is_sticky
    (earlier between : list input_row) (row : input_row) (s : state browser) :
  let s1 := c_steps 0 earlier s in
  let s2 := c_steps (length earlier) between s1 in
  let idx := length earlier + length between in
  let s3 := c_step idx row s2 in
  (gate_counter browser s <= gate_counter browser s1
                          <= gate_counter browser s + 2 * length earlier
   /\ gate_counter browser s1 <= gate_counter browser s2
                              <= gate_counter browser s1 + 2 * length between
   /\ gate_counter browser s2 <= gate_counter browser s3
                              <= gate_counter browser s2 + 2)
  /\ (MAX_GATES_BEFORE_MANUAL <= gate_counter browser s1 ->
      exists evs,
        st_log browser s3 = st_log browser s2 ++ evs
        /\ (routed_manual idx evs \/ skipped_as idx evs)).
Proof.
  intros s1 s2 idx s3.
  assert (H01 : gate_counter browser s <= gate_counter browser s1
                <= gate_counter browser s + 2 * length earlier)
    by apply chrome_process_rows_counter.
  assert (H12 : gate_counter browser s1 <= gate_counter browser s2
                <= gate_counter browser s1 + 2 * length between)
    by apply chrome_process_rows_counter.
  split; [split; [exact H01|split; [exact H12|apply chrome_process_record_counter]]|].
  intros Hmax.
  destruct (chrome_process_record_spec idx row s2) as (evs & Hlog & Hcase).
  exists evs. split; [exact Hlog|].
  destruct Hcase as [(Hskip & _)|(gc & flag & tail & -> & Hgc & Hle & Hcase)];
    [right; exact Hskip|].
  left. unfold routed_manual.
  assert (Hleb : Nat.leb MAX_GATES_BEFORE_MANUAL gc = true).
  { apply Nat.leb_le. lia. }
  rewrite Hleb, orb_true_r in Hcase.
  destruct Hcase as [(-> & _)|(e & -> & _)]; simpl; auto.
Qed.

(** X27. In the loop of [main] of [fps_scraper_chrome.py] a record
    leaves the checkpoint file alone or replaces it by one [save_atomic]
    of the whole table; a record whose loop body runs to its end is
    followed by that save exactly when its one-based index is a multiple
    of [RESULTS_SAVE_EVERY]; and [main] ends with a save of the whole
    table. *)
Theorem chrome_periodic_save (idx : nat) (row : input_row) (s : state browser)
    (rows : list input_row) (b0 : browser) (df0 : table) (fs0 : filesystem) :
  (let s' := c_step idx row s in
   exists evs,
     st_log browser s' = st_log browser s ++ evs
     /\ (st_fs browser s' = st_fs browser s
         \/ st_fs browser s'
            = save_atomic (csv_of browser ops (output_df browser s')) path
                (st_fs browser s))
     /\ (completed idx evs ->
         (In (PeriodicSave idx) evs <-> (idx + 1) mod RESULTS_SAVE_EVERY = 0)
         /\ c_after_body idx s s'))
  /\ (let s := c_steps 0 rows
                 {| st_browser := b0; gate_counter := 0; output_df := df0;
                    st_fs := fs0; st_log := [] |} in
      st_fs browser (ChromeBatch.main browser html_parser ops path rows b0 df0 fs0)
      = save_atomic (csv_of browser ops (output_df browser s)) path (st_fs browser s)).
Proof.
  split; [|reflexivity].
  intros s'.
  destruct (chrome_process_record_spec idx row s) as (evs & Hlog & Hcase).
  exists evs. split; [exact Hlog|].
  destruct Hcase as [(Hskip & Hfs & _)|(gc & flag & tail & -> & _ & _ & Hcase)].
  - split; [left; exact Hfs|].
    intros (H1 & H2 & H3). exfalso.
    destruct Hskip as [->|[->|(e & ->)]].
    + apply H1. left. reflexivity.
    + apply H2. left. reflexivity.
    + apply (H3 e). left. reflexivity.
  - destruct (flag || Nat.leb MAX_GATES_BEFORE_MANUAL gc).
    + destruct Hcase as [(-> & Hfs)|(e & -> & Hfs)].
      * split; [eapply fs_after_body_cases; exact Hfs|].
        intros _. split; [|exact Hfs].
        apply (in_end_of_body idx [AutoReturned idx gc flag; ManualCalled idx]).
        simpl. intuition discriminate.
      * split; [left; exact Hfs|].
        intros (_ & _ & H3). exfalso. apply (H3 e). simpl. auto.
    + destruct Hcase as (-> & Hfs).
      split; [eapply fs_after_body_cases; exact Hfs|].
      intros _. split; [|exact Hfs].
      apply (in_end_of_body idx [AutoReturned idx gc flag]).
      simpl. intuition discriminate.
Qed.

End ChromeSession.

Lemma chrome_do_record_auto_outcome_witness :
  exists gc flag,
    ChromeBatch.do_record_auto nat HtmlLite.parse clear_session
      (lit "John") (lit "Smith") PyNone (PyStr (lit "10001")) 0 0
    = (inr (Some (Chrome._parse_detail_page_html_to_data HtmlLite.parse page_with_repeats
                    (lit "https://www.fastpeoplesearch.com/john-smith_id1")),
            gc, flag), 0)
    /\ 0 <= gc <= 0 + 2 /\ flag = false.
Proof.
  exists 0, false.
  assert (H : ChromeBatch.do_record_auto nat HtmlLite.parse clear_session
                (lit "John") (lit "Smith") PyNone (PyStr (lit "10001")) 0 0
              = (inr (Some (Chrome._parse_detail_page_html_to_data HtmlLite.parse
                              page_with_repeats
                              (lit "https://www.fastpeoplesearch.com/john-smith_id1")),
                      0, false), 0))
    by (vm_compute; reflexivity).
  split; [exact H|].
  destruct (chrome_do_record_auto_outcome nat HtmlLite.parse clear_session
              (lit "John") (lit "Smith") PyNone (PyStr (lit "10001")) 0 0 _ 0 false 0 H)
    as (Hg & Hf & _).
  split; [exact Hg|exact Hf].
Defined.

Lemma chrome_periodic_save_witness :
  In (Batch.PeriodicSave 9)
     (Batch.st_log nat
        (ChromeBatch.process_record nat HtmlLite.parse clear_session csv_path 9
           person_row start_state)).
Proof.
  destruct (chrome_periodic_save nat HtmlLite.parse clear_session csv_path 9
              person_row start_state [] 0 ∅ ∅) as [(evs & Hl & _ & Hc) _].
  rewrite Hl. apply in_or_app. right.
  apply Hc; [|reflexivity].
  assert (E : evs = [Batch.AutoReturned 9 0 false; Batch.PeriodicSave 9]).
  { vm_compute in Hl. congruence. }
  rewrite E. unfold completed. cbn. intuition discriminate.
Defined.

(** Three records meet a gate each on their results page and bring the
    counter from 0 to 3; the fourth meets none, its automatic attempt
    returns data without asking for the manual fallback, and it goes
    through [do_record_manual] all the same. *)
Lemma chrome_manual_fallback_is_sticky_witness :
  let s1 := ChromeBatch.process_rows (nat * nat) HtmlLite.parse three_gates_session
              csv_path 0 [person_row; person_row; person_row] first_state in
  let s2 := ChromeBatch.process_rows (nat * nat) HtmlLite.parse three_gates_session
              csv_path (length [person_row; person_row; person_row]) [] s1 in
  let idx := length [person_row; person_row; person_row]
             + length (@nil Batch.input_row) in
  let s3 := ChromeBatch.process_record (nat * nat) HtmlLite.parse three_gates_session
              csv_path idx person_row s2 in
  Batch.MAX_GATES_BEFORE_MANUAL <= Batch.gate_counter (nat * nat) s1
  /\ (Batch.gate_counter (nat * nat) first_state
      <= Batch.gate_counter (nat * nat) s1
      <= Batch.gate_counter (nat * nat) first_state
         + 2 * length [person_row; person_row; person_row]
      /\ Batch.gate_counter (nat * nat) s1
         <= Batch.gate_counter (nat * nat) s2
         <= Batch.gate_counter (nat * nat) s1 + 2 * length (@nil Batch.input_row)
      /\ Batch.gate_counter (nat * nat) s2
         <= Batch.gate_counter (nat * nat) s3
         <= Batch.gate_counter (nat * nat) s2 + 2)
  /\ (exists evs,
        Batch.st_log (nat * nat) s3 = Batch.st_log (nat * nat) s2 ++ evs
        /\ (routed_manual idx evs \/ skipped_as idx evs))
  /\ Batch.st_log (nat * nat) s3
     = Batch.st_log (nat * nat) s2
       ++ [Batch.AutoReturned 3 3 false; Batch.ManualCalled 3].
Proof.
  intros s1 s2 idx s3.
  assert (H : Batch.MAX_GATES_BEFORE_MANUAL <= Batch.gate_counter (nat * nat) s1)
    by (vm_compute; lia).
  split; [exact H|].
  destruct (chrome_manual_fallback_is_sticky (nat * nat) HtmlLite.parse
              three_gates_session csv_path [person_row; person_row; person_row] []
              person_row first_state)
    as [Hmono Hsticky].
  split; [exact Hmono|]. split; [exact (Hsticky H)|].
  vm_compute. reflexivity.
Defined.

Lemma process_record_table_witness :
  Batch.output_df nat
    (Batch.process_record nat HtmlLite.parse gated_session csv_path 0 person_row
       start_state) !! (1, lit "Age")
  = Batch.output_df nat start_state !! (1, lit "Age").
Proof.
  destruct (process_record_table nat HtmlLite.parse gated_session csv_path 0
              person_row start_state) as [_ H].
  apply (H 1 (lit "Age")). lia.
Defined.

(** ** Where the best candidate leads *)

Lemma with_base_absolute (href : str) :
  href <> [] ->
  Candidates.with_base href <> [] /\ starts_with (lit "/") (Candidates.with_base href) = false.
Proof.
  intros Hne. unfold Candidates.with_base.
  destruct (starts_with (lit "/") href) eqn:E.
  - split; [discriminate|reflexivity].
  - split; [assumption|exact E].
Qed.

(** X28. Without candidates neither scraper navigates: [_open_best_result]
    has nothing to open and [_get_best_result_href] returns [None].  And
    the address they make of the best candidate's link is never empty and
    never site-relative: a link that begins with a slash is completed
    with the site's origin. *)
Theorem best_result_target (cands : list Candidates.web_element) (first last h : str) :
  Candidates.Edge.navigation_of [] first last = Candidates.Edge.Stay
  /\ Candidates.Chrome._get_best_result_href [] first last = None
  /\ (Candidates.Edge.navigation_of cands first last = Candidates.Edge.Goto h
      \/ Candidates.Chrome._get_best_result_href cands first last = Some h ->
      h <> [] /\ starts_with (lit "/") h = false).
Proof.
  split; [reflexivity|]. split; [reflexivity|].
  intros [H|H].
  - unfold Candidates.Edge.navigation_of in H.
    destruct (Candidates.Edge.best_of cands first last) as [best|]; [|discriminate].
    cbv zeta in H.
    destruct (truthy (Candidates.Edge.href_of best)) eqn:E; [|discriminate].
    injection H as <-. apply with_base_absolute. apply truthy_true. exact E.
  - unfold Candidates.Chrome._get_best_result_href in H.
    destruct (Candidates.Chrome.best_of cands first last) as [best|]; [|discriminate].
    cbv zeta in H.
    destruct (truthy (py_strip (or_empty (Candidates.we_href best)))) eqn:E;
      cbn [negb] in H; [|discriminate].
    injection H as <-. apply with_base_absolute. apply truthy_true. exact E.
Qed.

Lemma best_result_target_witness :
  lit "https://www.fastpeoplesearch.com/person/a1" <> []
  /\ starts_with (lit "/") (lit "https://www.fastpeoplesearch.com/person/a1") = false.
Proof.
  apply (best_result_target sample_candidates (lit "John") (lit "Smith")
           (lit "https://www.fastpeoplesearch.com/person/a1")).
  right. vm_compute. reflexivity.
Defined.

(** ** Names under a heading *)

Lemma names_after_headings_in (keywords : list str) (doc : list node) (x : str) :
  In x (Edge.names_after_headings keywords doc) ->
  exists container, In x (Edge.names_in container).
Proof.
  induction doc as [|h following IH]; [intros []|].
  cbn [Edge.names_after_headings]. intros H. apply in_app_or in H as [H|H]; [|auto].
  destruct (Edge.is_heading h
            && any_in keywords (py_lower (node_text_strip (lit " ") h))); [|destruct H].
  destruct (List.find Edge.is_container following) as [c|]; [eauto|destruct H].
Qed.

(** X29. No relative and no associate that the parser of
    [fps_scraper_edge.py] reports holds the word "detail", in whatever
    case: a link such as "View Details" under a relatives heading is
    never taken for a name. *)
Theorem names_exclude_detail_links (html_parser : str -> soup)
    (html current_url x : str) :
  let d := Edge._parse_detail_page_html_to_data html_parser html current_url in
  In x (relatives d) \/ In x (associates d) ->
  contains (lit "detail") (py_lower x) = false.
Proof.
  cbv zeta. unfold Edge._parse_detail_page_html_to_data.
  destruct (negb (truthy html)); [cbn; tauto|].
  cbv zeta. cbn [relatives associates]. unfold Edge._extract_names_by_heading.
  assert (G : forall kw, In x (_dedupe_preserve_order
                (Edge.names_after_headings kw (all_elements (html_parser html)))) ->
              contains (lit "detail") (py_lower x) = false).
  { intros kw H. apply _dedupe_preserve_order_in in H as (y & Hy & -> & _).
    apply names_after_headings_in in Hy as (container & Hy).
    unfold Edge.names_in in Hy. apply in_flat_map in Hy as (a & _ & Hy).
    destruct (truthy (node_text_strip (lit " ") a)
              && negb (contains (lit "detail") (py_lower (node_text_strip (lit " ") a))))
      eqn:E; [|destruct Hy].
    destruct Hy as [<-|[]]. apply andb_prop in E as [_ E].
    apply negb_true_iff in E.
    rewrite (py_strip_fixed (node_text_strip (lit " ") a)
               (get_text_strip_trimmed (lit " ") [a])).
    exact E. }
  intros [H|H]; eapply G; exact H.
Qed.

Lemma names_exclude_detail_links_witness :
  contains (lit "detail") (py_lower (lit "Jane Smith")) = false.
Proof.
  apply (names_exclude_detail_links HtmlLite.parse
           (lit ("<h3>Possible Relatives</h3><div>"
                 ++ "<a href='/name/jane-smith'>Jane Smith</a>"
                 ++ "<a href='/name/jane-smith'>View Details</a></div>")%string)
           (lit "https://www.fastpeoplesearch.com/john-smith_id1") (lit "Jane Smith")).
  left. vm_compute. left. reflexivity.
Defined.

(** ** Detection and extraction agree on phone numbers *)

Lemma map_res_extend (f : ascii -> ascii) (m1 : str) (c1 : list (nat * str)) (r2 : res) :
  map_res f (extend m1 c1 r2)
  = extend (map f m1) (map (fun ic : nat * str => (fst ic, map f (snd ic))) c1)
      (map_res f r2).
Proof. destruct r2 as [[m2 c2] t2]. cbn. rewrite !map_app. reflexivity. Qed.

Lemma flat_map_map {A B C} (g : B -> list C) (h : A -> B) (l : list A) :
  flat_map g (map h l) = flat_map (fun x => g (h x)) l.
Proof. induction l as [|a l IH]; simpl; [reflexivity|]. rewrite IH. reflexivity. Qed.

Lemma map_flat_map {A B C} (h : B -> C) (g : A -> list B) (l : list A) :
  map h (flat_map g l) = flat_map (fun x => map h (g x)) l.
Proof.
  induction l as [|a l IH]; simpl; [reflexivity|]. rewrite map_app, IH. reflexivity.
Qed.

Lemma star_iter_map (f : ascii -> ascii) (body : option ascii -> str -> list res)
    (g : bool) :
  (forall prev prev' s, body prev' (map f s) = map (map_res f) (body prev s)) ->
  forall k prev prev' s,
    star_iter body g k prev' (map f s) = map (map_res f) (star_iter body g k prev s).
Proof.
  intros Hb. induction k as [|k IH]; intros prev prev' s; [reflexivity|].
  cbn [star_iter]. rewrite (Hb prev prev' s), flat_map_map.
  assert (E : flat_map (fun x : res =>
                 match map_res f x with
                 | ([], _, _) => []
                 | (m1, c1, t1) =>
                     map (extend m1 c1) (star_iter body g k (last_chr m1 prev') t1)
                 end) (body prev s)
              = map (map_res f)
                  (flat_map (fun r1 : res =>
                     match r1 with
                     | ([], _, _) => []
                     | (m1, c1, t1) =>
                         map (extend m1 c1) (star_iter body g k (last_chr m1 prev) t1)
                     end) (body prev s))).
  { rewrite map_flat_map. apply flat_map_ext. intros [[m1 c1] t1].
    destruct m1 as [|x m1]; [reflexivity|].
    cbn [map_res map]. rewrite (IH (last_chr (x :: m1) prev)).
    rewrite !map_map. apply map_ext. intros r2.
    rewrite map_res_extend. reflexivity. }
  rewrite E. destruct g.
  - rewrite map_app. reflexivity.
  - reflexivity.
Qed.

Lemma matches_map (f : ascii -> ascii) (r : regex) :
  class_stable f r ->
  forall prev prev' s, matches r prev' (map f s) = map (map_res f) (matches r prev s).
Proof.
  induction r as [|p|a IHa b IHb|a IHa b IHb|g a IHa|i a IHa| |]; intros H prev prev' s.
  - reflexivity.
  - destruct s as [|c t]; [reflexivity|]. cbn [map matches]. cbn in H. rewrite H.
    destruct (p c); reflexivity.
  - destruct H as [Ha Hb]. cbn [matches].
    rewrite (IHa Ha prev prev' s), flat_map_map, map_flat_map.
    apply flat_map_ext. intros [[m1 c1] t1]. cbn [map_res].
    rewrite (IHb Hb (last_chr m1 prev)). rewrite !map_map.
    apply map_ext. intros r2. rewrite map_res_extend. reflexivity.
  - destruct H as [Ha Hb]. cbn [matches].
    rewrite map_app, (IHa Ha prev prev' s), (IHb Hb prev prev' s). reflexivity.
  - cbn [matches]. rewrite length_map.
    apply star_iter_map. intros p p' s'. apply IHa. exact H.
  - cbn [matches]. rewrite (IHa H prev prev' s), !map_map.
    apply map_ext. intros [[m c] t]. cbn. rewrite map_app. reflexivity.
  - destruct H.
  - destruct H.
Qed.

Lemma search_from_map (f : ascii -> ascii) (r : regex) :
  class_stable f r ->
  forall s prev prev',
    search_from r prev' (map f s) = option_map (map_res f) (search_from r prev s).
Proof.
  intros H. induction s as [|c t IH]; intros prev prev'.
  - pose proof (matches_map f r H prev prev' []) as E. cbn [map] in E.
    cbn [map search_from]. rewrite E.
    destruct (matches r prev []); reflexivity.
  - pose proof (matches_map f r H prev prev' (c :: t)) as E. cbn [map] in E.
    cbn [map search_from]. rewrite E.
    destruct (matches r prev (c :: t)); [apply IH|reflexivity].
Qed.

Lemma found_map (f : ascii -> ascii) (r : regex) (s : str) :
  class_stable f r -> found r (map f s) = found r s.
Proof.
  intros H. unfold found, search. rewrite (search_from_map f r H s None None).
  destruct (search_from r None s); reflexivity.
Qed.

Lemma findall_from_found (r : regex) (k : nat) (prev : option ascii) (s : str) :
  findall_from k r prev s <> [] -> search_from r prev s <> None.
Proof.
  revert prev s. induction k as [|k IH]; intros prev s; [intros H; contradiction|].
  cbn [findall_from].
  destruct s as [|c t]; cbn [search_from];
    destruct (matches r prev _) as [|[[m caps] t'] l]; try discriminate;
    try (intros H; contradiction).
  apply IH.
Qed.

Lemma phone_re_lower_stable : class_stable py_lower_chr PHONE_RE.
Proof.
  cbv [PHONE_RE Opt Rep Chr digit class_stable].
  repeat split; intros c; ascii_cases c; reflexivity.
Qed.

(** X30. Detection and extraction agree on phone numbers: every page
    from which the parser of [fps_scraper_edge.py] extracts at least one
    phone number, and which is neither a challenge nor a block page, is
    accepted by [is_detail_page_html]. *)
Theorem page_with_phone_is_detail_page (html_parser : str -> soup)
    (html current_url : str) :
  is_cloudflare_challenge html = false ->
  Edge.looks_blocked html = false ->
  phones (Edge._parse_detail_page_html_to_data html_parser html current_url) <> [] ->
  Edge.is_detail_page_html html_parser html = true.
Proof.
  intros Hc Hb. unfold Edge._parse_detail_page_html_to_data, Edge.is_detail_page_html.
  destruct (negb (truthy html)); [intros H; contradiction|].
  rewrite Hc, Hb. cbn [orb]. cbv zeta. cbn [phones]. intros Hp.
  assert (Hsig : truthy (select Edge.phone_link (html_parser html))
                 || found PHONE_RE (py_lower (get_text_strip (lit " ") (html_parser html)))
                 = true).
  { destruct (select Edge.phone_link (html_parser html)) as [|a l] eqn:Es;
      [|reflexivity].
    cbn [flat_map truthy negb app orb] in Hp |- *.
    unfold py_lower. rewrite (found_map _ _ _ phone_re_lower_stable).
    unfold found, search.
    destruct (search_from PHONE_RE None (get_text_strip (lit " ") (html_parser html)))
      eqn:E; [reflexivity|].
    exfalso. apply Hp.
    destruct (findall PHONE_RE (get_text_strip (lit " ") (html_parser html))) as [|x xs] eqn:Ef;
      [reflexivity|].
    exfalso. eapply findall_from_found; [|exact E].
    unfold findall in Ef. rewrite Ef. discriminate. }
  rewrite Hsig.
  repeat match goal with
         | |- context [if ?c then _ + 1 else _] => destruct c
         end; reflexivity.
Qed.

Lemma page_with_phone_is_detail_page_witness :
  Edge.is_detail_page_html HtmlLite.parse
    (lit "<p>John Smith</p><p>Call 212.555.0187 today</p>") = true.
Proof.
  apply (page_with_phone_is_detail_page HtmlLite.parse
           (lit "<p>John Smith</p><p>Call 212.555.0187 today</p>")
           (lit "https://www.fastpeoplesearch.com/john-smith_id1")).
  - reflexivity.
  - reflexivity.
  - vm_compute. discriminate.
Defined.
